(** * Security portal backend: the Lambda handler of [lambda-package/index.js]

    A shallow embedding of the request-tracking handler together with the
    relational store it talks to (tables and constraints of the schema
    file), followed by the properties of the request lifecycle: list
    visibility, priority derivation, validation, status update with audit
    comment, role resolution, comment aggregation, notification containment
    and error surfacing. *)

From Stdlib Require Import String Ascii List ZArith Lia Bool.
From Stdlib Require Import DecimalString Permutation Sorted.
Import ListNotations.

Local Open Scope list_scope.
Local Open Scope Z_scope.
Local Open Scope string_scope.

Set Warnings "-register-all".

(** ** JavaScript values and the coercions the handler relies on *)

Module JS.

(** Values that reach the handler.  Everything [JSON.parse] can produce,
    plus [undefined] and the members every object inherits from
    [Object.prototype] ([VBuiltin]: functions, and the prototype object
    itself under the name [__proto__]).

    Numbers are kept as integers: the handler only tests numbers for
    truthiness and renders them as text.

    A string carries, next to its characters, what [JSON.parse] makes of
    it ([None] when [JSON.parse] throws a SyntaxError), so that the places
    where the handler parses a string need no parser here.  An object is
    the list of its own properties in enumeration order. *)
Inductive value : Type :=
| VUndef
| VNull
| VBool (b : bool)
| VNum (n : Z)
| VStr (s : string) (parsed : option value)
| VArr (items : list value)
| VObj (fields : list (string * value))
| VBuiltin (name : string).

(** A string that is not JSON text. *)
Definition str (s : string) : value := VStr s None.

(** Result of an evaluation that may throw; [Throw] carries
    [error.message].  The messages of the runtime's own errors are
    abbreviated where the runtime quotes source text or positions. *)
Inductive outcome (A : Type) : Type :=
| Ok (a : A)
| Throw (message : string).
Arguments Ok {A} a.
Arguments Throw {A} message.

Definition obind {A B} (o : outcome A) (f : A -> outcome B) : outcome B :=
  match o with
  | Ok a => f a
  | Throw m => Throw m
  end.

(** ToBoolean. *)
Definition truthy (v : value) : bool :=
  match v with
  | VUndef | VNull => false
  | VBool b => b
  | VNum n => negb (n =? 0)%Z
  | VStr s _ => negb (s =? "")%string
  | VArr _ | VObj _ | VBuiltin _ => true
  end.

(** [a || b] *)
Definition or_else (a b : value) : value := if truthy a then a else b.

(** [a === b] against a string literal. *)
Definition is_string (v : value) (lit : string) : bool :=
  match v with
  | VStr s _ => (s =? lit)%string
  | _ => false
  end.

Fixpoint assoc {A} (k : string) (l : list (string * A)) : option A :=
  match l with
  | [] => None
  | (k', v) :: rest => if (k =? k')%string then Some v else assoc k rest
  end.

Definition mem (k : string) (l : list string) : bool :=
  existsb (String.eqb k) l.

(** Property names found on [Object.prototype]. *)
Definition object_prototype_names : list string :=
  [ "constructor"; "__proto__"; "hasOwnProperty"; "isPrototypeOf";
    "propertyIsEnumerable"; "toLocaleString"; "toString"; "valueOf";
    "__defineGetter__"; "__defineSetter__"; "__lookupGetter__";
    "__lookupSetter__" ].

Definition inherited (k : string) : value :=
  if mem k object_prototype_names then VBuiltin k else VUndef.

(** [o[k]] for [o] neither [null] nor [undefined]: an own property, else
    what the prototype chain gives.  For strings and arrays only the
    members of [Object.prototype] are modelled; the handler reads from
    them none of their own members ([length], indices) through this
    function. *)
Definition member (o : value) (k : string) : value :=
  match o with
  | VObj fields =>
      match assoc k fields with
      | Some v => v
      | None => inherited k
      end
  | _ => inherited k
  end.

Definition nullish (v : value) : bool :=
  match v with
  | VUndef | VNull => true
  | _ => false
  end.

(** [o.k]: a TypeError on [null] and [undefined]. *)
Definition get (o : value) (k : string) : outcome value :=
  match o with
  | VNull => Throw ("Cannot read properties of null (reading '" ++ k ++ "')")
  | VUndef => Throw ("Cannot read properties of undefined (reading '" ++ k ++ "')")
  | _ => Ok (member o k)
  end.

(** [o?.k] *)
Definition opt_get (o : value) (k : string) : value :=
  if nullish o then VUndef else member o k.

Definition decimal (n : Z) : string := NilZero.string_of_int (Z.to_int n).

Definition has_own (k : string) (fields : list (string * value)) : bool :=
  match assoc k fields with
  | Some _ => true
  | None => false
  end.

(** ToString, as applied by template literals and by computed property
    keys.  An array is joined with commas ([null] and [undefined] elements
    render empty); an ordinary object renders [[object Object]] unless an
    own [toString] property (never callable in parsed JSON) shadows the
    inherited one, in which case the conversion throws. *)
Fixpoint ToString (v : value) : outcome string :=
  match v with
  | VUndef => Ok "undefined"
  | VNull => Ok "null"
  | VBool true => Ok "true"
  | VBool false => Ok "false"
  | VNum n => Ok (decimal n)
  | VStr s _ => Ok s
  | VArr items =>
      (fix join (l : list value) : outcome string :=
         match l with
         | [] => Ok ""
         | x :: rest =>
             obind (match x with
                    | VUndef | VNull => Ok ""
                    | _ => ToString x
                    end)
               (fun sx =>
                  match rest with
                  | [] => Ok sx
                  | _ :: _ => obind (join rest) (fun sr => Ok (sx ++ "," ++ sr))
                  end)
         end) items
  | VObj fields =>
      if has_own "toString" fields
      then Throw "Cannot convert object to primitive value"
      else Ok "[object Object]"
  | VBuiltin name =>
      if (name =? "__proto__")%string then Ok "[object Object]"
      else Ok ("function " ++ name ++ "() { [native code] }")
  end.

(** [table[key]] with a computed key. *)
Definition index (table key : value) : outcome value :=
  obind (ToString key) (fun k => Ok (member table k)).

Definition is_upper (c : ascii) : bool :=
  ((65 <=? nat_of_ascii c) && (nat_of_ascii c <=? 90))%nat.

Definition is_lower (c : ascii) : bool :=
  ((97 <=? nat_of_ascii c) && (nat_of_ascii c <=? 122))%nat.

Definition lower_char (c : ascii) : ascii :=
  if is_upper c then ascii_of_nat (nat_of_ascii c + 32) else c.

Definition upper_char (c : ascii) : ascii :=
  if is_lower c then ascii_of_nat (nat_of_ascii c - 32) else c.

Fixpoint map_chars (f : ascii -> ascii) (s : string) : string :=
  match s with
  | EmptyString => EmptyString
  | String c rest => String (f c) (map_chars f rest)
  end.

(** [toLowerCase] and [toUpperCase] on the ASCII letters; other
    characters are left as they are.  They stand for the methods of
    [String.prototype] where only ASCII letters matter: the membership test
    of [isITTeamMember] and the upper-casing of generated identifiers
    (base-36 digits and ASCII literals).  The role route lower-cases an
    arbitrary email: there the mapping of the runtime is used
    ([String_toLowerCase] of the world). *)
Definition toLowerCase (s : string) : string := map_chars lower_char s.
Definition toUpperCase (s : string) : string := map_chars upper_char s.

Definition is_space (c : ascii) : bool :=
  let n := nat_of_ascii c in
  ((n =? 32) || ((9 <=? n) && (n <=? 13)))%nat.

(** The white space of [trim] beyond ASCII, in its UTF-8 encoding: U+00A0,
    U+1680, U+2000 to U+200A, U+2028, U+2029, U+202F, U+205F, U+3000 and
    U+FEFF. *)
Definition is_space2 (a b : ascii) : bool :=
  ((nat_of_ascii a =? 194) && (nat_of_ascii b =? 160))%nat.

Definition is_space3 (a b c : ascii) : bool :=
  let x := nat_of_ascii a in
  let y := nat_of_ascii b in
  let z := nat_of_ascii c in
  (((x =? 225) && (y =? 154) && (z =? 128))
   || ((x =? 226) && (y =? 128)
       && (((128 <=? z) && (z <=? 138)) || (z =? 168) || (z =? 169) || (z =? 175)))
   || ((x =? 226) && (y =? 129) && (z =? 159))
   || ((x =? 227) && (y =? 128) && (z =? 128))
   || ((x =? 239) && (y =? 187) && (z =? 191)))%nat.

(** Whether [s.trim()] is the empty string. *)
Fixpoint blank (s : string) : bool :=
  match s with
  | EmptyString => true
  | String a rest =>
      if is_space a then blank rest
      else
        match rest with
        | String b rest' =>
            if is_space2 a b then blank rest'
            else
              match rest' with
              | String c rest'' => is_space3 a b c && blank rest''
              | EmptyString => false
              end
        | EmptyString => false
        end
  end.

(** [s.replace('-', ' ')]: the first occurrence only. *)
Fixpoint replace_dash (s : string) : string :=
  match s with
  | EmptyString => EmptyString
  | String c rest =>
      if (c =? "-")%char then String " "%char rest
      else String c (replace_dash rest)
  end.

Definition is_function (v : value) : bool :=
  match v with
  | VBuiltin name => negb (name =? "__proto__")%string
  | _ => false
  end.

Definition double_quote : ascii := ascii_of_nat 34.

Fixpoint escape (s : string) : string :=
  match s with
  | EmptyString => EmptyString
  | String c rest =>
      if (c =? double_quote)%char || (c =? "\")%char
      then String "\"%char (String c (escape rest))
      else String c (escape rest)
  end.

Definition quoted (s : string) : string :=
  String double_quote (escape s ++ String double_quote EmptyString).

(** [JSON.stringify] of a value [JSON.parse] can produce (control
    characters are not escaped). *)
Fixpoint JSON_stringify (v : value) : string :=
  match v with
  | VUndef | VNull | VBuiltin _ => "null"
  | VBool true => "true"
  | VBool false => "false"
  | VNum n => decimal n
  | VStr s _ => quoted s
  | VArr items =>
      "[" ++
      (fix elements (l : list value) : string :=
         match l with
         | [] => ""
         | x :: rest =>
             match rest with
             | [] => JSON_stringify x
             | _ :: _ => JSON_stringify x ++ "," ++ elements rest
             end
         end) items
      ++ "]"
  | VObj fields =>
      "{" ++
      (fix members (l : list (string * value)) : string :=
         match l with
         | [] => ""
         | (k, x) :: rest =>
             match rest with
             | [] => quoted k ++ ":" ++ JSON_stringify x
             | _ :: _ => quoted k ++ ":" ++ JSON_stringify x ++ "," ++ members rest
             end
         end) fields
      ++ "}"
  end.

(** The text of a document, as a string value. *)
Definition json_text (v : value) : value := VStr (JSON_stringify v) (Some v).

End JS.

(** ** The relational store: tables and constraints of the schema *)

Module Db.
Import JS.

(** Timestamps are epoch milliseconds throughout; their textual rendering
    is not modelled.  A JSON column holds the document whose text was
    bound (the round trip through [JSON.stringify] and the driver's
    parsing of JSON columns gives the document back). *)
Record request_row : Type := {
  r_id : string;
  r_user_id : value;
  r_user_info : value;
  r_form_data : value;
  r_request_type : value;
  r_details : value;
  r_reason : value;
  r_request_status : value;
  r_priority_level : value;
  r_created_at : Z;
  r_updated_at : Z
}.

Record comment_row : Type := {
  c_id : string;
  c_request_id : string;
  c_user_id : value;
  c_user_name : value;
  c_message : value;
  c_is_internal : value;
  c_created_at : Z
}.

Record role_row : Type := {
  u_user_id : string;
  u_email : string;
  u_user_role : value;
  u_permissions : value
}.

(** Rows are kept in the order in which the store scans them.

    The tables are declared with [COLLATE=utf8mb4_unicode_ci]: the server
    compares character columns by the weights of that collation (letter
    case, accents and trailing spaces do not count), not by their bytes.
    The weights are a parameter of the store: [collation d s] is the sort
    key of the text [s], and two texts are equal for the server when
    their keys are.

    The row of the [request_stats] view (counts by status, type and
    priority, counts by age on the server's clock, an average) is
    computed by the server from the rows of [requests]; its columns are
    the store's [stats_view]. *)
Record db : Type := {
  collation : string -> string;
  stats_view : list request_row -> list (string * value);
  requests : list request_row;
  request_comments : list comment_row;
  user_roles : list role_row
}.

(** The statements of [index.js], with their bound parameters. *)
Inductive statement : Type :=
| SelectUserRole (email : value)
| SelectRequests (owner : option value)
| SelectStats
| InsertRequest (id userId userInfo formData type details reason status
                   priority : value) (createdAt updatedAt : Z)
| UpdateStatus (status : value) (now : Z) (id : value)
| InsertComment (id requestId userId userName message isInternal : value)
                (createdAt : Z)
| SelectRequestById (id : value).

Definition params (q : statement) : list value :=
  match q with
  | SelectUserRole email => [email]
  | SelectRequests (Some owner) => [owner]
  | SelectRequests None => []
  | SelectStats => []
  | InsertRequest id userId userInfo formData type details reason status
      priority _ _ =>
      [id; userId; userInfo; formData; type; details; reason; status; priority]
  | UpdateStatus status _ id => [status; id]
  | InsertComment id requestId userId userName message isInternal _ =>
      [id; requestId; userId; userName; message; isInternal]
  | SelectRequestById id => [id]
  end.

Inductive rows : Type :=
| RoleRows (l : list role_row)
| RequestRows (l : list (request_row * value))
| StatRows (l : list value)
| ResultHeader (affectedRows : nat).

(** Text of a scalar bound into a character column; documents bound into
    one are kept as they are. *)
Definition sql_text (v : value) : option string :=
  match v with
  | VStr s _ => Some s
  | VNum n => Some (decimal n)
  | VBool true => Some "1"
  | VBool false => Some "0"
  | _ => None
  end.

Definition to_column (v : value) : value :=
  match v with
  | VStr _ _ => v
  | _ =>
      match sql_text v with
      | Some s => str s
      | None => v
      end
  end.

(** [BOOLEAN] is [TINYINT(1)]. *)
Definition to_tinyint (v : value) : value :=
  match v with
  | VBool true => VNum 1
  | VBool false => VNum 0
  | _ => v
  end.

(** Equality of two texts under a collation with sort key [key]. *)
Definition text_eq (key : string -> string) (a b : string) : bool :=
  (key a =? key b).

(** [column = ?] on character data. *)
Definition sql_eq (key : string -> string) (column param : value) : bool :=
  match sql_text column, sql_text param with
  | Some a, Some b => text_eq key a b
  | _, _ => false
  end.

Definition id_eq (key : string -> string) (id : string) (param : value) : bool :=
  match sql_text param with
  | Some p => text_eq key id p
  | None => false
  end.

Definition request_status_values : list string :=
  ["open"; "in-progress"; "resolved"; "closed"].

Definition priority_level_values : list string :=
  ["low"; "medium"; "high"; "critical"].

Definition request_type_values : list string :=
  [ "phishing-email"; "suspicious-website"; "social-engineering"; "malware";
    "data-breach"; "identity-theft"; "other"; "phishing-report" ].

(** [CHECK (column IN (...))]: a NULL passes, as in SQL. *)
Definition check_in (key : string -> string) (allowed : list string) (v : value)
  : bool :=
  match v with
  | VNull => true
  | _ =>
      match sql_text v with
      | Some s => existsb (text_eq key s) allowed
      | None => false
      end
  end.

Definition has_request (d : db) (id : string) : bool :=
  existsb (fun r => text_eq (collation d) (r_id r) id) (requests d).

(** *** The list query

    [SELECT r.*, JSON_ARRAYAGG(CASE WHEN c.id IS NOT NULL THEN JSON_OBJECT(..)
    ELSE NULL END) FROM requests r LEFT JOIN request_comments c
    ON r.id = c.request_id [WHERE ..] GROUP BY r.id [ORDER BY r.created_at DESC] *)

Definition left_join (key : string -> string) (rs : list request_row)
  (cs : list comment_row) : list (request_row * option comment_row) :=
  flat_map
    (fun r =>
       match filter (fun c => text_eq key (c_request_id c) (r_id r)) cs with
       | [] => [(r, None)]
       | matching => map (fun c => (r, Some c)) matching
       end)
    rs.

Fixpoint add_to_group (key : string -> string) (r : request_row)
  (c : option comment_row)
  (groups : list (request_row * list (option comment_row)))
  : list (request_row * list (option comment_row)) :=
  match groups with
  | [] => [(r, [c])]
  | (r', cs) :: rest =>
      if text_eq key (r_id r) (r_id r') then (r', (cs ++ [c])%list) :: rest
      else (r', cs) :: add_to_group key r c rest
  end.

Definition group_by_id (key : string -> string)
  (joined : list (request_row * option comment_row))
  : list (request_row * list (option comment_row)) :=
  fold_left (fun groups rc => add_to_group key (fst rc) (snd rc) groups) joined [].

Definition json_object (c : comment_row) : value :=
  VObj [ ("id", str (c_id c));
         ("userId", c_user_id c);
         ("userName", c_user_name c);
         ("message", c_message c);
         ("timestamp", VNum (c_created_at c));
         ("isInternal", c_is_internal c) ].

Definition json_arrayagg (cs : list (option comment_row)) : value :=
  VArr (map (fun oc =>
               match oc with
               | Some c => json_object c
               | None => VNull
               end) cs).

(** [ORDER BY r.created_at DESC], as a stable insertion sort (rows with
    the same creation time keep the order of the scan). *)
Fixpoint insert_desc (x : request_row * value)
  (l : list (request_row * value)) : list (request_row * value) :=
  match l with
  | [] => [x]
  | y :: rest =>
      if (r_created_at (fst y) <=? r_created_at (fst x))%Z then x :: l
      else y :: insert_desc x rest
  end.

Definition order_by_created_desc (l : list (request_row * value))
  : list (request_row * value) :=
  fold_right insert_desc [] l.

Definition aggregate (key : string -> string) (rs : list request_row)
  (cs : list comment_row) : list (request_row * value) :=
  map (fun g => (fst g, json_arrayagg (snd g)))
    (group_by_id key (left_join key rs cs)).

Definition where_owner (key : string -> string) (owner : option value)
  (rs : list request_row) : list request_row :=
  match owner with
  | Some p => filter (fun r => sql_eq key (r_user_id r) p) rs
  | None => rs
  end.

Definition select_requests (owner : option value) (d : db)
  : list (request_row * value) :=
  order_by_created_desc
    (aggregate (collation d)
       (where_owner (collation d) owner (requests d)) (request_comments d)).

Definition select_request_by_id (id : value) (d : db)
  : list (request_row * value) :=
  aggregate (collation d)
    (filter (fun r => id_eq (collation d) (r_id r) id) (requests d))
    (request_comments d).

(** The single row of the [request_stats] view (an aggregate without
    [GROUP BY] always returns one row). *)
Definition request_stats (d : db) : value := VObj (stats_view d (requests d)).

Definition set_requests (d : db) (rs : list request_row) : db :=
  {| collation := collation d;
     stats_view := stats_view d;
     requests := rs;
     request_comments := request_comments d;
     user_roles := user_roles d |}.

Definition set_comments (d : db) (cs : list comment_row) : db :=
  {| collation := collation d;
     stats_view := stats_view d;
     requests := requests d;
     request_comments := cs;
     user_roles := user_roles d |}.

Definition set_status (status : value) (now : Z) (r : request_row)
  : request_row :=
  {| r_id := r_id r;
     r_user_id := r_user_id r;
     r_user_info := r_user_info r;
     r_form_data := r_form_data r;
     r_request_type := r_request_type r;
     r_details := r_details r;
     r_reason := r_reason r;
     r_request_status := to_column status;
     r_priority_level := r_priority_level r;
     r_created_at := r_created_at r;
     r_updated_at := now |}.

(** *** Execution of one statement

    The constraints the schema names are enforced: primary keys,
    [NOT NULL], the three [CHECK]s on [requests] and the foreign key of
    [request_comments.request_id], all of them under the collation of the
    store.  A violation leaves the tables as they were.  The widths of
    the columns are not modelled. *)
Definition execute (q : statement) (d : db) : outcome rows * db :=
  match q with
  | SelectUserRole email =>
      (Ok (RoleRows (filter (fun u => id_eq (collation d) (u_email u) email)
                       (user_roles d))), d)
  | SelectRequests owner => (Ok (RequestRows (select_requests owner d)), d)
  | SelectRequestById id => (Ok (RequestRows (select_request_by_id id d)), d)
  | SelectStats => (Ok (StatRows [request_stats d]), d)
  | InsertRequest id userId userInfo formData type details reason status
      priority createdAt updatedAt =>
      match sql_text id with
      | None => (Throw "Column 'id' cannot be null", d)
      | Some rid =>
          if has_request d rid
          then (Throw "Duplicate entry for key 'requests.PRIMARY'", d)
          else if nullish userId
          then (Throw "Column 'user_id' cannot be null", d)
          else if nullish type
          then (Throw "Column 'request_type' cannot be null", d)
          else if negb (check_in (collation d) request_status_values status)
          then (Throw "Check constraint 'chk_request_status' is violated.", d)
          else if negb (check_in (collation d) priority_level_values priority)
          then (Throw "Check constraint 'chk_priority_level' is violated.", d)
          else if negb (check_in (collation d) request_type_values type)
          then (Throw "Check constraint 'chk_request_type' is violated.", d)
          else
            (Ok (ResultHeader 1),
             set_requests d
               (requests d ++
                [ {| r_id := rid;
                     r_user_id := to_column userId;
                     r_user_info := userInfo;
                     r_form_data := formData;
                     r_request_type := to_column type;
                     r_details := details;
                     r_reason := to_column reason;
                     r_request_status := to_column status;
                     r_priority_level := to_column priority;
                     r_created_at := createdAt;
                     r_updated_at := updatedAt |} ])%list)
      end
  | UpdateStatus status now id =>
      let hit := fun r => id_eq (collation d) (r_id r) id in
      if existsb hit (requests d)
         && negb (check_in (collation d) request_status_values status)
      then (Throw "Check constraint 'chk_request_status' is violated.", d)
      else
        (Ok (ResultHeader (length (filter hit (requests d)))),
         set_requests d
           (map (fun r => if hit r then set_status status now r else r)
              (requests d)))
  | InsertComment id requestId userId userName message isInternal createdAt =>
      match sql_text id, sql_text requestId with
      | Some cid, Some rid =>
          if existsb (fun c => text_eq (collation d) (c_id c) cid) (request_comments d)
          then (Throw "Duplicate entry for key 'request_comments.PRIMARY'", d)
          else if nullish userId || nullish userName || nullish message
          then (Throw "Column cannot be null", d)
          else if negb (has_request d rid)
          then (Throw "Cannot add or update a child row: a foreign key constraint fails (request_comments, FOREIGN KEY (request_id) REFERENCES requests (id))", d)
          else
            (Ok (ResultHeader 1),
             set_comments d
               (request_comments d ++
                [ {| c_id := cid;
                     c_request_id := rid;
                     c_user_id := to_column userId;
                     c_user_name := to_column userName;
                     c_message := to_column message;
                     c_is_internal := to_tinyint isInternal;
                     c_created_at := createdAt |} ])%list)
      | _, _ => (Throw "Column cannot be null", d)
      end
  end.

End Db.

(** ** The handler: [lambda-package/index.js] *)

Module Lambda.
Import JS Db.

Inductive level : Type := LOG | WARN | ERROR.

(** What the webhook call does: the promise of [fetch] rejects, or a
    response arrives whose [text()] may itself reject. *)
Inductive fetch_outcome : Type :=
| FetchRejects (message : string)
| FetchResponds (status : Z) (ok : bool) (text : outcome string).

(** Everything an invocation reads or changes outside its arguments.
    [faults] is the plan of store failures that have nothing to do with
    the tables (connectivity, time-outs): one entry is consumed by each
    statement, [Some m] making the driver reject with message [m].
    [sql_trace] lists the statements handed to the driver, each with the
    error message it failed with.  [String_toLowerCase] is the case mapping
    of the runtime ([String.prototype.toLowerCase], over all of
    Unicode). *)
Record world : Type := {
  store : db;
  faults : list (option string);
  sql_trace : list (statement * option string);
  console : list (level * string);
  clock : Z;
  random36 : string;
  String_toLowerCase : string -> string;
  POWER_AUTOMATE_WEBHOOK_URL : value;
  fetch_plan : fetch_outcome;
  posted : list value
}.

Definition with_console (w : world) (c : list (level * string)) : world :=
  {| store := store w; faults := faults w; sql_trace := sql_trace w;
     console := c; clock := clock w; random36 := random36 w;
     String_toLowerCase := String_toLowerCase w;
     POWER_AUTOMATE_WEBHOOK_URL := POWER_AUTOMATE_WEBHOOK_URL w;
     fetch_plan := fetch_plan w; posted := posted w |}.

Definition with_posted (w : world) (p : list value) : world :=
  {| store := store w; faults := faults w; sql_trace := sql_trace w;
     console := console w; clock := clock w; random36 := random36 w;
     String_toLowerCase := String_toLowerCase w;
     POWER_AUTOMATE_WEBHOOK_URL := POWER_AUTOMATE_WEBHOOK_URL w;
     fetch_plan := fetch_plan w; posted := p |}.

Definition with_query (w : world) (d : db) (q : statement)
  (failure : option string) : world :=
  {| store := d; faults := tl (faults w);
     sql_trace := (sql_trace w ++ [(q, failure)])%list;
     console := console w; clock := clock w; random36 := random36 w;
     String_toLowerCase := String_toLowerCase w;
     POWER_AUTOMATE_WEBHOOK_URL := POWER_AUTOMATE_WEBHOOK_URL w;
     fetch_plan := fetch_plan w; posted := posted w |}.

(** *** Computations: state passing with exceptions

    A thrown error keeps the world reached so far: writes and log lines
    made before the throw stay. *)
Definition M (A : Type) : Type := world -> outcome A * world.

Definition ret {A} (a : A) : M A := fun w => (Ok a, w).

Definition throw {A} (message : string) : M A := fun w => (Throw message, w).

Definition bind {A B} (c : M A) (f : A -> M B) : M B :=
  fun w =>
    match c w with
    | (Ok a, w') => f a w'
    | (Throw m, w') => (Throw m, w')
    end.

Definition try_catch {A} (c : M A) (handle : string -> M A) : M A :=
  fun w =>
    match c w with
    | (Ok a, w') => (Ok a, w')
    | (Throw m, w') => handle m w'
    end.

Definition lift {A} (o : outcome A) : M A := fun w => (o, w).

Notation "x <- c ;; k" := (bind c (fun x => k))
  (at level 61, c at next level, right associativity).
Notation "c ;; k" := (bind c (fun _ => k))
  (at level 61, right associativity).
Notation "x <~ c ;; k" := (obind c (fun x => k))
  (at level 61, c at next level, right associativity).

Fixpoint mapM {A B} (f : A -> M B) (l : list A) : M (list B) :=
  match l with
  | [] => ret []
  | x :: rest =>
      y <- f x ;;
      ys <- mapM f rest ;;
      ret (y :: ys)
  end.

Definition console_log (text : string) : M unit :=
  fun w => (Ok tt, with_console w (console w ++ [(LOG, text)])%list).

Definition console_warn (text : string) : M unit :=
  fun w => (Ok tt, with_console w (console w ++ [(WARN, text)])%list).

Definition console_error (text : string) : M unit :=
  fun w => (Ok tt, with_console w (console w ++ [(ERROR, text)])%list).

(** [new Date()] / [Date.now()]: one reading per invocation. *)
Definition Date_now : M Z := fun w => (Ok (clock w), w).

(** [s.toLowerCase()] on an arbitrary string. *)
Definition lowered (s : string) : M string :=
  fun w => (Ok (String_toLowerCase w s), w).

(** *** The driver *)

Definition failure_of {A} (o : outcome A) : option string :=
  match o with
  | Ok _ => None
  | Throw m => Some m
  end.

(** [connection.execute(sql, params)].  The driver refuses [undefined]
    and functions among the parameters; otherwise the statement runs on
    the store unless the fault plan makes it fail. *)
Definition driver (q : statement) (w : world) : outcome rows * db :=
  if existsb (fun p => match p with VUndef => true | _ => false end) (params q)
  then (Throw "Bind parameters must not contain undefined. To pass SQL NULL specify JS null",
        store w)
  else if existsb is_function (params q)
  then (Throw "Bind parameters must not contain function(s). To pass the body of a function as a string call .toString() first",
        store w)
  else
    match faults w with
    | Some m :: _ => (Throw m, store w)
    | _ => execute q (store w)
    end.

Definition connection_execute (q : statement) : M rows :=
  fun w =>
    let (r, d) := driver q w in
    (r, with_query w d q (failure_of r)).

Definition row_count (r : rows) : nat :=
  match r with
  | RoleRows l => length l
  | RequestRows l => length l
  | StatRows l => length l
  | ResultHeader n => n
  end.

Definition executeQuery (q : statement) : M rows :=
  try_catch
    (console_log "Executing SQL:" ;;
     r <- connection_execute q ;;
     console_log ("Query executed successfully, rows: "
                  ++ decimal (Z.of_nat (row_count r))) ;;
     ret r)
    (fun error =>
       console_error ("Database query failed: " ++ error) ;;
       throw error).

(** *** Identifiers *)

Definition digit36 (d : N) : ascii :=
  if (d <? 10)%N then ascii_of_N (48 + d) else ascii_of_N (87 + d).

Fixpoint base36_digits (fuel : nat) (n : N) (acc : string) : string :=
  match fuel with
  | O => acc
  | S fuel' =>
      let acc' := String (digit36 (n mod 36)) acc in
      if (n / 36 =? 0)%N then acc' else base36_digits fuel' (n / 36) acc'
  end.

(** [n.toString(36)] for a non-negative integer. *)
Definition toString36 (n : Z) : string :=
  base36_digits (S (N.size_nat (Z.to_N n))) (Z.to_N n) "".

(** [Math.random().toString(36).substring(2, 8)]: [random36] holds the
    digits of the draw after [0.]. *)
Definition random_suffix : M string :=
  fun w => (Ok (substring 0 6 (random36 w)), w).

Definition generateRequestId : M string :=
  timestamp <- Date_now ;;
  randomStr <- random_suffix ;;
  ret (toUpperCase ("REQ-" ++ toString36 timestamp ++ "-" ++ randomStr)).

Definition generateCommentId : M string :=
  timestamp <- Date_now ;;
  randomStr <- random_suffix ;;
  ret (toUpperCase ("CMT-" ++ toString36 timestamp ++ "-" ++ randomStr)).

(** [JSON.parse(x)].  The gateway and the driver hand over strings,
    [null] or [undefined]; on a string the answer is the one the string
    carries. *)
Definition JSON_parse (v : value) : outcome value :=
  match v with
  | VStr _ (Some x) => Ok x
  | VStr _ None => Throw "Unexpected token in JSON"
  | VUndef => Throw "Unexpected token u in JSON at position 0"
  | VNull => Ok VNull
  | VBool b => Ok (VBool b)
  | VNum n => Ok (VNum n)
  | VArr _ | VObj _ | VBuiltin _ => Throw "Unexpected token in JSON"
  end.

Definition parseJSON (jsonString : value) : M value :=
  if negb (truthy jsonString) then ret VNull
  else
    match jsonString with
    | VStr _ _ =>
        try_catch (lift (JSON_parse jsonString))
          (fun _ => console_warn "Failed to parse JSON:" ;; ret VNull)
    | _ => ret jsonString
    end.

Definition IT_TEAM_EMAILS : list string :=
  ["john.smith@company.net"; "admin@company.net"].

(** Lower-casing the ASCII letters decides membership exactly: the only
    character outside ASCII whose lower case is an ASCII letter is the
    Kelvin sign, and neither address has a [k]. *)
Definition isITTeamMember (email : string) : bool :=
  mem (toLowerCase email) IT_TEAM_EMAILS.

(** *** The Teams notification

    Emoji are written by their short names. *)

Definition severityEmojis : value :=
  VObj [ ("low", str ":green_circle:"); ("medium", str ":yellow_circle:");
         ("high", str ":red_circle:"); ("critical", str ":rotating_light:") ].

Definition incidentTypeEmojis : value :=
  VObj [ ("phishing-email", str ":e-mail:");
         ("suspicious-website", str ":globe:");
         ("social-engineering", str ":busts:");
         ("malware", str ":microbe:");
         ("data-breach", str ":unlocked:");
         ("identity-theft", str ":id:");
         ("other", str ":question:") ].

(** [receiver.name(..)] for a method of [String.prototype]: on anything
    but a string the member is not a function and the call throws. *)
Definition call_string_method (receiver : value) (name : string)
  (f : string -> string) : outcome value :=
  match receiver with
  | VStr s _ => Ok (str (f s))
  | _ => Throw (name ++ " is not a function")
  end.

(** [receiver?.name(..)] *)
Definition opt_call_string_method (receiver : value) (name : string)
  (f : string -> string) : outcome value :=
  if nullish receiver then Ok VUndef else call_string_method receiver name f.

Definition TextBlock (text : string) (extra : list (string * value)) : value :=
  VObj (("type", str "TextBlock") :: ("text", str text) :: extra).

Definition fact (title : string) (v : value) : value :=
  VObj [("title", str title); ("value", v)].

(** The [payload] constant of [sendTeamsNotification], built before its
    [try] block is entered. *)
Definition notification_payload (reportData : value) : outcome value :=
  let severity := member reportData "severity" in
  let userInfo := member reportData "userInfo" in
  let formData := member reportData "formData" in
  let reason := member reportData "reason" in
  headEmoji <~ index severityEmojis severity ;;
  head <~ ToString headEmoji ;;
  reportId <~ ToString (member reportData "requestId") ;;
  name <~ ToString (or_else (opt_get userInfo "name") (str "Unknown")) ;;
  email <~ ToString (or_else (opt_get userInfo "email") (str "N/A")) ;;
  typeEmoji <~ index incidentTypeEmojis (opt_get formData "incidentType") ;;
  typeHead <~ ToString (or_else typeEmoji (str ":shield:")) ;;
  typeName <~ opt_call_string_method
                (or_else (opt_get formData "incidentType")
                   (member reportData "type"))
                "replace" replace_dash ;;
  typeText <~ ToString typeName ;;
  sevEmoji <~ index severityEmojis severity ;;
  sevHead <~ ToString sevEmoji ;;
  sevName <~ opt_call_string_method severity "toUpperCase" toUpperCase ;;
  sevText <~ ToString sevName ;;
  description <~ call_string_method
                   (or_else (opt_get formData "description")
                      (str "No description provided"))
                   "substring" (substring 0 200) ;;
  Ok (VObj
        [ ("attachments",
           VArr
             [ VObj
                 [ ("contentType", str "application/vnd.microsoft.card.adaptive");
                   ("content",
                    VObj
                      [ ("type", str "AdaptiveCard");
                        ("version", str "1.4");
                        ("body",
                         VArr
                           [ TextBlock (head ++ " New Security Incident Report")
                               [("weight", str "Bolder"); ("size", str "Large")];
                             TextBlock ("Report ID: " ++ reportId)
                               [("weight", str "Bolder")];
                             VObj
                               [ ("type", str "FactSet");
                                 ("facts",
                                  VArr
                                    [ fact "Reporter"
                                        (str (name ++ " (" ++ email ++ ")"));
                                      fact "Department"
                                        (or_else (opt_get userInfo "department")
                                           (str "Not specified"));
                                      fact "Incident Type"
                                        (str (typeHead ++ " " ++ typeText));
                                      fact "Severity"
                                        (str (sevHead ++ " " ++ sevText));
                                      fact "Subject"
                                        (or_else (opt_get formData "subject") reason);
                                      fact "Date Occurred"
                                        (or_else (opt_get formData "dateOccurred")
                                           (str "Not specified")) ]) ];
                             TextBlock "**Description:**" [("weight", str "Bolder")];
                             VObj [ ("type", str "TextBlock");
                                    ("text", description);
                                    ("wrap", VBool true) ] ]);
                        ("actions",
                         VArr
                           [ VObj
                               [ ("type", str "Action.OpenUrl");
                                 ("title", str "View Dashboard");
                                 ("url", str "https://company-security-portal.company.net/") ] ]) ]) ] ]);
          ("reportId", member reportData "requestId");
          ("severity", severity);
          ("subject", or_else (opt_get formData "subject") reason);
          ("reporterName", or_else (opt_get userInfo "name") (str "Unknown"));
          ("reporterEmail", or_else (opt_get userInfo "email") (str "N/A")) ]).

(** [fetch(url, {method: 'POST', body})]: the payload is recorded in
    [posted]; the outcome is the one planned. *)
Definition fetch (payload : value) : M (Z * bool * outcome string) :=
  fun w =>
    let w' := with_posted w (posted w ++ [payload])%list in
    match fetch_plan w with
    | FetchRejects m => (Throw m, w')
    | FetchResponds status ok text => (Ok (status, ok, text), w')
    end.

Definition sendTeamsNotification (reportData : value) : M unit :=
  fun w =>
    let POWER_AUTOMATE_URL := POWER_AUTOMATE_WEBHOOK_URL w in
    (console_log "Checking Power Automate configuration..." ;;
     console_log "Environment variable set:" ;;
     console_log "URL length:" ;;
     if negb (truthy POWER_AUTOMATE_URL)
     then console_log "Power Automate webhook URL not configured, skipping notification"
     else
       console_log "Sending notification for report:" ;;
       payload <- lift (notification_payload reportData) ;;
       try_catch
         (console_log "Making request to Power Automate..." ;;
          console_log "Payload size:" ;;
          response <- fetch payload ;;
          console_log "Response status:" ;;
          console_log "Response headers:" ;;
          let '(status, ok, text) := response in
          if ok : bool
          then
            responseText <- lift text ;;
            console_log "Power Automate notification sent successfully" ;;
            console_log ("Response: " ++ responseText)
          else
            errorText <- lift text ;;
            console_error ("Failed to send Power Automate notification: "
                           ++ decimal status ++ " " ++ errorText))
         (fun error =>
            console_error ("Error sending Power Automate notification: " ++ error) ;;
            console_error "Stack trace:")) w.

(** *** Events and responses *)

(** The gateway event.  Absent fields are [None]; [body] is the raw
    body as a JavaScript value (a string, [null] or [undefined]). *)
Record event : Type := {
  path : option string;
  rawPath : option string;
  httpMethod : option string;
  http_method : option string;   (* requestContext?.http?.method *)
  http_path : option string;     (* requestContext?.http?.path *)
  queryStringParameters : option (list (string * string));
  body : value
}.

(** The response: the headers are the same constant in every response
    and are left out; [response_body] is the object handed to
    [JSON.stringify]. *)
Record response : Type := {
  statusCode : Z;
  response_body : value
}.

(** [a || b] on optional strings: the empty string is falsy. *)
Definition first_of (a : option string) (b : option string) : option string :=
  match a with
  | Some s => if (s =? "") then b else a
  | None => b
  end.

Definition or_default (a : option string) (d : string) : string :=
  match first_of a None with
  | Some s => s
  | None => d
  end.

(** [event.queryStringParameters?.name] *)
Definition query_parameter (e : event) (name : string) : option string :=
  match queryStringParameters e with
  | Some q => assoc name q
  | None => None
  end.

Fixpoint strip_prefix (p s : string) : option string :=
  match p with
  | EmptyString => Some s
  | String a p' =>
      match s with
      | EmptyString => None
      | String b s' => if (a =? b)%char then strip_prefix p' s' else None
      end
  end.

(** Splits at the first slash: the part before it, and the rest from the
    slash on. *)
Fixpoint split_slash (s : string) : option (string * string) :=
  match s with
  | EmptyString => None
  | String c rest =>
      if (c =? "/")%char then Some (EmptyString, s)
      else
        match split_slash rest with
        | Some (a, b) => Some (String c a, b)
        | None => None
        end
  end.

(** [path.match(/^\/api\/requests\/([^\/]+)\/status$/)]: the captured
    identifier. *)
Definition status_route_id (p : string) : option string :=
  match strip_prefix "/api/requests/" p with
  | Some rest =>
      match split_slash rest with
      | Some (id, tail) =>
          if negb (id =? "") && (tail =? "/status") then Some id else None
      | None => None
      end
  | None => None
  end.

Definition json_response (code : Z) (fields : list (string * value)) : response :=
  {| statusCode := code; response_body := VObj fields |}.

Definition not_null (c : value) : bool :=
  match c with
  | VNull => false
  | _ => true
  end.

(** [x.filter(c => c !== null)] *)
Definition filter_not_null (x : value) : outcome value :=
  match x with
  | VArr items => Ok (VArr (filter not_null items))
  | VNull | VUndef => Throw "Cannot read properties of null (reading 'filter')"
  | _ => Throw "filter is not a function"
  end.

(** [row.comments ? parseJSON(row.comments).filter(c => c !== null) : []] *)
Definition comments_of (comments : value) : M value :=
  if truthy comments
  then
    parsed <- parseJSON comments ;;
    lift (filter_not_null parsed)
  else ret (VArr []).

(** The response shape of one request row with its aggregated comments. *)
Definition transform (row : request_row * value) : M value :=
  let (r, aggregated) := row in
  userInfo <- parseJSON (r_user_info r) ;;
  formData <- parseJSON (r_form_data r) ;;
  details <- parseJSON (r_details r) ;;
  comments <- comments_of aggregated ;;
  formData' <- parseJSON (r_form_data r) ;;
  ret (VObj [ ("id", str (r_id r));
              ("userId", r_user_id r);
              ("userInfo", userInfo);
              ("formData", formData);
              ("type", r_request_type r);
              ("details", details);
              ("reason", r_reason r);
              ("status", r_request_status r);
              ("priority", r_priority_level r);
              ("createdAt", VNum (r_created_at r));
              ("updatedAt", VNum (r_updated_at r));
              ("comments", comments);
              ("isSecurityIncident", VBool true);
              ("severity", or_else (opt_get formData' "severity")
                             (r_priority_level r)) ]).

Definition request_rows (r : rows) : list (request_row * value) :=
  match r with
  | RequestRows l => l
  | _ => []
  end.

Definition minimal_permissions : value :=
  VArr [str "request:create"; str "request:view-own"].

Definition it_support_permissions : value :=
  VArr [ str "request:create"; str "request:view-own"; str "request:view-all";
         str "request:approve"; str "request:assign"; str "notification:send";
         str "analytics:view" ].

Definition admin_permissions : value :=
  VArr [ str "request:create"; str "request:view-own"; str "request:view-all";
         str "request:approve"; str "request:assign"; str "request:delete";
         str "notification:send"; str "user:manage"; str "analytics:view" ].

(** The permissions of a stored role record (the inner [try]/[catch] of
    the role route). *)
Definition resolve_permissions (role permissionsData : value) : M value :=
  try_catch
    (console_log "Raw permissions data:" ;;
     match permissionsData with
     | VStr _ _ => lift (JSON_parse permissionsData)
     | VArr _ => ret permissionsData
     | _ =>
         console_log "Unexpected permissions format, using default" ;;
         ret minimal_permissions
     end)
    (fun parseError =>
       console_error ("Error parsing permissions JSON: " ++ parseError) ;;
       console_error "Raw permissions data:" ;;
       if is_string role "admin" then ret admin_permissions
       else if is_string role "it-support" then ret it_support_permissions
       else ret minimal_permissions).

(** [GET /api/auth/user-role] *)
Definition user_role (e : event) : M response :=
  try_catch
    (match first_of (query_parameter e "email") None with
     | None =>
         ret (json_response 400
                [ ("error", str "Bad Request");
                  ("message", str "Email is required for user role determination") ])
     | Some userEmail =>
         console_log ("Determining role for email: " ++ userEmail) ;;
         bound <- lowered userEmail ;;
         result <- executeQuery (SelectUserRole (str bound)) ;;
         rp <- match result with
               | RoleRows (first :: _) =>
                   console_log "Found user in database:" ;;
                   let role := u_user_role first in
                   permissions <- resolve_permissions role (u_permissions first) ;;
                   ret (role, permissions)
               | _ =>
                   console_log "User not found in database, assigning default role" ;;
                   ret (str "user", minimal_permissions)
               end ;;
         let (role, permissions) := rp : value * value in
         now <- Date_now ;;
         console_log "Final user info:" ;;
         ret (json_response 200
                [ ("user",
                   VObj [ ("userId", str ("user-" ++ decimal now));
                          ("email", str userEmail);
                          ("name", str "Unknown User");
                          ("role", role);
                          ("permissions", permissions);
                          ("isITTeam",
                           VBool (is_string role "it-support"
                                  || is_string role "admin"));
                          ("isAdmin", VBool (is_string role "admin")) ]);
                  ("roles",
                   VObj [ ("USER", str "user");
                          ("IT_SUPPORT", str "it-support");
                          ("ADMIN", str "admin") ]) ])
     end)
    (fun error =>
       console_error ("Error determining user role: " ++ error) ;;
       ret (json_response 500
              [ ("error", str "Internal server error");
                ("message", str error) ])).

(** [GET /api/requests] *)
Definition list_requests (e : event) : M response :=
  let userId := or_default (query_parameter e "userId") "test-user-123" in
  let userEmail :=
    or_default (query_parameter e "userEmail") "john.smith@company.net" in
  let isITUser := isITTeamMember userEmail in
  rows <- executeQuery
            (SelectRequests (if isITUser then None else Some (str userId))) ;;
  requests <- mapM transform (request_rows rows) ;;
  ret (json_response 200
         [ ("requests", VArr requests);
           ("count", VNum (Z.of_nat (length requests))) ]).

Definition severityToPriority : value :=
  VObj [ ("low", str "low"); ("medium", str "medium");
         ("high", str "high"); ("critical", str "critical") ].

(** The [priority] computed by the create route from a request body
    that is neither [null] nor [undefined]. *)
Definition derive_priority (requestData : value) : outcome value :=
  let severity := opt_get (member requestData "formData") "severity" in
  if truthy severity
  then
    mapped <~ index severityToPriority severity ;;
    Ok (or_else mapped (str "medium"))
  else Ok (str "medium").

(** [POST /api/requests] *)
Definition create_request (e : event) : M response :=
  requestData <- lift (JSON_parse (body e)) ;;
  givenId <- lift (get requestData "userId") ;;
  let userId := or_else givenId (str "test-user-123") in
  let userInfo := member requestData "userInfo" in
  let formData := member requestData "formData" in
  let type := member requestData "type" in
  let details := member requestData "details" in
  let reason := member requestData "reason" in
  if negb (truthy userInfo) || negb (truthy type) || negb (truthy reason)
  then
    ret (json_response 400
           [("error", str "Missing required fields: userInfo, type, reason")])
  else
    now <- Date_now ;;
    requestId <- generateRequestId ;;
    priority <- lift (derive_priority requestData) ;;
    executeQuery
      (InsertRequest (str requestId) userId userInfo
         (or_else formData (VObj [])) type (or_else details (VObj []))
         reason (str "open") priority now now) ;;
    sendTeamsNotification
      (VObj [ ("requestId", str requestId);
              ("userInfo", userInfo);
              ("formData", formData);
              ("severity", priority);
              ("type", type);
              ("reason", reason) ]) ;;
    ret (json_response 201
           [ ("message", str "Security report created successfully");
             ("request",
              VObj [ ("id", str requestId);
                     ("userId", userId);
                     ("userInfo", userInfo);
                     ("formData", formData);
                     ("type", type);
                     ("details", details);
                     ("reason", reason);
                     ("status", str "open");
                     ("priority", priority);
                     ("createdAt", VNum now);
                     ("isSecurityIncident", VBool true) ]) ]).

(** [GET /api/requests/stats] *)
Definition request_statistics : M response :=
  rows <- executeQuery SelectStats ;;
  let stats :=
    match rows with
    | StatRows (first :: _) => first
    | _ => VUndef
    end in
  ret (json_response 200
         [ ("statistics",
            or_else stats
              (VObj [ ("total", VNum 0); ("open", VNum 0);
                      ("in-progress", VNum 0); ("resolved", VNum 0);
                      ("closed", VNum 0) ])) ]).

(** [updateData.notes && updateData.notes.trim()], as the condition of
    the [if]. *)
Definition has_notes (notes : value) : outcome bool :=
  if truthy notes
  then
    match notes with
    | VStr s _ => Ok (negb (blank s))
    | _ => Throw "updateData.notes.trim is not a function"
    end
  else Ok false.

(** The response shape of the re-fetched request. *)
Definition transform_updated (row : request_row * value) : M value :=
  let (r, aggregated) := row in
  comments <- comments_of aggregated ;;
  console_log "Raw comments from DB:" ;;
  console_log "Parsed comments:" ;;
  userInfo <- parseJSON (r_user_info r) ;;
  formData <- parseJSON (r_form_data r) ;;
  details <- parseJSON (r_details r) ;;
  formData' <- parseJSON (r_form_data r) ;;
  ret (VObj [ ("id", str (r_id r));
              ("userId", r_user_id r);
              ("userInfo", userInfo);
              ("formData", formData);
              ("type", r_request_type r);
              ("details", details);
              ("reason", r_reason r);
              ("status", r_request_status r);
              ("priority", r_priority_level r);
              ("createdAt", VNum (r_created_at r));
              ("updatedAt", VNum (r_updated_at r));
              ("comments", comments);
              ("isSecurityIncident", VBool true);
              ("severity", or_else (opt_get formData' "severity")
                             (r_priority_level r)) ]).

(** [PUT /api/requests/{id}/status] *)
Definition update_status (requestId : string) (e : event) : M response :=
  updateData <- lift (JSON_parse (body e)) ;;
  console_log "Updating request status:" ;;
  status <- lift (get updateData "status") ;;
  if negb (truthy status)
  then ret (json_response 400 [("error", str "Status is required")])
  else
    now <- Date_now ;;
    executeQuery (UpdateStatus status now (str requestId)) ;;
    let notes := member updateData "notes" in
    withNotes <- lift (has_notes notes) ;;
    (if withNotes : bool
     then
       console_log "Adding investigation notes as comment:" ;;
       commentId <- generateCommentId ;;
       statusText <- lift (ToString status) ;;
       notesText <- lift (ToString notes) ;;
       console_log "Inserting comment with params:" ;;
       executeQuery
         (InsertComment (str commentId) (str requestId)
            (or_else (member updateData "updatedBy") (str "admin"))
            (str "IT Admin")
            (str ("Status changed to " ++ statusText ++ ". Notes: " ++ notesText))
            (or_else (member updateData "isInternal") (VBool false))
            now) ;;
       console_log "Comment inserted successfully"
     else console_log "No notes provided or notes empty:") ;;
    rows <- executeQuery (SelectRequestById (str requestId)) ;;
    match request_rows rows with
    | [] => ret (json_response 404 [("error", str "Request not found")])
    | updatedRequest :: _ =>
        transformedRequest <- transform_updated updatedRequest ;;
        console_log "Returning transformed request with comments:" ;;
        ret (json_response 200
               [ ("message", str "Request status updated successfully");
                 ("request", transformedRequest) ])
    end.

Definition opt_is (o : option string) (lit : string) : bool :=
  match o with
  | Some s => (s =? lit)
  | None => false
  end.

Inductive operation : Type :=
| Preflight
| Health
| TestTeams
| UserRole
| ListRequests
| CreateRequest
| Statistics
| UpdateRequestStatus (requestId : string)
| NotFound.

Definition request_path (e : event) : string :=
  or_default (first_of (path e) (first_of (rawPath e) (http_path e))) "/health".

Definition request_method (e : event) : string :=
  or_default (first_of (httpMethod e) (http_method e)) "GET".

(** The chain of route tests, in the order of the source. *)
Definition dispatch (e : event) : operation :=
  if opt_is (http_method e) "OPTIONS" || opt_is (httpMethod e) "OPTIONS"
  then Preflight
  else
    let path := request_path e in
    let method := request_method e in
    if (path =? "/health") && (method =? "GET") then Health
    else if (path =? "/test-teams") && (method =? "POST") then TestTeams
    else if (path =? "/api/auth/user-role") && (method =? "GET") then UserRole
    else if (path =? "/api/requests") && (method =? "GET") then ListRequests
    else if (path =? "/api/requests") && (method =? "POST") then CreateRequest
    else if (path =? "/api/requests/stats") && (method =? "GET") then Statistics
    else
      match status_route_id path with
      | Some requestId =>
          if (method =? "PUT") then UpdateRequestStatus requestId else NotFound
      | None => NotFound
      end.

(** [POST /test-teams] *)
Definition test_teams : M response :=
  console_log "Testing Teams notification..." ;;
  now <- Date_now ;;
  sendTeamsNotification
    (VObj [ ("requestId", str ("TEST-" ++ decimal now));
            ("severity", str "high");
            ("formData",
             VObj [ ("subject", str "Test notification from Lambda");
                    ("description", str "This is a test notification");
                    ("incidentType", str "phishing-email") ]);
            ("userInfo",
             VObj [ ("name", str "Test User");
                    ("email", str "test@test.com");
                    ("department", str "IT") ]);
            ("type", str "phishing-email");
            ("reason", str "Testing Teams integration") ]) ;;
  ret (json_response 200
         [("message", str "Test notification sent, check logs")]).

(** The body of the outer [try]. *)
Definition route (e : event) : M response :=
  match dispatch e with
  | Preflight => ret {| statusCode := 200; response_body := str "" |}
  | operation =>
      console_log ("Request: " ++ request_method e ++ " " ++ request_path e) ;;
      match operation with
      | Preflight => ret {| statusCode := 200; response_body := str "" |}
      | Health =>
          now <- Date_now ;;
          ret (json_response 200
                 [ ("status", str "OK");
                   ("message", str "Company Security Portal API is running!");
                   ("timestamp", VNum now);
                   ("version", str "1.0.0") ])
      | TestTeams => test_teams
      | UserRole => user_role e
      | ListRequests => list_requests e
      | CreateRequest => create_request e
      | Statistics => request_statistics
      | UpdateRequestStatus requestId => update_status requestId e
      | NotFound =>
          ret (json_response 404
                 [ ("error", str "Not Found");
                   ("message",
                    str ("Route " ++ request_method e ++ " " ++ request_path e
                         ++ " not found")) ])
      end
  end.

(** [exports.handler] *)
Definition handler (e : event) : M response :=
  console_log "Company API Lambda called" ;;
  console_log "Event:" ;;
  try_catch (route e)
    (fun error =>
       console_error ("Lambda error: " ++ error) ;;
       now <- Date_now ;;
       ret (json_response 500
              [ ("error", str "Internal Server Error");
                ("message", str error);
                ("timestamp", VNum now) ])).

End Lambda.

(** ** Vocabulary of the properties *)

Module Spec.
Import JS Db Lambda.

(** What [parseJSON] returns, apart from the warning it may log. *)
Definition parsed_or_null (v : value) : value :=
  if negb (truthy v) then VNull
  else
    match v with
    | VStr _ (Some x) => x
    | VStr _ None => VNull
    | _ => v
    end.

(** The response object of a request row, given its comments array. *)
Definition shape (r : request_row) (comments : value) : value :=
  VObj [ ("id", str (r_id r));
         ("userId", r_user_id r);
         ("userInfo", parsed_or_null (r_user_info r));
         ("formData", parsed_or_null (r_form_data r));
         ("type", r_request_type r);
         ("details", parsed_or_null (r_details r));
         ("reason", r_reason r);
         ("status", r_request_status r);
         ("priority", r_priority_level r);
         ("createdAt", VNum (r_created_at r));
         ("updatedAt", VNum (r_updated_at r));
         ("comments", comments);
         ("isSecurityIncident", VBool true);
         ("severity", or_else (opt_get (parsed_or_null (r_form_data r)) "severity")
                        (r_priority_level r)) ].

(** The comments of a request, in the order of the comment table. *)
Definition comments_for (d : db) (r : request_row) : list comment_row :=
  filter (fun c => text_eq (collation d) (c_request_id c) (r_id r))
    (request_comments d).

Definition listed (d : db) (r : request_row) : value :=
  shape r (VArr (map json_object (comments_for d r))).

(** The rows a group of joined rows aggregates over: the matching
    comments, or the single placeholder of the outer join. *)
Definition joined_comments (key : string -> string) (cs : list comment_row)
  (r : request_row) : list (option comment_row) :=
  match filter (fun c => text_eq key (c_request_id c) (r_id r)) cs with
  | [] => [None]
  | matching => map Some matching
  end.

(** What [transform] computes from a row of the list query. *)
Definition transformed (row : request_row * value) : value :=
  shape (fst row)
    (match snd row with
     | VArr items => VArr (filter not_null items)
     | _ => VArr []
     end).

Definition caller_id (e : event) : string :=
  or_default (query_parameter e "userId") "test-user-123".

Definition caller_email (e : event) : string :=
  or_default (query_parameter e "userEmail") "john.smith@company.net".

(** A query parameter that is absent or empty. *)
Definition absent (o : option string) : Prop := first_of o None = None.

(** The event with one more query parameter, ahead of the others. *)
Definition with_parameter (e : event) (name v : string) : event :=
  {| path := path e; rawPath := rawPath e; httpMethod := httpMethod e;
     http_method := http_method e; http_path := http_path e;
     queryStringParameters :=
       Some ((name, v) :: match queryStringParameters e with
                          | Some q => q
                          | None => []
                          end)%list;
     body := body e |}.

(** Two calls that are answered alike: the same response, the same
    statements issued, the same store left. *)
Definition same_answer (e e' : event) (w : world) : Prop :=
  fst (handler e w) = fst (handler e' w) /\
  sql_trace (snd (handler e w)) = sql_trace (snd (handler e' w)) /\
  store (snd (handler e w)) = store (snd (handler e' w)).

(** The owner restriction of the list query for a caller. *)
Definition owner_scope (e : event) : option value :=
  if isITTeamMember (caller_email e) then None else Some (str (caller_id e)).

(** The stored records the role route finds for an email: those whose
    email equals, under the collation of the store, the email lower-cased
    by the runtime. *)
Definition role_rows (w : world) (email : string) : list role_row :=
  filter (fun u => id_eq (collation (store w)) (u_email u)
                     (str (String_toLowerCase w email)))
    (user_roles (store w)).

(** The role the role route resolves for an email from the role store. *)
Definition stored_role (w : world) (email : string) : value :=
  match role_rows w email with
  | first :: _ => u_user_role first
  | [] => str "user"
  end.

Definition it_team_role (role : value) : bool :=
  is_string role "it-support" || is_string role "admin".

(** The role-keyed default permission table. *)
Definition default_permissions (role : value) : value :=
  if is_string role "admin" then admin_permissions
  else if is_string role "it-support" then it_support_permissions
  else minimal_permissions.

Definition array_items (v : value) : list value :=
  match v with
  | VArr items => items
  | _ => []
  end.

(** The statements of a run: what [sql_trace] gained. *)
Definition issued (w w' : world) (new : list (statement * option string)) : Prop :=
  sql_trace w' = (sql_trace w ++ new)%list.


Definition is_insert_comment (q : statement) : bool :=
  match q with
  | InsertComment _ _ _ _ _ _ _ => true
  | _ => false
  end.

(** The store answers the next statement (no planned fault). *)
Definition store_answers (w : world) : Prop :=
  match faults w with
  | Some _ :: _ => False
  | _ => True
  end.

Definition timestamps (comments : value) : list Z :=
  flat_map (fun c => match member c "timestamp" with
                     | VNum t => [t]
                     | _ => []
                     end) (array_items comments).

(** The primary key of [requests]: identifiers are distinct under the
    collation. *)
Definition primary_key (d : db) : Prop :=
  NoDup (map (fun r => collation d (r_id r)) (requests d)).

Definition fresh_in (key : string -> string) (r : request_row)
  (acc : list (request_row * list (option comment_row))) : Prop :=
  forall g, In g acc -> key (r_id (fst g)) <> key (r_id r).

(** What a stored role record resolves to as permissions. *)
Definition resolved_permissions (role permissionsData : value) : value :=
  match permissionsData with
  | VStr _ (Some x) => x
  | VStr _ None => default_permissions role
  | VArr _ => permissionsData
  | _ => minimal_permissions
  end.

(** *** Runs of the status update *)

(** The store after [UPDATE requests SET request_status = ?, updated_at = ?
    WHERE id = ?] went through. *)
Definition updated (id : string) (status : value) (now : Z) (d : db) : db :=
  set_requests d
    (map (fun r => if id_eq (collation d) (r_id r) (str id)
                   then set_status status now r else r)
       (requests d)).

Definition update_call (e : event) (updateData status : value) : Prop :=
  JSON_parse (body e) = Ok updateData /\
  get updateData "status" = Ok status /\
  truthy status = true.

(** The request a comment insertion refers to. *)
Definition comment_request (q : statement) : value :=
  match q with
  | InsertComment _ requestId _ _ _ _ _ => requestId
  | _ => VUndef
  end.

(** After a successful update: either no comment was asked for, or one
    was inserted. *)
Definition comment_step (id : string) (d0 : db) (now : Z)
  (updateData status : value) (pre : list (statement * option string))
  (d : db) : Prop :=
  (has_notes (member updateData "notes") = Ok false /\
   pre = [(UpdateStatus status now (str id), None)] /\
   d = updated id status now d0)
  \/
  (has_notes (member updateData "notes") = Ok true /\
   exists I rows,
     is_insert_comment I = true /\
     comment_request I = str id /\
     pre = [(UpdateStatus status now (str id), None); (I, None)] /\
     execute I (updated id status now d0) = (Ok rows, d)).

(** The ways [update_status] runs from a store [d0] at time [now]: its
    result, the store it leaves and the statements it issued. *)
Inductive update_run (id : string) (e : event) (d0 : db) (now : Z)
  : outcome response -> db -> list (statement * option string) -> Prop :=
| run_bad_body m :
    JSON_parse (body e) = Throw m ->
    update_run id e d0 now (Throw m) d0 []
| run_no_data updateData m :
    JSON_parse (body e) = Ok updateData ->
    get updateData "status" = Throw m ->
    update_run id e d0 now (Throw m) d0 []
| run_no_status updateData status :
    JSON_parse (body e) = Ok updateData ->
    get updateData "status" = Ok status ->
    truthy status = false ->
    update_run id e d0 now
      (Ok (json_response 400 [("error", str "Status is required")])) d0 []
| run_update_fails updateData status m :
    update_call e updateData status ->
    update_run id e d0 now (Throw m) d0
      [(UpdateStatus status now (str id), Some m)]
| run_notes_throw updateData status m :
    update_call e updateData status ->
    has_notes (member updateData "notes") = Throw m
    \/ (has_notes (member updateData "notes") = Ok true /\
        ToString status = Throw m) ->
    update_run id e d0 now (Throw m) (updated id status now d0)
      [(UpdateStatus status now (str id), None)]
| run_comment_fails updateData status I m :
    update_call e updateData status ->
    has_notes (member updateData "notes") = Ok true ->
    is_insert_comment I = true ->
    update_run id e d0 now (Throw m) (updated id status now d0)
      [(UpdateStatus status now (str id), None); (I, Some m)]
| run_fetch_fails updateData status pre d m :
    update_call e updateData status ->
    comment_step id d0 now updateData status pre d ->
    update_run id e d0 now (Throw m) d
      (pre ++ [(SelectRequestById (str id), Some m)])%list
| run_not_found updateData status pre d :
    update_call e updateData status ->
    comment_step id d0 now updateData status pre d ->
    select_request_by_id (str id) d = [] ->
    update_run id e d0 now
      (Ok (json_response 404 [("error", str "Request not found")])) d
      (pre ++ [(SelectRequestById (str id), None)])%list
| run_found updateData status pre d row rest :
    update_call e updateData status ->
    comment_step id d0 now updateData status pre d ->
    select_request_by_id (str id) d = row :: rest ->
    update_run id e d0 now
      (Ok (json_response 200
             [ ("message", str "Request status updated successfully");
               ("request", transformed row) ])) d
      (pre ++ [(SelectRequestById (str id), None)])%list.

(** *** Statements and failures of a computation *)




(** A failure response: status 500, a generic label as [error] and the
    message of the error as [message]. *)
Definition failure_response (label m : string) (resp : response) : Prop :=
  statusCode resp = 500 /\
  member (response_body resp) "error" = str label /\
  member (response_body resp) "message" = str m.





(** *** Worlds that differ only in the webhook's behaviour *)

(** The same store, fault plan, statements, clock, random draw, runtime
    and webhook address; the planned outcome of the delivery, what was
    posted and the log may differ. *)
Definition agree (w1 w2 : world) : Prop :=
  store w1 = store w2 /\
  faults w1 = faults w2 /\
  sql_trace w1 = sql_trace w2 /\
  clock w1 = clock w2 /\
  random36 w1 = random36 w2 /\
  String_toLowerCase w1 = String_toLowerCase w2 /\
  POWER_AUTOMATE_WEBHOOK_URL w1 = POWER_AUTOMATE_WEBHOOK_URL w2.

(** A computation whose result and whose effect on the store do not
    depend on the delivery. *)
Definition respects {A} (c : M A) : Prop :=
  forall w1 w2,
    agree w1 w2 ->
    fst (c w1) = fst (c w2) /\ agree (snd (c w1)) (snd (c w2)).

(** *** The properties as the specification words them *)

(** List visibility decided by the caller's role. *)
Definition list_visible_by_role (e : event) (w : world) : Prop :=
  forall resp w' items,
    handler e w = (Ok resp, w') ->
    member (response_body resp) "requests" = VArr items ->
    if it_team_role (stored_role w (caller_email e))
    then forall r, In r (requests (store w)) ->
                   exists item, In item items /\ member item "id" = str (r_id r)
    else forall item, In item items ->
                      sql_eq (collation (store w)) (member item "userId")
                        (str (caller_id e)) = true.



(** A failed comment insertion leaves the update reported as successful. *)
Definition update_reported_despite_comment_failure (e : event) (w : world) : Prop :=
  forall resp w' q m,
    handler e w = (Ok resp, w') ->
    In (q, Some m) (sql_trace w') ->
    is_insert_comment q = true ->
    statusCode resp = 200.

(** Stored permissions that are not a list fall back to the defaults of
    the stored role. *)
Definition not_a_list (permissionsData : value) : Prop :=
  match permissionsData with
  | VArr _ => False
  | VStr _ (Some (VArr _)) => False
  | _ => True
  end.

Definition falls_back_by_role (e : event) (w : world) : Prop :=
  forall resp w' userEmail first rest,
    handler e w = (Ok resp, w') ->
    query_parameter e "email" = Some userEmail ->
    role_rows w userEmail = first :: rest ->
    not_a_list (u_permissions first) ->
    member (member (response_body resp) "user") "permissions"
    = default_permissions (u_user_role first).

(** Embedded comments come in the order of their creation times. *)
Definition comments_by_creation_time (e : event) (w : world) : Prop :=
  forall resp w' items,
    handler e w = (Ok resp, w') ->
    member (response_body resp) "requests" = VArr items ->
    Forall (fun item => Sorted Z.le (timestamps (member item "comments"))) items.


End Spec.

(** ** A small portal, for concrete runs *)

Module Scenario.
Import JS Db Lambda Spec.

Definition alice_report : request_row :=
  {| r_id := "REQ-A1";
     r_user_id := str "alice";
     r_user_info := VObj [("name", str "Alice"); ("email", str "alice@company.net")];
     r_form_data := VObj [("severity", str "high")];
     r_request_type := str "malware";
     r_details := VObj [];
     r_reason := str "Antivirus alert on workstation";
     r_request_status := str "open";
     r_priority_level := str "high";
     r_created_at := 100;
     r_updated_at := 100 |}.

Definition bob_report : request_row :=
  {| r_id := "REQ-B2";
     r_user_id := str "bob";
     r_user_info := VObj [("name", str "Bob"); ("email", str "bob@company.net")];
     r_form_data := VObj [];
     r_request_type := str "other";
     r_details := VObj [];
     r_reason := str "Lost badge";
     r_request_status := str "open";
     r_priority_level := str "medium";
     r_created_at := 200;
     r_updated_at := 200 |}.

(** Two notes on Alice's report; the one scanned first (its identifier
    is also the smaller one) carries the later creation time. *)
Definition late_note : comment_row :=
  {| c_id := "CMT-A";
     c_request_id := "REQ-A1";
     c_user_id := str "admin";
     c_user_name := str "IT Admin";
     c_message := str "Status changed to in-progress. Notes: second look";
     c_is_internal := VNum 0;
     c_created_at := 500 |}.

Definition early_note : comment_row :=
  {| c_id := "CMT-B";
     c_request_id := "REQ-A1";
     c_user_id := str "admin";
     c_user_name := str "IT Admin";
     c_message := str "Status changed to in-progress. Notes: first look";
     c_is_internal := VNum 0;
     c_created_at := 400 |}.

Definition bob_role : role_row :=
  {| u_user_id := "bob";
     u_email := "bob@company.net";
     u_user_role := str "it-support";
     u_permissions := it_support_permissions |}.

(** An administrator whose stored permissions are an object, not a list. *)
Definition carol_role : role_row :=
  {| u_user_id := "carol";
     u_email := "carol@company.net";
     u_user_role := str "admin";
     u_permissions := VObj [("request:view-all", VBool true)] |}.

(** On the small portal the weights are the texts with their ASCII
    letters in lower case (its keys hold nothing else that the collation
    would fold), and the view is cut down to its first column. *)
Definition portal : db :=
  {| collation := toLowerCase;
     stats_view := fun rs => [("total_requests", VNum (Z.of_nat (length rs)))];
     requests := [alice_report; bob_report];
     request_comments := [late_note; early_note];
     user_roles := [bob_role; carol_role] |}.

(** The store reachable, no webhook configured. *)
Definition calm : world :=
  {| store := portal;
     faults := [];
     sql_trace := [];
     console := [];
     clock := 1000;
     random36 := "k3v9x2mq";
     String_toLowerCase := toLowerCase;
     POWER_AUTOMATE_WEBHOOK_URL := VUndef;
     fetch_plan := FetchResponds 202 true (Ok "");
     posted := [] |}.

Definition with_faults (plan : list (option string)) (w : world) : world :=
  {| store := store w; faults := plan; sql_trace := sql_trace w;
     console := console w; clock := clock w; random36 := random36 w;
     String_toLowerCase := String_toLowerCase w;
     POWER_AUTOMATE_WEBHOOK_URL := POWER_AUTOMATE_WEBHOOK_URL w;
     fetch_plan := fetch_plan w; posted := posted w |}.

Definition with_webhook (url : string) (plan : fetch_outcome) (w : world) : world :=
  {| store := store w; faults := faults w; sql_trace := sql_trace w;
     console := console w; clock := clock w; random36 := random36 w;
     String_toLowerCase := String_toLowerCase w;
     POWER_AUTOMATE_WEBHOOK_URL := str url;
     fetch_plan := plan; posted := posted w |}.

Definition call (method path : string) (query : option (list (string * string)))
  (payload : value) : event :=
  {| path := Some path; rawPath := None; httpMethod := Some method;
     http_method := None; http_path := None;
     queryStringParameters := query; body := payload |}.

Definition bob_lists : event :=
  call "GET" "/api/requests"
    (Some [("userId", "bob"); ("userEmail", "bob@company.net")]) VNull.

(** Bob lists without saying who he is. *)
Definition bob_lists_unnamed : event :=
  call "GET" "/api/requests" (Some [("userEmail", "bob@company.net")]) VNull.


Definition carol_asks_role : event :=
  call "GET" "/api/auth/user-role" (Some [("email", "carol@company.net")]) VNull.

Definition dave_asks_role : event :=
  call "GET" "/api/auth/user-role" (Some [("email", "Dave@Company.net")]) VNull.

Definition anonymous_lists : event := call "GET" "/api/requests" None VNull.

Definition resolve_with_notes : value :=
  json_text (VObj [("status", str "resolved"); ("notes", str "Investigated further")]).

Definition resolve_alice : event :=
  call "PUT" "/api/requests/REQ-A1/status" None resolve_with_notes.

Definition resolve_missing : event :=
  call "PUT" "/api/requests/REQ-GONE/status" None resolve_with_notes.

Definition resolve_missing_without_notes : event :=
  call "PUT" "/api/requests/REQ-GONE/status" None
    (json_text (VObj [("status", str "resolved")])).



Definition report (formData : value) : event :=
  call "POST" "/api/requests" None
    (json_text
       (VObj [ ("userId", str "erin");
               ("userInfo", VObj [("name", str "Erin"); ("email", str "erin@company.net")]);
               ("type", str "phishing-email");
               ("reason", str "Suspicious bank email");
               ("formData", formData) ])).

Definition report_inherited_severity : event :=
  report (VObj [("severity", str "constructor")]).

Definition report_numeric_description : event :=
  report (VObj [("severity", str "low"); ("description", VNum 42)]).

(** The webhook configured, the delivery failing. *)
Definition hooked : world :=
  with_webhook "https://flows.company.net/teams" (FetchRejects "fetch failed") calm.

Definition lock_timeout : string :=
  "Lock wait timeout exceeded; try restarting transaction".

Definition missing_table : string :=
  "Table 'SecurityIncidentPortal.requests' doesn't exist".

End Scenario.

(** ** Vocabulary of the further properties *)

Module Laws.
Import JS Db Lambda Spec.

(** The values [JSON.parse] produces: no [undefined] and no inherited
    member anywhere inside. *)
Fixpoint is_json (v : value) : bool :=
  match v with
  | VUndef | VBuiltin _ => false
  | VNull | VBool _ | VNum _ | VStr _ _ => true
  | VArr items => forallb is_json items
  | VObj fields =>
      (fix all (l : list (string * value)) : bool :=
         match l with
         | [] => true
         | (_, x) :: rest => is_json x && all rest
         end) fields
  end.

(** The result of a computation, when it returns one, satisfies [P]. *)
Definition returns {A} (P : A -> Prop) (c : M A) : Prop :=
  forall w a w', c w = (Ok a, w') -> P a.

(** Whatever a computation does to the store stays within [R]. *)
Definition steps_by (R : db -> db -> Prop) {A} (c : M A) : Prop :=
  forall w r w', c w = (r, w') -> R (store w) (store w').

(** Every column of a request row but the status and the time of the
    last update. *)
Definition frozen (r r' : request_row) : Prop :=
  r_id r' = r_id r /\
  r_user_id r' = r_user_id r /\
  r_user_info r' = r_user_info r /\
  r_form_data r' = r_form_data r /\
  r_request_type r' = r_request_type r /\
  r_details r' = r_details r /\
  r_reason r' = r_reason r /\
  r_priority_level r' = r_priority_level r /\
  r_created_at r' = r_created_at r.

(** From one store to a later one: the role records are the same,
    comments were only added at the end, request rows were only added at
    the end and the rows already there kept their frozen columns. *)
Definition evolves (d d' : db) : Prop :=
  user_roles d' = user_roles d /\
  (exists added, request_comments d' = (request_comments d ++ added)%list) /\
  (exists kept added,
     requests d' = (kept ++ added)%list /\ Forall2 frozen (requests d) kept).

(** The keys of the schema: request and comment identifiers are unique
    under the collation and every comment refers to a request of the
    store. *)
Definition sound (d : db) : Prop :=
  NoDup (map (fun r => collation d (r_id r)) (requests d)) /\
  NoDup (map (fun c => collation d (c_id c)) (request_comments d)) /\
  forall c, In c (request_comments d) -> has_request d (c_request_id c) = true.

Fixpoint slash_free (s : string) : bool :=
  match s with
  | EmptyString => true
  | String c rest => negb (c =? "/")%char && slash_free rest
  end.

(** The identifiers the next create and the next status update of a
    world generate. *)
Definition next_request_id (w : world) : string :=
  toUpperCase ("REQ-" ++ toString36 (clock w) ++ "-" ++ substring 0 6 (random36 w)).


(** The row the create route inserts for a request body. *)
Definition new_request_row (w : world) (requestData priority : value)
  : request_row :=
  {| r_id := next_request_id w;
     r_user_id :=
       to_column (or_else (member requestData "userId") (str "test-user-123"));
     r_user_info := member requestData "userInfo";
     r_form_data := or_else (member requestData "formData") (VObj []);
     r_request_type := to_column (member requestData "type");
     r_details := or_else (member requestData "details") (VObj []);
     r_reason := to_column (member requestData "reason");
     r_request_status := str "open";
     r_priority_level := to_column priority;
     r_created_at := clock w;
     r_updated_at := clock w |}.


(** The creation time an item of the list response shows. *)
Definition created_at_of (item : value) : Z :=
  match member item "createdAt" with
  | VNum t => t
  | _ => 0
  end.

Definition status_codes : list Z := [200; 201; 400; 404; 500]%Z.

Definition writes (op : operation) : bool :=
  match op with
  | CreateRequest | UpdateRequestStatus _ => true
  | _ => false
  end.

(** A computation that posts nothing to the webhook, and one that posts
    at most one card. *)
Definition silent {A} (c : M A) : Prop :=
  forall w r w', c w = (r, w') -> posted w' = posted w.

Definition posts_once {A} (c : M A) : Prop :=
  forall w r w', c w = (r, w') ->
    posted w' = posted w \/ exists p, posted w' = (posted w ++ [p])%list.

End Laws.

(** ** Further calls on the small portal *)

Module Cases.
Import JS Db Lambda Spec Scenario Laws.

Definition report_low : event := report (VObj [("severity", str "low")]).

Definition preflight : event := call "OPTIONS" "/api/requests" None VNull.

Definition delete_alice : event := call "DELETE" "/api/requests/REQ-A1" None VNull.

(** An event that names neither a path nor a method. *)
Definition bare : event :=
  {| path := None; rawPath := None; httpMethod := None; http_method := None;
     http_path := None; queryStringParameters := None; body := VNull |}.

Definition notes_only : value := VObj [("notes", str "Looked into it")].

Definition update_without_status : event :=
  call "PUT" "/api/requests/REQ-A1/status" None (json_text notes_only).

Definition role_without_email : event := call "GET" "/api/auth/user-role" None VNull.

Definition test_call : event := call "POST" "/test-teams" None VNull.

Definition stats_call : event := call "GET" "/api/requests/stats" None VNull.

Definition erin_card : value :=
  VObj [ ("requestId", str "REQ-E5");
         ("userInfo", VObj [("name", str "Erin"); ("email", str "erin@company.net")]);
         ("formData", VObj [("severity", str "low")]);
         ("severity", str "low");
         ("type", str "phishing-email");
         ("reason", str "Suspicious bank email") ].

(** The status update addressed to the request the next create of
    [calm] makes. *)
Definition resolve_created : event :=
  call "PUT" ("/api/requests/" ++ next_request_id calm ++ "/status") None
    resolve_with_notes.

(** The webhook configured, the delivery accepted. *)
Definition delivered : world :=
  with_webhook "https://flows.company.net/teams" (FetchResponds 202 true (Ok "")) calm.

Definition urgent_report : value :=
  VObj [("formData", VObj [("severity", str "urgent")])].

(** What a call answers, and the world it leaves. *)
Definition answer (e : event) (w : world) : response :=
  match fst (handler e w) with
  | Ok resp => resp
  | Throw _ => json_response 0 []
  end.

Definition after (e : event) (w : world) : world := snd (handler e w).

End Cases.

(** * Properties *)

Import JS Db Lambda Spec Scenario.
Local Open Scope list_scope.

(** ** Running the handler: the driver, parsing and the list route *)

Lemma driver_with_console q w c : driver q (with_console w c) = driver q w.
Proof. reflexivity. Qed.

Lemma executeQuery_run q w :
  exists c,
    executeQuery q w =
    (fst (driver q w),
     with_console (with_query w (snd (driver q w)) q (failure_of (fst (driver q w)))) c).
Proof.
  unfold executeQuery, try_catch, bind, connection_execute, console_log,
    console_error, throw, ret.
  rewrite driver_with_console.
  destruct (driver q w) as [[r | m] d]; cbn; eexists; reflexivity.
Qed.

Lemma parseJSON_run v w :
  exists c, parseJSON v w = (Ok (parsed_or_null v), with_console w c).
Proof.
  unfold parseJSON, parsed_or_null.
  destruct (truthy v) eqn:T; cbn.
  - destruct v; cbn; try (exists (console w); destruct w; reflexivity).
    destruct parsed; cbn; unfold try_catch, lift, bind, console_warn, ret; cbn.
    + exists (console w); destruct w; reflexivity.
    + eexists; reflexivity.
  - exists (console w); destruct w; reflexivity.
Qed.

Lemma comments_of_run agg w :
  (exists items, agg = VArr items) ->
  exists c, comments_of agg w =
            (Ok (match agg with VArr items => VArr (filter not_null items) | _ => VArr [] end),
             with_console w c).
Proof.
  intros [items ->]. unfold comments_of.
  change (truthy (VArr items)) with true. cbv iota.
  unfold bind. destruct (parseJSON_run (VArr items) w) as [c Hc]. rewrite Hc.
  cbn. eexists; reflexivity.
Qed.

Lemma transform_run row w :
  (exists items, snd row = VArr items) ->
  exists c, transform row w = (Ok (transformed row), with_console w c).
Proof.
  destruct row as [r agg]. cbn [snd]. intros Hagg.
  unfold transform, transformed, shape, bind. cbn [fst snd].
  destruct (parseJSON_run (r_user_info r) w) as [c1 H1]. rewrite H1.
  destruct (parseJSON_run (r_form_data r) (with_console w c1)) as [c2 H2]. rewrite H2.
  destruct (parseJSON_run (r_details r) (with_console (with_console w c1) c2)) as [c3 H3].
  rewrite H3.
  edestruct (comments_of_run agg) as [c4 H4]; [exact Hagg|]. rewrite H4.
  edestruct (parseJSON_run (r_form_data r)) as [c5 H5]. rewrite H5.
  cbn. eexists; reflexivity.
Qed.

Lemma mapM_transform_run rows w :
  Forall (fun row => exists items, snd row = VArr items) rows ->
  exists c, mapM transform rows w = (Ok (map transformed rows), with_console w c).
Proof.
  intros H. revert w. induction H as [| row rows Hrow _ IH]; intros w.
  - exists (console w). destruct w; reflexivity.
  - cbn [mapM map]. unfold bind.
    destruct (transform_run row w Hrow) as [c1 H1]. rewrite H1.
    destruct (IH (with_console w c1)) as [c2 H2]. rewrite H2.
    cbn. eexists; reflexivity.
Qed.

Lemma insert_desc_Forall (P : request_row * value -> Prop) x l :
  P x -> Forall P l -> Forall P (insert_desc x l).
Proof.
  intros Hx Hl. induction Hl as [| y l Hy Hl IH]; cbn.
  - constructor; [exact Hx | constructor].
  - destruct (r_created_at (fst y) <=? r_created_at (fst x))%Z.
    + constructor; [exact Hx | constructor; assumption].
    + constructor; assumption.
Qed.

Lemma order_by_Forall (P : request_row * value -> Prop) l :
  Forall P l -> Forall P (order_by_created_desc l).
Proof.
  induction 1 as [| x l Hx Hl IH]; cbn.
  - constructor.
  - apply insert_desc_Forall; assumption.
Qed.

Lemma aggregate_arrays key rs cs :
  Forall (fun row => exists items, snd row = VArr items) (aggregate key rs cs).
Proof.
  unfold aggregate. apply Forall_forall. intros row Hin.
  apply in_map_iff in Hin. destruct Hin as [g [<- _]]. cbn. eexists; reflexivity.
Qed.

Lemma select_by_id_arrays id d :
  Forall (fun row => exists items, snd row = VArr items) (select_request_by_id id d).
Proof. apply aggregate_arrays. Qed.

Lemma driver_select_requests owner w :
  store_answers w ->
  match owner with Some (VStr _ _) | None => True | _ => False end ->
  driver (SelectRequests owner) w = (Ok (RequestRows (select_requests owner (store w))), store w).
Proof.
  unfold store_answers, driver. intros Hf Ho.
  destruct owner as [[]|]; try contradiction; cbn;
    destruct (faults w) as [| [m|] rest]; try contradiction; reflexivity.
Qed.

Lemma list_requests_run e w :
  store_answers w ->
  exists c,
    list_requests e w =
    (Ok (json_response 200
           [ ("requests", VArr (map transformed (select_requests (owner_scope e) (store w))));
             ("count", VNum (Z.of_nat (length (select_requests (owner_scope e) (store w))))) ]),
     with_console (with_query w (store w) (SelectRequests (owner_scope e)) None) c).
Proof.
  intros Hf. unfold list_requests, bind.
  fold (caller_id e). fold (caller_email e). fold (owner_scope e).
  destruct (executeQuery_run (SelectRequests (owner_scope e)) w) as [c1 H1].
  rewrite H1.
  rewrite driver_select_requests by
    (try exact Hf; unfold owner_scope; destruct (isITTeamMember _); exact I).
  cbn [fst snd failure_of request_rows].
  edestruct mapM_transform_run as [c2 H2];
    [| rewrite H2].
  - unfold select_requests. apply order_by_Forall, aggregate_arrays.
  - cbn. rewrite length_map. eexists; reflexivity.
Qed.

Lemma NoDup_map_filter {A B} (f : A -> B) (p : A -> bool) l :
  NoDup (map f l) -> NoDup (map f (filter p l)).
Proof.
  induction l as [| x l IH]; cbn; intros H; [constructor|].
  inversion H as [| y l' Hnotin Hnd]; subst.
  destruct (p x); cbn.
  - constructor; [| apply IH; exact Hnd].
    intros Hin. apply Hnotin. apply in_map_iff in Hin. destruct Hin as [z [Hz Hin]].
    apply filter_In in Hin. apply in_map_iff. exists z. split; [exact Hz | apply Hin].
  - apply IH; exact Hnd.
Qed.

Section Grouping.
Variable key : string -> string.

Lemma text_eq_refl a : text_eq key a a = true.
Proof. apply String.eqb_refl. Qed.

Lemma text_eq_true a b : text_eq key a b = true <-> key a = key b.
Proof. apply String.eqb_eq. Qed.

Lemma add_to_group_keeps r c groups g' :
  In g' groups -> exists g, In g (add_to_group key r c groups) /\ fst g = fst g'.
Proof.
  induction groups as [| [r0 cs0] rest IH]; intros Hin; [destruct Hin|].
  cbn. destruct (text_eq key (r_id r) (r_id r0)) eqn:E.
  - destruct Hin as [<- | Hin].
    + eexists; split; [left; reflexivity | reflexivity].
    + exists g'; split; [right; exact Hin | reflexivity].
  - destruct Hin as [<- | Hin].
    + eexists; split; [left; reflexivity | reflexivity].
    + destruct (IH Hin) as [g [Hg Hfst]]. exists g; split; [right; exact Hg | exact Hfst].
Qed.

Lemma add_to_group_adds r c groups :
  exists g, In g (add_to_group key r c groups) /\ key (r_id (fst g)) = key (r_id r).
Proof.
  induction groups as [| [r0 cs0] rest IH]; cbn.
  - eexists; split; [left; reflexivity | reflexivity].
  - destruct (text_eq key (r_id r) (r_id r0)) eqn:E.
    + apply text_eq_true in E. eexists; split; [left; reflexivity | cbn; congruence].
    + destruct IH as [g [Hg Hid]]. exists g; split; [right; exact Hg | exact Hid].
Qed.

Lemma add_to_group_from r c groups g :
  In g (add_to_group key r c groups) ->
  fst g = r \/ exists g', In g' groups /\ fst g = fst g'.
Proof.
  induction groups as [| [r0 cs0] rest IH]; cbn.
  - intros [<- | []]. left; reflexivity.
  - destruct (text_eq key (r_id r) (r_id r0)) eqn:E; intros [<- | Hin].
    + right. eexists; split; [left; reflexivity | reflexivity].
    + right. exists g; split; [right; exact Hin | reflexivity].
    + right. eexists; split; [left; reflexivity | reflexivity].
    + destruct (IH Hin) as [-> | [g' [Hg' Hfst]]]; [left; reflexivity|].
      right. exists g'; split; [right; exact Hg' | exact Hfst].
Qed.

Lemma fold_groups_from joined : forall acc g,
  In g (fold_left (fun groups rc => add_to_group key (fst rc) (snd rc) groups) joined acc) ->
  (exists rc, In rc joined /\ fst g = fst rc) \/ (exists g', In g' acc /\ fst g = fst g').
Proof.
  induction joined as [| rc joined IH]; intros acc g Hin; cbn in Hin.
  - right. exists g; split; [exact Hin | reflexivity].
  - destruct (IH _ _ Hin) as [[rc' [Hrc' Hfst]] | [g' [Hg' Hfst]]].
    + left. exists rc'; split; [right; exact Hrc' | exact Hfst].
    + destruct (add_to_group_from _ _ _ _ Hg') as [Heq | [g'' [Hg'' Hfst']]].
      * left. exists rc; split; [left; reflexivity | congruence].
      * right. exists g''; split; [exact Hg'' | congruence].
Qed.

Lemma fold_groups_keeps joined : forall acc g',
  (exists g0, In g0 acc /\ key (r_id (fst g0)) = g') ->
  exists g,
    In g (fold_left (fun groups rc => add_to_group key (fst rc) (snd rc) groups) joined acc)
    /\ key (r_id (fst g)) = g'.
Proof.
  induction joined as [| rc joined IH]; intros acc id [g0 [Hg0 Hid]]; cbn.
  - exists g0; split; assumption.
  - apply IH. destruct (add_to_group_keeps (fst rc) (snd rc) acc g0 Hg0) as [g [Hg Hfst]].
    exists g; split; [exact Hg | congruence].
Qed.

Lemma fold_groups_covers joined : forall acc rc,
  In rc joined ->
  exists g,
    In g (fold_left (fun groups rc => add_to_group key (fst rc) (snd rc) groups) joined acc)
    /\ key (r_id (fst g)) = key (r_id (fst rc)).
Proof.
  induction joined as [| rc0 joined IH]; intros acc rc Hin; [destruct Hin|].
  cbn. destruct Hin as [-> | Hin].
  - apply fold_groups_keeps. apply add_to_group_adds.
  - apply IH. exact Hin.
Qed.

Lemma left_join_from rs cs rc : In rc (left_join key rs cs) -> In (fst rc) rs.
Proof.
  unfold left_join. intros Hin. apply in_flat_map in Hin.
  destruct Hin as [r [Hr Hin]].
  destruct (filter _ cs) as [| c0 m].
  - destruct Hin as [<- | []]. exact Hr.
  - apply in_map_iff in Hin. destruct Hin as [c [<- _]]. exact Hr.
Qed.

Lemma left_join_covers rs cs r :
  In r rs -> exists rc, In rc (left_join key rs cs) /\ fst rc = r.
Proof.
  intros Hr. unfold left_join.
  destruct (filter (fun c => text_eq key (c_request_id c) (r_id r)) cs) as [| c0 m] eqn:E.
  - exists (r, None). split; [| reflexivity].
    apply in_flat_map. exists r. split; [exact Hr|]. rewrite E. left; reflexivity.
  - exists (r, Some c0). split; [| reflexivity].
    apply in_flat_map. exists r. split; [exact Hr|]. rewrite E. left; reflexivity.
Qed.

Lemma aggregate_from rs cs row : In row (aggregate key rs cs) -> In (fst row) rs.
Proof.
  unfold aggregate, group_by_id. intros Hin. apply in_map_iff in Hin.
  destruct Hin as [g [<- Hg]]. cbn.
  destruct (fold_groups_from _ _ _ Hg) as [[rc [Hrc ->]] | [g' [[] _]]].
  eapply left_join_from; exact Hrc.
Qed.

Lemma aggregate_covers rs cs r :
  In r rs ->
  exists row, In row (aggregate key rs cs) /\ key (r_id (fst row)) = key (r_id r).
Proof.
  intros Hr. destruct (left_join_covers rs cs r Hr) as [rc [Hrc Hfst]].
  destruct (fold_groups_covers (left_join key rs cs) [] rc Hrc) as [g [Hg Hid]].
  exists (fst g, json_arrayagg (snd g)). split.
  - unfold aggregate, group_by_id. apply in_map_iff. exists g; split; [reflexivity | exact Hg].
  - cbn. congruence.
Qed.

Lemma add_to_group_last r c l acc :
  fresh_in key r acc ->
  add_to_group key r c (acc ++ [(r, l)]) = acc ++ [(r, l ++ [c])].
Proof.
  induction acc as [| [r0 cs0] acc IH]; intros Hfresh; cbn.
  - rewrite text_eq_refl. reflexivity.
  - destruct (text_eq key (r_id r) (r_id r0)) eqn:E.
    + apply text_eq_true in E. exfalso.
      apply (Hfresh (r0, cs0)); [left; reflexivity | cbn; congruence].
    + f_equal. apply IH. intros g Hg. apply Hfresh. right; exact Hg.
Qed.

Lemma add_to_group_new r c acc :
  fresh_in key r acc -> add_to_group key r c acc = acc ++ [(r, [c])].
Proof.
  induction acc as [| [r0 cs0] acc IH]; intros Hfresh; cbn.
  - reflexivity.
  - destruct (text_eq key (r_id r) (r_id r0)) eqn:E.
    + apply text_eq_true in E. exfalso.
      apply (Hfresh (r0, cs0)); [left; reflexivity | cbn; congruence].
    + f_equal. apply IH. intros g Hg. apply Hfresh. right; exact Hg.
Qed.

Lemma fold_block_more r m : forall l acc,
  fresh_in key r acc ->
  fold_left (fun groups rc => add_to_group key (fst rc) (snd rc) groups)
    (map (fun c => (r, Some c)) m) (acc ++ [(r, l)])
  = acc ++ [(r, l ++ map Some m)].
Proof.
  induction m as [| c m IH]; intros l acc Hfresh; cbn.
  - rewrite app_nil_r. reflexivity.
  - rewrite add_to_group_last by exact Hfresh.
    rewrite IH by exact Hfresh. rewrite <- app_assoc. reflexivity.
Qed.

Lemma fold_block r cs acc :
  fresh_in key r acc ->
  fold_left (fun groups rc => add_to_group key (fst rc) (snd rc) groups)
    (match filter (fun c => text_eq key (c_request_id c) (r_id r)) cs with
     | [] => [(r, None)]
     | matching => map (fun c => (r, Some c)) matching
     end) acc
  = acc ++ [(r, joined_comments key cs r)].
Proof.
  intros Hfresh. unfold joined_comments.
  destruct (filter (fun c => text_eq key (c_request_id c) (r_id r)) cs) as [| c0 m].
  - cbn. apply add_to_group_new. exact Hfresh.
  - cbn [map fold_left fst snd]. rewrite add_to_group_new by exact Hfresh.
    rewrite fold_block_more by exact Hfresh. reflexivity.
Qed.

Lemma fold_left_join rs cs : forall acc,
  NoDup (map (fun r => key (r_id r)) rs) ->
  (forall r, In r rs -> fresh_in key r acc) ->
  fold_left (fun groups rc => add_to_group key (fst rc) (snd rc) groups)
    (left_join key rs cs) acc
  = acc ++ map (fun r => (r, joined_comments key cs r)) rs.
Proof.
  induction rs as [| r rs IH]; intros acc Hnd Hfresh.
  - cbn. rewrite app_nil_r. reflexivity.
  - unfold left_join. cbn [flat_map]. fold (left_join key rs cs).
    rewrite fold_left_app. rewrite fold_block by (apply Hfresh; left; reflexivity).
    cbn [map] in Hnd. inversion Hnd as [| x l Hnotin Hnd']; subst.
    rewrite IH.
    + rewrite <- app_assoc. reflexivity.
    + exact Hnd'.
    + intros r' Hr' g Hg. apply in_app_or in Hg. destruct Hg as [Hg | [<- | []]].
      * apply (Hfresh r'); [right; exact Hr' | exact Hg].
      * cbn. intros Heq. apply Hnotin. rewrite Heq.
        apply (in_map (fun r => key (r_id r))). exact Hr'.
Qed.

(** With identifiers that are distinct under the collation (the primary
    key), grouping gives one row per request, in the order of the scan. *)
Lemma aggregate_exact rs cs :
  NoDup (map (fun r => key (r_id r)) rs) ->
  aggregate key rs cs
  = map (fun r => (r, json_arrayagg (joined_comments key cs r))) rs.
Proof.
  intros Hnd. unfold aggregate, group_by_id.
  rewrite fold_left_join; [| exact Hnd | intros r _ g []].
  cbn [app]. rewrite map_map. reflexivity.
Qed.

Lemma filter_not_null_agg cs r :
  filter not_null (array_items (json_arrayagg (joined_comments key cs r)))
  = map json_object (filter (fun c => text_eq key (c_request_id c) (r_id r)) cs).
Proof.
  unfold joined_comments, json_arrayagg. cbn [array_items].
  destruct (filter (fun c => text_eq key (c_request_id c) (r_id r)) cs) as [| c0 m];
    [reflexivity|].
  rewrite map_map. generalize (c0 :: m). intros l.
  induction l as [| c l IH]; cbn; [reflexivity | f_equal; exact IH].
Qed.

Lemma where_owner_NoDup {B} (f : request_row -> B) owner rs :
  NoDup (map f rs) -> NoDup (map f (where_owner key owner rs)).
Proof.
  destruct owner; cbn; [apply NoDup_map_filter | trivial].
Qed.

End Grouping.

Lemma insert_desc_perm x l : Permutation (insert_desc x l) (x :: l).
Proof.
  induction l as [| y l IH]; cbn.
  - apply Permutation_refl.
  - destruct (r_created_at (fst y) <=? r_created_at (fst x))%Z.
    + apply Permutation_refl.
    + eapply perm_trans; [apply perm_skip; exact IH | apply perm_swap].
Qed.

Lemma insert_desc_sorted x l :
  StronglySorted (fun a b => r_created_at (fst b) <= r_created_at (fst a))%Z l ->
  StronglySorted (fun a b => r_created_at (fst b) <= r_created_at (fst a))%Z
    (insert_desc x l).
Proof.
  induction 1 as [| y l Hl IH Hy]; cbn.
  - constructor; constructor.
  - destruct (Z.leb_spec (r_created_at (fst y)) (r_created_at (fst x))) as [Hle | Hlt].
    + constructor; [constructor; assumption|].
      constructor; [exact Hle|].
      rewrite Forall_forall in *. intros z Hz. specialize (Hy z Hz). lia.
    + constructor; [exact IH|].
      apply (Permutation_Forall (Permutation_sym (insert_desc_perm x l))).
      constructor; [lia | exact Hy].
Qed.

(** The list query returns the newest request first. *)
Lemma order_by_created_desc_sorted l :
  StronglySorted (fun a b => r_created_at (fst b) <= r_created_at (fst a))%Z
    (order_by_created_desc l).
Proof.
  induction l as [| x l IH]; cbn.
  - constructor.
  - apply insert_desc_sorted. exact IH.
Qed.

Lemma order_by_perm l : Permutation (order_by_created_desc l) l.
Proof.
  induction l as [| x l IH]; cbn.
  - constructor.
  - eapply perm_trans; [apply insert_desc_perm | apply perm_skip; exact IH].
Qed.

Lemma transformed_agg d r :
  transformed (r, json_arrayagg (joined_comments (collation d) (request_comments d) r))
  = listed d r.
Proof.
  unfold transformed, listed, comments_for. cbn [fst snd].
  f_equal. pose proof (filter_not_null_agg (collation d) (request_comments d) r) as H.
  unfold json_arrayagg in *. cbn [array_items] in H. rewrite H. reflexivity.
Qed.

Lemma select_requests_exact owner d :
  primary_key d ->
  exists rows,
    Permutation rows (where_owner (collation d) owner (requests d)) /\
    map transformed (select_requests owner d) = map (listed d) rows.
Proof.
  intros Hnd. unfold select_requests.
  rewrite aggregate_exact by (apply where_owner_NoDup; exact Hnd).
  pose proof (order_by_perm
                (map (fun r => (r, json_arrayagg
                                     (joined_comments (collation d) (request_comments d) r)))
                   (where_owner (collation d) owner (requests d)))) as Hp.
  apply Permutation_map_inv in Hp. destruct Hp as [rows [Heq Hperm]].
  exists rows. split; [apply Permutation_sym; exact Hperm|].
  rewrite Heq. rewrite map_map. apply map_ext. intros r. apply transformed_agg.
Qed.

Lemma handler_run e w :
  exists c0,
    handler e w =
    match route e (with_console w c0) with
    | (Ok r, w1) => (Ok r, w1)
    | (Throw m, w1) =>
        (Ok (json_response 500
               [ ("error", str "Internal Server Error");
                 ("message", str m);
                 ("timestamp", VNum (clock w1)) ]),
         with_console w1 (console w1 ++ [(ERROR, ("Lambda error: " ++ m)%string)]))
    end.
Proof.
  exists ((console w ++ [(LOG, "Company API Lambda called"%string)])
            ++ [(LOG, "Event:"%string)]).
  unfold handler, bind, try_catch, console_log, console_error, Date_now, ret.
  cbn. destruct (route e _) as [[r | m] w1]; reflexivity.
Qed.

Lemma handler_returns e w : exists resp w', handler e w = (Ok resp, w').
Proof.
  destruct (handler_run e w) as [c0 H]. rewrite H.
  destruct (route e _) as [[r | m] w1]; eauto.
Qed.

Lemma route_list e w :
  dispatch e = ListRequests ->
  exists c, route e w = list_requests e (with_console w c).
Proof.
  intros H. unfold route. rewrite H. unfold bind, console_log. eexists; reflexivity.
Qed.

Lemma handler_list_run e w :
  dispatch e = ListRequests ->
  store_answers w ->
  exists c,
    handler e w =
    (Ok (json_response 200
           [ ("requests", VArr (map transformed (select_requests (owner_scope e) (store w))));
             ("count", VNum (Z.of_nat (length (select_requests (owner_scope e) (store w))))) ]),
     with_console (with_query w (store w) (SelectRequests (owner_scope e)) None) c).
Proof.
  intros Hd Hf. destruct (handler_run e w) as [c0 H0]. rewrite H0.
  destruct (route_list e (with_console w c0) Hd) as [c1 H1]. rewrite H1.
  destruct (list_requests_run e (with_console (with_console w c0) c1)) as [c2 H2];
    [exact Hf|].
  rewrite H2. cbn. eexists; reflexivity.
Qed.

Lemma handler_list_exact e w :
  dispatch e = ListRequests ->
  store_answers w ->
  primary_key (store w) ->
  exists rows c,
    Permutation rows (where_owner (collation (store w)) (owner_scope e) (requests (store w))) /\
    handler e w =
    (Ok (json_response 200
           [ ("requests", VArr (map (listed (store w)) rows));
             ("count", VNum (Z.of_nat (length rows))) ]),
     with_console (with_query w (store w) (SelectRequests (owner_scope e)) None) c).
Proof.
  intros Hd Hf Hpk. destruct (handler_list_run e w Hd Hf) as [c H].
  destruct (select_requests_exact (owner_scope e) (store w) Hpk) as [rows [Hperm Hmap]].
  exists rows, c. split; [exact Hperm|].
  rewrite H, Hmap. do 5 f_equal.
  rewrite <- (length_map transformed), Hmap, length_map. reflexivity.
Qed.

Lemma all_requests_listed d rows r :
  Permutation rows (requests d) -> In r (requests d) ->
  exists item, In item (map (listed d) rows) /\ member item "id" = str (r_id r).
Proof.
  intros Hperm Hr. exists (listed d r). split; [| reflexivity].
  apply in_map. apply (Permutation_in _ (Permutation_sym Hperm)). exact Hr.
Qed.

(** C1 (amended).  On the list operation the caller's visibility is decided
    by the caller's email, not by a stored role: when the store answers,
    the call returns 200 with a list such that, if the (defaulted) email is
    not one of [IT_TEAM_EMAILS] (compared in lower case), every returned
    request has a [user_id] that the store's collation holds equal to the
    caller's (defaulted) [userId] (so not always the same text), and if it
    is one of them, every request of the store is in the list (request
    identifiers being distinct under the collation, the primary key). *)
Theorem list_visibility_by_email e w :
  dispatch e = ListRequests ->
  store_answers w ->
  exists items w',
    handler e w =
    (Ok (json_response 200
           [("requests", VArr items); ("count", VNum (Z.of_nat (length items)))]), w') /\
    (isITTeamMember (caller_email e) = false ->
     forall item, In item items ->
                  sql_eq (collation (store w)) (member item "userId")
                    (str (caller_id e)) = true) /\
    (isITTeamMember (caller_email e) = true ->
     primary_key (store w) ->
     forall r, In r (requests (store w)) ->
               exists item, In item items /\ member item "id" = str (r_id r)).
Proof.
  intros Hd Hf. destruct (handler_list_run e w Hd Hf) as [c H].
  eexists; eexists. split; [rewrite H, length_map; reflexivity|].
  split.
  - intros Hit item Hin. apply in_map_iff in Hin. destruct Hin as [row [<- Hrow]].
    unfold select_requests in Hrow.
    apply (Permutation_in _ (order_by_perm _)) in Hrow.
    apply aggregate_from in Hrow. unfold owner_scope in Hrow. rewrite Hit in Hrow.
    cbn [where_owner] in Hrow. apply filter_In in Hrow. destruct Hrow as [_ Hown].
    exact Hown.
  - intros Hit Hpk r Hr.
    destruct (select_requests_exact (owner_scope e) (store w) Hpk) as [rows [Hperm Hmap]].
    rewrite Hmap. unfold owner_scope in Hperm. rewrite Hit in Hperm.
    exact (all_requests_listed _ _ _ Hperm Hr).
Qed.

Lemma or_default_absent o d : absent o -> or_default o d = d.
Proof. unfold absent, or_default. intros ->. reflexivity. Qed.

Lemma query_parameter_other e name v name' :
  name <> name' ->
  query_parameter (with_parameter e name v) name' = query_parameter e name'.
Proof.
  intros Hne. unfold query_parameter, with_parameter. cbn.
  apply String.eqb_neq in Hne. rewrite String.eqb_sym, Hne.
  destruct (queryStringParameters e); reflexivity.
Qed.

Lemma or_default_given e name v d :
  v <> ""%string -> or_default (query_parameter (with_parameter e name v) name) d = v.
Proof.
  intros Hv. unfold or_default, first_of, query_parameter, with_parameter. cbn.
  rewrite String.eqb_refl. apply String.eqb_neq in Hv. rewrite Hv. reflexivity.
Qed.

(** A list call whose [userId] and [userEmail], after defaulting, are
    those of another list call, runs as that one. *)
Lemma list_requests_by_caller e e' :
  caller_id e' = caller_id e -> caller_email e' = caller_email e ->
  list_requests e' = list_requests e.
Proof.
  unfold list_requests. fold (caller_id e) (caller_email e) (caller_id e') (caller_email e').
  intros -> ->. reflexivity.
Qed.

Lemma handler_with_parameter e name v w :
  dispatch e = ListRequests ->
  caller_id (with_parameter e name v) = caller_id e ->
  caller_email (with_parameter e name v) = caller_email e ->
  handler (with_parameter e name v) w = handler e w.
Proof.
  intros Hd Hid Hemail. unfold handler, route.
  change (dispatch (with_parameter e name v)) with (dispatch e).
  change (request_method (with_parameter e name v)) with (request_method e).
  change (request_path (with_parameter e name v)) with (request_path e).
  rewrite Hd, (list_requests_by_caller e _ Hid Hemail). reflexivity.
Qed.

(** C10.  On the list operation an absent (or empty) [userEmail] stands
    for [john.smith@company.net] and an absent (or empty) [userId] for
    [test-user-123]: the call is answered as the one that gives the
    default explicitly, and a caller outside the IT team who gives no
    [userId] has the list query restricted to [test-user-123].  The
    defaulted email being in [IT_TEAM_EMAILS], a call without [userEmail]
    issues the list query with no owner restriction and, when the store
    answers, receives every request of the store. *)
Theorem default_caller_sees_all e w :
  dispatch e = ListRequests ->
  (absent (query_parameter e "userEmail") ->
   same_answer e (with_parameter e "userEmail" "john.smith@company.net") w) /\
  (absent (query_parameter e "userId") ->
   same_answer e (with_parameter e "userId" "test-user-123") w) /\
  (absent (query_parameter e "userId") ->
   isITTeamMember (caller_email e) = false ->
   store_answers w ->
   issued w (snd (handler e w)) [(SelectRequests (Some (str "test-user-123")), None)]) /\
  (absent (query_parameter e "userEmail") ->
   store_answers w ->
   exists items w',
     handler e w =
     (Ok (json_response 200
            [("requests", VArr items); ("count", VNum (Z.of_nat (length items)))]), w') /\
     issued w w' [(SelectRequests None, None)] /\
     (primary_key (store w) ->
      forall r, In r (requests (store w)) ->
                exists item, In item items /\ member item "id" = str (r_id r))).
Proof.
  intros Hd. split; [| split; [| split]].
  - intros He. unfold same_answer.
    rewrite (handler_with_parameter e "userEmail" "john.smith@company.net" w Hd).
    + repeat split.
    + unfold caller_id. rewrite query_parameter_other by discriminate. reflexivity.
    + unfold caller_email. rewrite or_default_given by discriminate.
      rewrite (or_default_absent _ _ He). reflexivity.
  - intros Hu. unfold same_answer.
    rewrite (handler_with_parameter e "userId" "test-user-123" w Hd).
    + repeat split.
    + unfold caller_id. rewrite or_default_given by discriminate.
      rewrite (or_default_absent _ _ Hu). reflexivity.
    + unfold caller_email. rewrite query_parameter_other by discriminate. reflexivity.
  - intros Hu Hit Hf. destruct (handler_list_run e w Hd Hf) as [c H]. rewrite H.
    unfold owner_scope, caller_id. rewrite Hit, (or_default_absent _ _ Hu). reflexivity.
  - intros He Hf.
    assert (Hemail : caller_email e = "john.smith@company.net"%string)
      by (unfold caller_email; apply or_default_absent; exact He).
    assert (Hscope : owner_scope e = None) by (unfold owner_scope; rewrite Hemail; reflexivity).
    destruct (handler_list_run e w Hd Hf) as [c H]. rewrite Hscope in H.
    eexists; eexists. split; [rewrite H, length_map; reflexivity|].
    split; [reflexivity|].
    intros Hpk r Hr.
    destruct (select_requests_exact None (store w) Hpk) as [rows [Hperm Hmap]].
    rewrite Hmap. exact (all_requests_listed _ _ _ Hperm Hr).
Qed.

(** ** The status update *)

Lemma execute_throw_store q d m d' : execute q d = (Throw m, d') -> d' = d.
Proof.
  destruct q; cbn; intros H; try discriminate.
  - destruct (sql_text id); [| inversion H; reflexivity].
    repeat match type of H with
           | (if ?b then _ else _) = _ => destruct b
           end; inversion H; reflexivity.
  - destruct (_ && _); inversion H; reflexivity.
  - destruct (sql_text id); [| inversion H; reflexivity].
    destruct (sql_text requestId); [| inversion H; reflexivity].
    repeat match type of H with
           | (if ?b then _ else _) = _ => destruct b
           end; inversion H; reflexivity.
Qed.

Lemma driver_throw_store q w m d : driver q w = (Throw m, d) -> d = store w.
Proof.
  unfold driver. intros H.
  repeat match type of H with
         | (if ?b then _ else _) = _ => destruct b; [inversion H; reflexivity|]
         end.
  destruct (faults w) as [| [m0|] rest]; try (inversion H; reflexivity);
    eapply execute_throw_store; exact H.
Qed.

Lemma execute_of_driver q w rows d : driver q w = (Ok rows, d) -> execute q (store w) = (Ok rows, d).
Proof.
  unfold driver. intros H.
  repeat match type of H with
         | (if ?b then _ else _) = _ => destruct b; [discriminate|]
         end.
  destruct (faults w) as [| [m0|] rest]; try discriminate; exact H.
Qed.

Lemma driver_update_ok status now id w rows d :
  driver (UpdateStatus status now (str id)) w = (Ok rows, d) ->
  d = updated id status now (store w).
Proof.
  intros H. apply execute_of_driver in H. cbn in H.
  destruct (_ && _); inversion H. reflexivity.
Qed.

Lemma driver_select_by_id id w r d :
  driver (SelectRequestById id) w = (r, d) ->
  d = store w /\ (forall rows, r = Ok rows -> rows = RequestRows (select_request_by_id id (store w))).
Proof.
  intros H. destruct r as [rows | m].
  - apply execute_of_driver in H. cbn in H. inversion H. split; [reflexivity|].
    intros rows' E. inversion E. reflexivity.
  - apply driver_throw_store in H. split; [exact H | discriminate].
Qed.

Lemma driver_insert_comment_ok i rq u n msg b t w rows d :
  driver (InsertComment i rq u n msg b t) w = (Ok rows, d) ->
  requests d = requests (store w).
Proof.
  intros H. apply execute_of_driver in H. cbn in H.
  destruct (sql_text i); [| discriminate]. destruct (sql_text rq); [| discriminate].
  repeat match type of H with
         | (if ?b then _ else _) = _ => destruct b; [discriminate|]
         end.
  inversion H. reflexivity.
Qed.

Lemma route_update e w id :
  dispatch e = UpdateRequestStatus id ->
  exists c, route e w = update_status id e (with_console w c).
Proof.
  intros H. unfold route. rewrite H. unfold bind, console_log. eexists; reflexivity.
Qed.

Lemma transform_updated_run row w :
  (exists items, snd row = VArr items) ->
  exists c, transform_updated row w = (Ok (transformed row), with_console w c).
Proof.
  destruct row as [r agg]. cbn [snd]. intros Hagg.
  unfold transform_updated, transformed, shape, bind. cbn [fst snd].
  destruct (comments_of_run agg w Hagg) as [c0 H0]. rewrite H0.
  unfold console_log. cbn [with_console console].
  edestruct (parseJSON_run (r_user_info r)) as [c1 H1]. rewrite H1.
  edestruct (parseJSON_run (r_form_data r)) as [c2 H2]. rewrite H2.
  edestruct (parseJSON_run (r_details r)) as [c3 H3]. rewrite H3.
  edestruct (parseJSON_run (r_form_data r)) as [c5 H5]. rewrite H5.
  cbn. eexists; reflexivity.
Qed.

Lemma has_notes_string notes : has_notes notes = Ok true -> exists s p, notes = VStr s p.
Proof.
  unfold has_notes. destruct (truthy notes); [| discriminate].
  destruct notes; try discriminate. intros _. eauto.
Qed.

Ltac simp H :=
  cbv beta iota zeta in H;
  cbn [negb clock random36 with_console with_query fst snd failure_of request_rows] in H.

Ltac next_query H :=
  match type of H with
  | context [executeQuery ?q ?W] =>
      let c := fresh "c" in
      let Hc := fresh "Hc" in
      destruct (executeQuery_run q W) as [c Hc]; rewrite Hc in H; clear Hc;
      rewrite !driver_with_console in H
  end.

Lemma bind_inv {A B} (c : M A) (f : A -> M B) w r w' :
  bind c f w = (r, w') ->
  (exists a w1, c w = (Ok a, w1) /\ f a w1 = (r, w')) \/
  (exists m, c w = (Throw m, w') /\ r = Throw m).
Proof.
  unfold bind. destruct (c w) as [[a | m] w1]; intros H.
  - left. eauto.
  - right. inversion H; subst. eauto.
Qed.

Lemma lift_inv {A} (o : outcome A) w r w' : lift o w = (r, w') -> o = r /\ w' = w.
Proof. unfold lift. intros H. inversion H. split; reflexivity. Qed.

Lemma console_log_inv t w r w' :
  console_log t w = (r, w') ->
  r = Ok tt /\ store w' = store w /\ clock w' = clock w /\
  random36 w' = random36 w /\ sql_trace w' = sql_trace w.
Proof. unfold console_log. intros H. inversion H. repeat split. Qed.

Lemma Date_now_inv w r w' : Date_now w = (r, w') -> r = Ok (clock w) /\ w' = w.
Proof. unfold Date_now. intros H. inversion H. split; reflexivity. Qed.

Lemma generateCommentId_inv w r w' :
  generateCommentId w = (r, w') ->
  r = Ok (toUpperCase ("CMT-" ++ toString36 (clock w) ++ "-"
                       ++ substring 0 6 (random36 w))%string) /\ w' = w.
Proof. intros H. inversion H. split; reflexivity. Qed.

Lemma executeQuery_inv q w r w' :
  executeQuery q w = (r, w') ->
  driver q w = (r, store w') /\ clock w' = clock w /\ random36 w' = random36 w /\
  sql_trace w' = sql_trace w ++ [(q, failure_of r)].
Proof.
  intros H. destruct (executeQuery_run q w) as [c Hc]. rewrite Hc in H.
  destruct (driver q w) as [r0 d]. cbn [fst snd] in H. inversion H; subst.
  repeat split.
Qed.

Lemma transform_updated_inv row w r w' :
  (exists items, snd row = VArr items) ->
  transform_updated row w = (r, w') ->
  r = Ok (transformed row) /\ store w' = store w /\ sql_trace w' = sql_trace w.
Proof.
  intros Hagg H. destruct (transform_updated_run row w Hagg) as [c Hc].
  rewrite Hc in H. inversion H. repeat split.
Qed.

(** The re-fetch of the request and the answer, from the world [w] the
    comment step left. *)
Lemma refetch_run id (w : world) r w' :
  (rows <- executeQuery (SelectRequestById (str id)) ;;
   match request_rows rows with
   | [] => ret (json_response 404 [("error", str "Request not found")])
   | updatedRequest :: _ =>
       transformedRequest <- transform_updated updatedRequest ;;
       console_log "Returning transformed request with comments:" ;;
       ret (json_response 200
              [ ("message", str "Request status updated successfully");
                ("request", transformedRequest) ])
   end) w = (r, w') ->
  store w' = store w /\
  ((exists m, r = Throw m /\
              sql_trace w' = sql_trace w ++ [(SelectRequestById (str id), Some m)]) \/
   (sql_trace w' = sql_trace w ++ [(SelectRequestById (str id), None)] /\
    ((select_request_by_id (str id) (store w) = [] /\
      r = Ok (json_response 404 [("error", str "Request not found")])) \/
     (exists row rest,
        select_request_by_id (str id) (store w) = row :: rest /\
        r = Ok (json_response 200
                  [ ("message", str "Request status updated successfully");
                    ("request", transformed row) ]))))).
Proof.
  intros H. apply bind_inv in H. destruct H as [(rows & w1 & H1 & H) | (m & H1 & ->)].
  - apply executeQuery_inv in H1. destruct H1 as (Hdrv & _ & _ & Htr).
    apply driver_select_by_id in Hdrv. destruct Hdrv as [Hst Hrows].
    specialize (Hrows rows eq_refl). subst rows. cbn [request_rows failure_of] in H, Htr.
    destruct (select_request_by_id (str id) (store w)) as [| row rest] eqn:Hsel.
    + inversion H; subst. split; [exact Hst|]. right. split; [exact Htr|]. left.
      split; reflexivity.
    + assert (Harr : exists items, snd row = VArr items).
      { pose proof (select_by_id_arrays (str id) (store w)) as Harr.
        rewrite Hsel in Harr. inversion Harr; assumption. }
      apply bind_inv in H. destruct H as [(t & w2 & H2 & H) | (m & H2 & ->)];
        apply (transform_updated_inv _ _ _ _ Harr) in H2;
        destruct H2 as (Ht & Hs2 & Htr2); [| discriminate].
      inversion Ht; subst t.
      apply bind_inv in H. destruct H as [(u & w3 & H3 & H) | (m & H3 & ->)];
        apply console_log_inv in H3; destruct H3 as (Hu & Hs3 & _ & _ & Htr3);
        [| discriminate].
      inversion H; subst. split; [congruence|]. right. split; [congruence|]. right.
      exists row, rest. split; reflexivity.
  - apply executeQuery_inv in H1. destruct H1 as (Hdrv & _ & _ & Htr).
    apply driver_throw_store in Hdrv. split; [exact Hdrv|]. left. exists m.
    split; [reflexivity | exact Htr].
Qed.

(** The comment step, from the world [w] the status update left. *)
Lemma comment_branch_run id updateData status now (w : world) r w' :
  clock w = now ->
  has_notes (member updateData "notes") = Ok true ->
  (console_log "Adding investigation notes as comment:" ;;
   commentId <- generateCommentId ;;
   statusText <- lift (ToString status) ;;
   notesText <- lift (ToString (member updateData "notes")) ;;
   console_log "Inserting comment with params:" ;;
   executeQuery
     (InsertComment (str commentId) (str id)
        (or_else (member updateData "updatedBy") (str "admin"))
        (str "IT Admin")
        (str ("Status changed to " ++ statusText ++ ". Notes: " ++ notesText)%string)
        (or_else (member updateData "isInternal") (VBool false))
        now) ;;
   console_log "Comment inserted successfully") w = (r, w') ->
  (exists m, r = Throw m /\ ToString status = Throw m /\
             store w' = store w /\ sql_trace w' = sql_trace w) \/
  (exists I,
     is_insert_comment I = true /\ comment_request I = str id /\
     ((exists m, r = Throw m /\ store w' = store w /\
                 sql_trace w' = sql_trace w ++ [(I, Some m)]) \/
      (exists rows, r = Ok tt /\ execute I (store w) = (Ok rows, store w') /\
                    sql_trace w' = sql_trace w ++ [(I, None)]))).
Proof.
  intros Hnow Hnotes H.
  apply bind_inv in H. destruct H as [(u0 & w0 & H0 & H) | (m & H0 & ->)];
    apply console_log_inv in H0; destruct H0 as (Hu0 & Hs0 & Hc0 & Hr0 & Ht0);
    [| discriminate].
  apply bind_inv in H. destruct H as [(commentId & w1 & H1 & H) | (m & H1 & ->)];
    apply generateCommentId_inv in H1; destruct H1 as [Hid ->]; [| discriminate].
  apply bind_inv in H. destruct H as [(statusText & w2 & H2 & H) | (m & H2 & ->)];
    apply lift_inv in H2; destruct H2 as [Hst ->].
  2:{ left. exists m. repeat split; auto. }
  apply bind_inv in H. destruct H as [(notesText & w3 & H3 & H) | (m & H3 & ->)];
    apply lift_inv in H3; destruct H3 as [Hnt ->].
  2:{ destruct (has_notes_string _ Hnotes) as [s [p Hs]]. rewrite Hs in Hnt.
      discriminate. }
  apply bind_inv in H. destruct H as [(u4 & w4 & H4 & H) | (m & H4 & ->)];
    apply console_log_inv in H4; destruct H4 as (Hu4 & Hs4 & Hc4 & Hr4 & Ht4);
    [| discriminate].
  right. eexists. split; [| split].
  3:{ apply bind_inv in H. destruct H as [(rows & w5 & H5 & H) | (m & H5 & ->)];
        apply executeQuery_inv in H5; destruct H5 as (Hdrv & _ & _ & Htr).
      - right. apply console_log_inv in H. destruct H as (-> & Hs6 & _ & _ & Ht6).
        exists rows. split; [reflexivity|]. split.
        + apply execute_of_driver in Hdrv. rewrite Hs6. rewrite <- Hs0, <- Hs4. exact Hdrv.
        + rewrite Ht6, Htr, Ht4, Ht0. reflexivity.
      - left. exists m. split; [reflexivity|]. apply driver_throw_store in Hdrv.
        split; [congruence|]. rewrite Htr, Ht4, Ht0. reflexivity. }
  - reflexivity.
  - reflexivity.
Qed.

Lemma update_status_run id e w r w' :
  update_status id e w = (r, w') ->
  exists new, issued w w' new /\ update_run id e (store w) (clock w) r (store w') new.
Proof.
  intros H. unfold update_status in H. unfold issued.
  apply bind_inv in H. destruct H as [(updateData & w0 & H0 & H) | (m & H0 & ->)];
    apply lift_inv in H0; destruct H0 as [Hparse ->].
  2:{ exists []. rewrite app_nil_r. split; [reflexivity|]. apply run_bad_body. auto. }
  apply bind_inv in H. destruct H as [(u1 & w1 & H1 & H) | (m & H1 & ->)];
    apply console_log_inv in H1; destruct H1 as (Hu1 & Hs1 & Hc1 & Hr1 & Ht1);
    [| discriminate].
  apply bind_inv in H. destruct H as [(status & w2 & H2 & H) | (m & H2 & ->)];
    apply lift_inv in H2; destruct H2 as [Hstatus ->].
  2:{ exists []. rewrite app_nil_r, Hs1, Ht1. split; [reflexivity|].
      eapply run_no_data; eauto. }
  destruct (truthy status) eqn:Htruthy; cbn [negb] in H.
  2:{ inversion H; subst. exists []. rewrite app_nil_r, Hs1, Ht1. split; [reflexivity|].
      eapply run_no_status; eauto. }
  assert (Hcall : update_call e updateData status) by (repeat split; auto).
  apply bind_inv in H. destruct H as [(now & w3 & H3 & H) | (m & H3 & ->)];
    apply Date_now_inv in H3; destruct H3 as [Hnow ->]; [| discriminate].
  inversion Hnow; subst now. clear Hnow. rewrite Hc1 in H.
  apply bind_inv in H. destruct H as [(rows1 & w4 & H4 & H) | (m & H4 & ->)];
    apply executeQuery_inv in H4; destruct H4 as (Hdrv & Hc4 & Hr4 & Ht4);
    cbn [failure_of] in Ht4.
  2:{ apply driver_throw_store in Hdrv. eexists. rewrite Ht4, Ht1, Hdrv, Hs1.
      split; [reflexivity|]. eapply run_update_fails; eauto. }
  apply driver_update_ok in Hdrv. rewrite Hs1 in Hdrv.
  apply bind_inv in H. destruct H as [(withNotes & w5 & H5 & H) | (m & H5 & ->)];
    apply lift_inv in H5; destruct H5 as [Hnotes ->].
  2:{ eexists. rewrite Ht4, Ht1, Hdrv. split; [reflexivity|].
      eapply run_notes_throw; eauto. }
  apply bind_inv in H. destruct H as [(u6 & w6 & H6 & H) | (m & H6 & ->)].
  - (* the comment step went through *)
    assert (Hstep : exists pre,
               sql_trace w6 = sql_trace w ++ pre /\
               comment_step id (store w) (clock w) updateData status pre (store w6)).
    { destruct withNotes.
      - apply comment_branch_run in H6; [| congruence | exact Hnotes].
        destruct H6 as [(m & Hr & _) | (I & HI & Hreq & [(m & Hr & _) | (rows & _ & Hex & Htr)])];
          try discriminate.
        eexists. split; [rewrite Htr, Ht4, Ht1, <- app_assoc; reflexivity|].
        right. split; [exact Hnotes|]. exists I, rows.
        split; [exact HI|]. split; [exact Hreq|]. split; [reflexivity|].
        rewrite <- Hdrv. exact Hex.
      - apply console_log_inv in H6. destruct H6 as (_ & Hs6 & _ & _ & Ht6).
        eexists. split; [rewrite Ht6, Ht4, Ht1; reflexivity|].
        left. split; [exact Hnotes|]. split; [reflexivity|]. congruence. }
    destruct Hstep as (pre & Hpre & Hstep).
    apply refetch_run in H.
    destruct H as [Hs [(m & -> & Htr) | [Htr [[Hsel ->] | (row & rest & Hsel & ->)]]]];
      eexists; (split; [rewrite Htr, Hpre, <- app_assoc; reflexivity|]); rewrite Hs.
    + eapply run_fetch_fails; eauto.
    + eapply run_not_found; eauto.
    + eapply run_found; eauto.
  - (* the comment step threw *)
    destruct withNotes.
    + apply comment_branch_run in H6; [| congruence | exact Hnotes].
      destruct H6 as [(m' & Hr & Hst & Hs6 & Ht6)
                     | (I & HI & Hreq & [(m' & Hr & Hs6 & Ht6) | (rows & Hr & _)])];
        try discriminate; inversion Hr; subst m'.
      * eexists. rewrite Ht6, Ht4, Ht1, Hs6, Hdrv. split; [reflexivity|].
        eapply run_notes_throw; eauto.
      * eexists. rewrite Ht6, Ht4, Ht1, Hs6, Hdrv, <- app_assoc. split; [reflexivity|].
        eapply run_comment_fails; eauto.
    + apply console_log_inv in H6. destruct H6 as (Hr & _). discriminate.
Qed.

Lemma handler_update_run id e w resp w' :
  dispatch e = UpdateRequestStatus id ->
  handler e w = (Ok resp, w') ->
  exists new r,
    issued w w' new /\
    update_run id e (store w) (clock w) r (store w') new /\
    (r = Ok resp \/
     exists m, r = Throw m /\ failure_response "Internal Server Error" m resp).
Proof.
  intros Hd H. destruct (handler_run e w) as [c0 H0]. rewrite H0 in H. clear H0.
  destruct (route_update e (with_console w c0) id Hd) as [c1 H1]. rewrite H1 in H. clear H1.
  destruct (update_status id e (with_console (with_console w c0) c1)) as [r w1] eqn:Hrun.
  apply update_status_run in Hrun. destruct Hrun as [new [Hnew Hrun]].
  cbn [store clock with_console] in Hrun. unfold issued in Hnew.
  cbn [sql_trace with_console] in Hnew.
  exists new, r. destruct r as [resp1 | m]; inversion H; subst.
  - repeat split; [exact Hnew | exact Hrun | left; reflexivity].
  - repeat split; [exact Hnew | exact Hrun |].
    right. exists m. repeat split.
Qed.

Lemma in_two {A} (x a b : A) : In x [a; b] -> x = a \/ x = b.
Proof. intros [<- | [<- | []]]; auto. Qed.

Lemma comment_step_inserts id d0 now updateData status pre d q failure :
  comment_step id d0 now updateData status pre d ->
  In (q, failure) pre -> is_insert_comment q = true ->
  failure = None /\ pre = [(UpdateStatus status now (str id), None); (q, None)] /\
  has_notes (member updateData "notes") = Ok true.
Proof.
  intros [[_ [-> _]] | [Hnotes [I [rows [HI [_ [-> _]]]]]]] Hin Hq.
  - destruct Hin as [E | []]. inversion E; subst. discriminate.
  - apply in_two in Hin. destruct Hin as [E | E]; inversion E; subst.
    + discriminate.
    + repeat split. exact Hnotes.
Qed.

Ltac after_comment_step Hin Hq :=
  apply in_app_or in Hin;
  destruct Hin as [Hin | [E | []]]; [| inversion E; subst; discriminate];
  match goal with
  | Hs : comment_step _ _ _ ?updateData ?status _ _, Hc : update_call _ _ _ |- _ =>
      destruct (comment_step_inserts _ _ _ _ _ _ _ _ _ Hs Hin Hq) as [-> [-> Hnotes]];
      exists updateData, status;
      split; [exact Hc|]; split; [exact Hnotes|]; split; [reflexivity|];
      intros ? Hm; discriminate Hm
  end.

(** C5 (amended).  In every execution of the status update, a comment
    insertion is issued only when the notes are a non-blank string, and
    only as the statement right after a status update that succeeded.
    When the comment insertion fails, nothing is rolled back (the store
    is the one the update left) and the operation answers 500 with the
    message of the comment failure: the update is not reported as
    successful. *)
Theorem comment_only_after_update id e w resp w' :
  dispatch e = UpdateRequestStatus id ->
  handler e w = (Ok resp, w') ->
  exists new,
    issued w w' new /\
    forall q failure,
      In (q, failure) new -> is_insert_comment q = true ->
      exists updateData status,
        update_call e updateData status /\
        has_notes (member updateData "notes") = Ok true /\
        firstn 2 new = [(UpdateStatus status (clock w) (str id), None); (q, failure)] /\
        forall m, failure = Some m ->
                  new = [(UpdateStatus status (clock w) (str id), None); (q, Some m)] /\
                  store w' = updated id status (clock w) (store w) /\
                  statusCode resp = 500 /\
                  member (response_body resp) "message" = str m.
Proof.
  intros Hd H. destruct (handler_update_run id e w resp w' Hd H) as [new [r [Hnew [Hrun Hr]]]].
  exists new. split; [exact Hnew|]. intros q failure Hin Hq.
  inversion Hrun; subst; try (destruct Hin; fail).
  - (* the update failed *)
    destruct Hin as [E | []]. inversion E; subst. discriminate.
  - (* reading the notes threw *)
    destruct Hin as [E | []]. inversion E; subst. discriminate.
  - (* the comment insertion failed *)
    apply in_two in Hin. destruct Hin as [E | E]; inversion E; subst; [discriminate|].
    exists updateData, status. repeat (split; [assumption || reflexivity|]).
    intros m0 Hm. inversion Hm; subst.
    destruct Hr as [Hr | [m1 [Hr [Hcode [_ Hmsg]]]]]; [discriminate|].
    inversion Hr; subst. repeat split; assumption.
  - after_comment_step Hin Hq.
  - after_comment_step Hin Hq.
  - after_comment_step Hin Hq.
Qed.

Lemma has_request_updated id status now d id' :
  has_request (updated id status now d) id' = has_request d id'.
Proof.
  unfold has_request, updated. cbn [requests set_requests collation].
  induction (requests d) as [| r rs IH]; cbn [map existsb]; [reflexivity|].
  rewrite IH. destruct (id_eq (collation d) (r_id r) (str id)); reflexivity.
Qed.

Lemma insert_comment_needs_request I d0 rows d id :
  is_insert_comment I = true ->
  comment_request I = str id ->
  execute I d0 = (Ok rows, d) ->
  has_request d0 id = true.
Proof.
  destruct I; try discriminate. cbn [comment_request]. intros _ -> H. cbn in H.
  destruct (sql_text id0); [| discriminate].
  repeat match type of H with
         | (if ?b then _ else _) = _ => destruct b eqn:?; [discriminate|]
         end.
  match goal with
  | Hfk : negb (has_request d0 id) = false |- _ =>
      apply negb_false_iff in Hfk; exact Hfk
  end.
Qed.

Lemma update_call_unique e updateData status updateData' status' :
  update_call e updateData status -> update_call e updateData' status' ->
  updateData' = updateData /\ status' = status.
Proof.
  intros [Hp [Hg _]] [Hp' [Hg' _]]. rewrite Hp in Hp'. inversion Hp'; subst.
  rewrite Hg in Hg'. inversion Hg'; subst. split; reflexivity.
Qed.

(** X27.  With non-blank notes, a status update on an identifier that
    the store holds equal to none of its requests (under the collation) is
    never answered with 404: the comment insertion is refused first and
    the answer is 500.  No comment is created. *)
Lemma unknown_request_with_notes_is_a_failure id e w resp w' updateData status :
  dispatch e = UpdateRequestStatus id ->
  has_request (store w) id = false ->
  update_call e updateData status ->
  has_notes (member updateData "notes") = Ok true ->
  handler e w = (Ok resp, w') ->
  statusCode resp = 500 /\
  request_comments (store w') = request_comments (store w).
Proof.
  intros Hd Hmissing Hcall Hnotes H.
  destruct (handler_update_run id e w resp w' Hd H) as [new [r [_ [Hrun Hr]]]].
  assert (Hstep : forall ud st pre d,
             update_call e ud st ->
             comment_step id (store w) (clock w) ud st pre d -> False).
  { intros ud st pre d Hc Hs.
    destruct (update_call_unique _ _ _ _ _ Hcall Hc) as [-> ->].
    destruct Hs as [[Hn _] | [_ [I [rows [HI [Hreq [_ Hex]]]]]]].
    - rewrite Hnotes in Hn. discriminate.
    - apply (insert_comment_needs_request _ _ _ _ id HI Hreq) in Hex.
      rewrite has_request_updated, Hmissing in Hex. discriminate. }
  destruct Hcall as [Hparse [Hget Htruthy]].
  inversion Hrun; subst;
    try (exfalso; eapply Hstep; eassumption);
    try (destruct Hr as [Hr | [m' [Hr [Hcode _]]]]; [discriminate|];
         split; [exact Hcode | reflexivity]).
  - (* status missing *)
    match goal with
    | Hp : JSON_parse (body e) = Ok _, Hg : get _ "status" = Ok _,
      Hf : truthy _ = false |- _ =>
        rewrite Hparse in Hp; inversion Hp; subst;
        rewrite Hget in Hg; inversion Hg; subst;
        rewrite Htruthy in Hf; discriminate
    end.
Qed.

(** ** Statements issued and failures surfaced *)







































(** ** Embedded comments *)

Lemma execute_insert_comment_requests I d0 rows d :
  is_insert_comment I = true -> execute I d0 = (Ok rows, d) -> requests d = requests d0.
Proof.
  destruct I; try discriminate. intros _ H. cbn in H.
  destruct (sql_text id); [| discriminate]. destruct (sql_text requestId); [| discriminate].
  repeat match type of H with
         | (if ?b then _ else _) = _ => destruct b; [discriminate|]
         end.
  inversion H. reflexivity.
Qed.

Lemma updated_keys id status now d :
  collation (updated id status now d) = collation d /\
  map r_id (requests (updated id status now d)) = map r_id (requests d).
Proof.
  split; [reflexivity|].
  unfold updated. cbn [requests set_requests]. rewrite map_map. apply map_ext. intros r.
  destruct (id_eq (collation d) (r_id r) (str id)); reflexivity.
Qed.

Lemma execute_insert_comment_collation I d0 rows d :
  is_insert_comment I = true -> execute I d0 = (Ok rows, d) -> collation d = collation d0.
Proof.
  destruct I; try discriminate. intros _ H. cbn in H.
  destruct (sql_text id); [| discriminate]. destruct (sql_text requestId); [| discriminate].
  repeat match type of H with
         | (if ?b then _ else _) = _ => destruct b; [discriminate|]
         end.
  inversion H. reflexivity.
Qed.

Lemma comment_step_keys id d0 now updateData status pre d :
  comment_step id d0 now updateData status pre d ->
  collation d = collation d0 /\ map r_id (requests d) = map r_id (requests d0).
Proof.
  intros [[_ [_ ->]] | [_ [I [rows [HI [_ [_ Hex]]]]]]].
  - apply updated_keys.
  - rewrite (execute_insert_comment_requests _ _ _ _ HI Hex),
      (execute_insert_comment_collation _ _ _ _ HI Hex).
    apply updated_keys.
Qed.

Lemma primary_key_kept d d' :
  collation d' = collation d -> map r_id (requests d') = map r_id (requests d) ->
  primary_key d -> primary_key d'.
Proof.
  unfold primary_key. intros Hc Hids Hpk. rewrite Hc.
  rewrite <- (map_map r_id (collation d)), Hids, map_map. exact Hpk.
Qed.

Lemma select_by_id_exact id d row rest :
  primary_key d ->
  select_request_by_id (str id) d = row :: rest ->
  exists r,
    In r (requests d) /\ text_eq (collation d) (r_id r) id = true /\
    transformed row = listed d r.
Proof.
  intros Hnd H. unfold select_request_by_id in H.
  rewrite aggregate_exact in H by (apply NoDup_map_filter; exact Hnd).
  destruct (filter (fun r => id_eq (collation d) (r_id r) (str id)) (requests d))
    as [| r rs] eqn:E; [discriminate|].
  cbn [map] in H. inversion H; subst. exists r.
  assert (Hin : In r (filter (fun r => id_eq (collation d) (r_id r) (str id)) (requests d)))
    by (rewrite E; left; reflexivity).
  apply filter_In in Hin. destruct Hin as [Hin Hid].
  split; [exact Hin|]. split; [exact Hid | apply transformed_agg].
Qed.

(** C7 (amended).  With request identifiers that are distinct for the
    store (the primary key, under the collation of the table): the list
    operation, when the store answers, returns exactly one item per
    selected request row (a permutation of the rows in scope: none
    dropped, none duplicated), and the status update, when it answers 200,
    returns the re-fetched row, the one whose identifier the store holds
    equal to the one of the path; in both, the [comments] field is an
    array, empty when the request has no comment, holding the request's
    comments in the order in which the store scans the comment table.  No
    ordering by creation time is imposed. *)
Theorem comments_embedded_in_store_order e w :
  primary_key (store w) ->
  (dispatch e = ListRequests -> store_answers w ->
   exists rows w',
     handler e w =
     (Ok (json_response 200
            [ ("requests", VArr (map (listed (store w)) rows));
              ("count", VNum (Z.of_nat (length rows))) ]), w') /\
     Permutation rows
       (where_owner (collation (store w)) (owner_scope e) (requests (store w)))) /\
  (forall id resp w',
     dispatch e = UpdateRequestStatus id ->
     handler e w = (Ok resp, w') ->
     statusCode resp = 200 ->
     exists r,
       In r (requests (store w')) /\
       text_eq (collation (store w)) (r_id r) id = true /\
       response_body resp =
       VObj [ ("message", str "Request status updated successfully");
              ("request", listed (store w') r) ]) /\
  (forall d r,
     member (listed d r) "comments" = VArr (map json_object (comments_for d r))).
Proof.
  intros Hnd. split; [| split].
  - intros Hd Hf.
    destruct (handler_list_exact e w Hd Hf Hnd) as [rows [c [Hperm H]]].
    exists rows. eexists. split; [exact H | exact Hperm].
  - intros id resp w' Hd H Hcode.
    destruct (handler_update_run id e w resp w' Hd H) as [new [r [_ [Hrun Hr]]]].
    destruct Hr as [-> | [m [-> [Hfail _]]]]; [| rewrite Hfail in Hcode; discriminate].
    inversion Hrun; subst; try discriminate.
    match goal with
    | Hs : comment_step _ _ _ _ _ _ _, Hsel : select_request_by_id _ _ = _ :: _ |- _ =>
        apply comment_step_keys in Hs; destruct Hs as [Hcol Hids];
        destruct (select_by_id_exact id (store w') _ _
                    (primary_key_kept _ _ Hcol Hids Hnd) Hsel)
          as [r0 [Hin [Hid Htr]]]
    end.
    exists r0. rewrite <- Hcol. repeat split; try assumption. cbn. rewrite Htr. reflexivity.
  - intros d r. reflexivity.
Qed.

(** ** Role resolution and validation *)

Lemma resolve_permissions_run role data w :
  exists c,
    resolve_permissions role data w = (Ok (resolved_permissions role data), with_console w c).
Proof.
  unfold resolve_permissions, resolved_permissions, default_permissions,
    try_catch, bind, lift, console_log, console_error, ret.
  destruct data as [| | b | n | s [x |] | items | fields | name]; cbn;
    try (eexists; reflexivity).
  destruct (is_string role "admin"); [eexists; reflexivity|].
  destruct (is_string role "it-support"); eexists; reflexivity.
Qed.

Lemma driver_select_role email w :
  store_answers w ->
  driver (SelectUserRole (str email)) w
  = (Ok (RoleRows (filter (fun u => id_eq (collation (store w)) (u_email u) (str email))
                     (user_roles (store w)))),
     store w).
Proof.
  unfold store_answers, driver. intros Hf. cbn.
  destruct (faults w) as [| [m|] rest]; try contradiction; reflexivity.
Qed.

Lemma driver_select_role_fails email w m rest :
  faults w = Some m :: rest ->
  driver (SelectUserRole (str email)) w = (Throw m, store w).
Proof. unfold driver. intros Hf. cbn. rewrite Hf. reflexivity. Qed.

Lemma route_user_role e w :
  dispatch e = UserRole ->
  exists c, route e w = user_role e (with_console w c).
Proof.
  intros H. unfold route. rewrite H. unfold bind, console_log. eexists; reflexivity.
Qed.

Lemma user_role_run e w userEmail :
  first_of (query_parameter e "email") None = Some userEmail ->
  store_answers w ->
  exists resp w',
    user_role e w = (Ok resp, w') /\
    statusCode resp = 200 /\
    member (member (response_body resp) "user") "role"
    = stored_role w userEmail /\
    member (member (response_body resp) "user") "permissions"
    = match role_rows w userEmail with
      | first :: _ => resolved_permissions (u_user_role first) (u_permissions first)
      | [] => minimal_permissions
      end.
Proof.
  intros He Hf. unfold stored_role, user_role, try_catch. rewrite He.
  unfold bind at 1. unfold console_log at 1. unfold bind at 1. unfold lowered at 1.
  unfold bind at 1.
  edestruct executeQuery_run as [c1 H1]. rewrite H1. clear H1.
  rewrite driver_with_console, driver_select_role by exact Hf.
  cbn [fst snd failure_of String_toLowerCase with_console]. fold (role_rows w userEmail).
  destruct (role_rows w userEmail) as [| first rest].
  - cbn. eexists; eexists. repeat split.
  - unfold bind at 1. unfold bind at 1. unfold console_log at 1. unfold bind at 1.
    edestruct resolve_permissions_run as [c2 H2]. rewrite H2. clear H2.
    cbn. eexists; eexists. repeat split.
Qed.

Lemma user_role_fails e w userEmail m rest :
  first_of (query_parameter e "email") None = Some userEmail ->
  faults w = Some m :: rest ->
  exists w',
    user_role e w =
    (Ok (json_response 500
           [("error", str "Internal server error"); ("message", str m)]), w') /\
    store w' = store w.
Proof.
  intros He Hf. unfold user_role, try_catch. rewrite He.
  unfold bind at 1. unfold console_log at 1. unfold bind at 1. unfold lowered at 1.
  unfold bind at 1.
  edestruct executeQuery_run as [c1 H1]. rewrite H1. clear H1.
  rewrite driver_with_console, (driver_select_role_fails _ _ m rest) by exact Hf.
  cbn. eexists. split; reflexivity.
Qed.

(** C6 (amended).  The role route always returns a response.  When an
    email is given and the store answers, the status is 200 and the
    record looked up is the first whose email the store holds equal (under
    its collation) to the email lower-cased by the runtime: with no such
    record the role is [user] with the minimal permissions; a stored
    record gives its role, and as permissions: the parsed value when they
    are a string [JSON.parse] accepts (a list or not), the role-keyed
    default table when they are a string it rejects, the stored array when
    they are one, and otherwise (an object, a number, [null]) the minimal
    permissions whatever the role.  When the lookup fails, the answer is
    500 with the label [Internal server error] and the store's message.
    The tables are nested: minimal within it-support within admin. *)
Theorem role_resolution e w :
  dispatch e = UserRole ->
  (exists resp w',
     handler e w = (Ok resp, w') /\
     forall userEmail,
       first_of (query_parameter e "email") None = Some userEmail ->
       (store_answers w ->
        statusCode resp = 200 /\
        member (member (response_body resp) "user") "role"
        = stored_role w userEmail /\
        member (member (response_body resp) "user") "permissions"
        = match role_rows w userEmail with
          | first :: _ => resolved_permissions (u_user_role first) (u_permissions first)
          | [] => minimal_permissions
          end) /\
       (forall m rest,
          faults w = Some m :: rest ->
          resp = json_response 500
                   [("error", str "Internal server error"); ("message", str m)] /\
          store w' = store w)) /\
  (forall role s, resolved_permissions role (VStr s None) = default_permissions role) /\
  (forall role data,
     match data with VStr _ _ | VArr _ => False | _ => True end ->
     resolved_permissions role data = minimal_permissions) /\
  incl (array_items minimal_permissions) (array_items it_support_permissions) /\
  incl (array_items it_support_permissions) (array_items admin_permissions).
Proof.
  intros Hd. split; [| split; [| split; [| split]]].
  - destruct (handler_run e w) as [c0 H0].
    destruct (route_user_role e (with_console w c0) Hd) as [c1 H1].
    destruct (handler_returns e w) as [resp [w' H]].
    exists resp, w'. split; [exact H|]. intros userEmail He.
    rewrite H0, H1 in H. split.
    + intros Hf.
      destruct (user_role_run e (with_console (with_console w c0) c1) userEmail He Hf)
        as [resp1 [w1 [Hrun Hfacts]]].
      rewrite Hrun in H. inversion H; subst. exact Hfacts.
    + intros m rest Hf.
      destruct (user_role_fails e (with_console (with_console w c0) c1) userEmail m rest
                  He Hf) as [w1 [Hrun Hstore]].
      rewrite Hrun in H. inversion H; subst. split; [reflexivity | exact Hstore].
  - reflexivity.
  - intros role data Hdata. destruct data; try contradiction; reflexivity.
  - intros x Hx. cbn in *. tauto.
  - intros x Hx. cbn in *. tauto.
Qed.

Lemma route_create e w :
  dispatch e = CreateRequest ->
  exists c, route e w = create_request e (with_console w c).
Proof.
  intros H. unfold route. rewrite H. unfold bind, console_log. eexists; reflexivity.
Qed.

Lemma get_not_nullish o k : nullish o = false -> get o k = Ok (member o k).
Proof. destruct o; cbn; intros H; try discriminate; reflexivity. Qed.


(** ** Priority derivation, notification, and runs on the small portal *)

Lemma assoc_priority_none s :
  mem s priority_level_values = false ->
  member severityToPriority s = inherited s.
Proof.
  unfold mem, priority_level_values. cbn [existsb]. intros H.
  apply orb_false_iff in H. destruct H as [H1 H].
  apply orb_false_iff in H. destruct H as [H2 H].
  apply orb_false_iff in H. destruct H as [H3 H].
  apply orb_false_iff in H. destruct H as [H4 _].
  unfold member, severityToPriority. cbn [assoc]. rewrite H1, H2, H3, H4. reflexivity.
Qed.

(** X25.  The priority of a new report, for a severity that is a string:
    one of [low], [medium], [high], [critical] is kept; an absent or empty
    severity, and any other string that does not name a member of
    [Object.prototype], gives [medium]. *)
Lemma priority_derivation_on_strings requestData :
  let severity := opt_get (member requestData "formData") "severity" in
  (truthy severity = false -> derive_priority requestData = Ok (str "medium")) /\
  (forall s p, severity = VStr s p -> mem s priority_level_values = true ->
               derive_priority requestData = Ok (str s)) /\
  (forall s p, severity = VStr s p -> mem s priority_level_values = false ->
               mem s object_prototype_names = false ->
               derive_priority requestData = Ok (str "medium")).
Proof.
  cbv zeta. unfold derive_priority. split; [| split].
  - intros ->. reflexivity.
  - intros s p -> Hmem. unfold mem, priority_level_values in Hmem. cbn [existsb] in Hmem.
    repeat (apply orb_true_iff in Hmem; destruct Hmem as [Hmem | Hmem]);
      try discriminate; apply String.eqb_eq in Hmem; subst s; reflexivity.
  - intros s p -> Hmem Hproto.
    destruct (truthy (VStr s p)); [| reflexivity].
    unfold index. cbn [ToString obind]. rewrite assoc_priority_none by exact Hmem.
    unfold inherited. rewrite Hproto. reflexivity.
Qed.

(** C2 (the code at the failing input).  With [formData.severity] set to
    [constructor], the lookup in [severityToPriority] finds the member
    inherited from [Object.prototype]: the derived priority is that
    function, not [medium]; the driver refuses it as a parameter, the
    create operation answers 500 and nothing is persisted. *)
Theorem inherited_severity_not_mapped :
  obind (JSON_parse (body report_inherited_severity)) derive_priority
  = Ok (VBuiltin "constructor") /\
  fst (handler report_inherited_severity calm)
  = Ok (json_response 500
          [ ("error", str "Internal Server Error");
            ("message",
             str "Bind parameters must not contain function(s). To pass the body of a function as a string call .toString() first");
            ("timestamp", VNum 1000) ]) /\
  store (snd (handler report_inherited_severity calm)) = portal.
Proof. repeat split; vm_compute; reflexivity. Qed.

(** C4 (the code at the failing input).  A status update with notes on an
    identifier that is not in the store: the comment insertion is issued
    before the request is looked up, the foreign key rejects it and the
    answer is the generic 500, not 404 (no comment is created).  Without
    notes the same identifier is answered with 404. *)
Theorem missing_request_with_notes_fails :
  has_request portal "REQ-GONE" = false /\
  fst (handler resolve_missing calm)
  = Ok (json_response 500
          [ ("error", str "Internal Server Error");
            ("message",
             str "Cannot add or update a child row: a foreign key constraint fails (request_comments, FOREIGN KEY (request_id) REFERENCES requests (id))");
            ("timestamp", VNum 1000) ]) /\
  request_comments (store (snd (handler resolve_missing calm)))
  = request_comments portal /\
  fst (handler resolve_missing_without_notes calm)
  = Ok (json_response 404 [("error", str "Request not found")]).
Proof. repeat split; vm_compute; reflexivity. Qed.

Lemma agree_refl w : agree w w.
Proof. repeat split. Qed.

Lemma agree_console w1 w2 c1 c2 :
  agree w1 w2 -> agree (with_console w1 c1) (with_console w2 c2).
Proof. intros H. exact H. Qed.

Lemma respects_ret {A} (a : A) : respects (ret a).
Proof. intros w1 w2 H. split; [reflexivity | exact H]. Qed.

Lemma respects_throw {A} m : respects (@throw A m).
Proof. intros w1 w2 H. split; [reflexivity | exact H]. Qed.

Lemma respects_lift {A} (o : outcome A) : respects (lift o).
Proof. intros w1 w2 H. split; [reflexivity | exact H]. Qed.

Lemma respects_console_log t : respects (console_log t).
Proof. intros w1 w2 H. split; [reflexivity | exact H]. Qed.

Lemma respects_console_warn t : respects (console_warn t).
Proof. intros w1 w2 H. split; [reflexivity | exact H]. Qed.

Lemma respects_console_error t : respects (console_error t).
Proof. intros w1 w2 H. split; [reflexivity | exact H]. Qed.

Lemma respects_Date_now : respects Date_now.
Proof.
  intros w1 w2 H. split; [| exact H]. unfold Date_now. cbn.
  destruct H as [_ [_ [_ [Hc _]]]]. rewrite Hc. reflexivity.
Qed.

Lemma respects_lowered s : respects (lowered s).
Proof.
  intros w1 w2 H. split; [| exact H]. unfold lowered. cbn.
  destruct H as [_ [_ [_ [_ [_ [Hl _]]]]]]. rewrite Hl. reflexivity.
Qed.

Lemma respects_random_suffix : respects random_suffix.
Proof.
  intros w1 w2 H. split; [| exact H]. unfold random_suffix. cbn.
  destruct H as [_ [_ [_ [_ [Hr _]]]]]. rewrite Hr. reflexivity.
Qed.

Lemma respects_bind {A B} (c : M A) (f : A -> M B) :
  respects c -> (forall a, respects (f a)) -> respects (bind c f).
Proof.
  intros Hc Hf w1 w2 H. unfold bind.
  destruct (Hc w1 w2 H) as [Hr Hw].
  destruct (c w1) as [[a1 | m1] w1'], (c w2) as [[a2 | m2] w2']; cbn [fst snd] in *;
    inversion Hr; subst.
  - apply Hf. exact Hw.
  - split; [reflexivity | exact Hw].
Qed.

Lemma respects_try_catch {A} (c : M A) (h : string -> M A) :
  respects c -> (forall m, respects (h m)) -> respects (try_catch c h).
Proof.
  intros Hc Hh w1 w2 H. unfold try_catch.
  destruct (Hc w1 w2 H) as [Hr Hw].
  destruct (c w1) as [[a1 | m1] w1'], (c w2) as [[a2 | m2] w2']; cbn [fst snd] in *;
    inversion Hr; subst.
  - split; [reflexivity | exact Hw].
  - apply Hh. exact Hw.
Qed.

Lemma driver_agree q w1 w2 : agree w1 w2 -> driver q w1 = driver q w2.
Proof.
  intros [Hs [Hf _]]. unfold driver. rewrite Hs, Hf. reflexivity.
Qed.

Lemma respects_executeQuery q : respects (executeQuery q).
Proof.
  intros w1 w2 H.
  destruct (executeQuery_run q w1) as [c1 H1], (executeQuery_run q w2) as [c2 H2].
  rewrite H1, H2, (driver_agree q w1 w2 H). cbn [fst snd]. split; [reflexivity|].
  destruct H as [Hs [Hf [Ht [Hc [Hr [Hl Hu]]]]]].
  unfold agree. cbn. rewrite Hf, Ht. repeat split; assumption.
Qed.

(** The notification never throws for a failed delivery: it throws
    exactly when a webhook is configured and building the card throws.
    It leaves the store and the statements alone. *)
Lemma notification_throws_only_while_building reportData w :
  fst (sendTeamsNotification reportData w)
  = (if truthy (POWER_AUTOMATE_WEBHOOK_URL w)
     then match notification_payload reportData with
          | Ok _ => Ok tt
          | Throw m => Throw m
          end
     else Ok tt) /\
  agree w (snd (sendTeamsNotification reportData w)).
Proof.
  unfold sendTeamsNotification, bind, try_catch, lift, console_log, console_error, fetch, ret.
  destruct (truthy (POWER_AUTOMATE_WEBHOOK_URL w)); cbn [negb].
  - destruct (notification_payload reportData) as [payload | m]; cbn.
    + destruct (fetch_plan w) as [m | status ok [text | m]]; cbn;
        try destruct ok; cbn; repeat split.
    + repeat split.
  - cbn. repeat split.
Qed.

Lemma agree_trans w1 w2 w3 : agree w1 w2 -> agree w2 w3 -> agree w1 w3.
Proof.
  unfold agree. intros [A1 [A2 [A3 [A4 [A5 [A6 A7]]]]]] [B1 [B2 [B3 [B4 [B5 [B6 B7]]]]]].
  repeat split; congruence.
Qed.

Lemma agree_sym w1 w2 : agree w1 w2 -> agree w2 w1.
Proof.
  unfold agree. intros [A1 [A2 [A3 [A4 [A5 [A6 A7]]]]]]. repeat split; congruence.
Qed.

Lemma respects_sendTeamsNotification reportData :
  respects (sendTeamsNotification reportData).
Proof.
  intros w1 w2 H.
  destruct (notification_throws_only_while_building reportData w1) as [R1 A1].
  destruct (notification_throws_only_while_building reportData w2) as [R2 A2].
  split.
  - rewrite R1, R2. destruct H as [_ [_ [_ [_ [_ [_ Hu]]]]]]. rewrite Hu. reflexivity.
  - eapply agree_trans; [apply agree_sym; exact A1|].
    eapply agree_trans; [exact H | exact A2].
Qed.

Lemma respects_mapM {A B} (f : A -> M B) l : (forall a, respects (f a)) -> respects (mapM f l).
Proof.
  intros Hf. induction l as [| x l IH]; cbn [mapM].
  - apply respects_ret.
  - apply respects_bind; [apply Hf | intros y].
    apply respects_bind; [exact IH | intros ys; apply respects_ret].
Qed.

Ltac respects_step :=
  first
    [ apply respects_executeQuery
    | apply respects_sendTeamsNotification
    | apply respects_mapM; intros ?
    | apply respects_bind; [| intros ?]
    | apply respects_try_catch; [| intros ?]
    | apply respects_ret
    | apply respects_throw
    | apply respects_lift
    | apply respects_console_log
    | apply respects_console_warn
    | apply respects_console_error
    | apply respects_Date_now
    | apply respects_lowered
    | apply respects_random_suffix
    | match goal with
      | |- respects (if ?b then _ else _) => destruct b
      | |- respects (match ?x with _ => _ end) => destruct x
      | |- respects (let (_, _) := ?x in _) => destruct x
      end ].

Lemma respects_handler e : respects (handler e).
Proof.
  unfold handler, route, test_teams, user_role, resolve_permissions, list_requests,
    transform, create_request, request_statistics, update_status, transform_updated,
    comments_of, parseJSON, generateRequestId, generateCommentId.
  repeat respects_step.
Qed.

(** X26.  What the delivery to the webhook does (the planned outcome of
    [fetch], what was posted before, the log) changes neither the response
    of a call nor the store it leaves. *)
Lemma delivery_never_changes_the_answer e w1 w2 :
  agree w1 w2 ->
  fst (handler e w1) = fst (handler e w2) /\
  store (snd (handler e w1)) = store (snd (handler e w2)).
Proof.
  intros H. destruct (respects_handler e w1 w2 H) as [Hr Hw].
  split; [exact Hr | apply Hw].
Qed.

(** C8 (the code at the failing input).  The same valid report, whose
    [formData.description] is a number: without a webhook the create
    operation answers 201; with a webhook configured, building the card
    throws before the [try] block of [sendTeamsNotification] is entered,
    and the create operation answers 500 although the row was inserted
    (nothing was posted). *)
Theorem notification_failure_reaches_caller :
  fst (handler report_numeric_description calm)
  = Ok (json_response 201
          [ ("message", str "Security report created successfully");
            ("request",
             VObj [ ("id", str "REQ-RS-K3V9X2");
                    ("userId", str "erin");
                    ("userInfo",
                     VObj [("name", str "Erin"); ("email", str "erin@company.net")]);
                    ("formData",
                     VObj [("severity", str "low"); ("description", VNum 42)]);
                    ("type", str "phishing-email");
                    ("details", VUndef);
                    ("reason", str "Suspicious bank email");
                    ("status", str "open");
                    ("priority", str "low");
                    ("createdAt", VNum 1000);
                    ("isSecurityIncident", VBool true) ]) ]) /\
  fst (handler report_numeric_description hooked)
  = Ok (json_response 500
          [ ("error", str "Internal Server Error");
            ("message", str "substring is not a function");
            ("timestamp", VNum 1000) ]) /\
  map r_id (requests (store (snd (handler report_numeric_description hooked))))
  = ["REQ-A1"; "REQ-B2"; "REQ-RS-K3V9X2"] /\
  posted (snd (handler report_numeric_description hooked)) = [].
Proof. repeat split; vm_compute; reflexivity. Qed.

(** The response and the statements of a concrete call, by evaluation. *)
Ltac run e w resp w' E Et :=
  destruct (handler_returns e w) as [resp [w' E]];
  let Er := fresh "Er" in
  assert (Er : fst (handler e w) = Ok resp) by (rewrite E; reflexivity);
  assert (Et : sql_trace (snd (handler e w)) = sql_trace w') by (rewrite E; reflexivity);
  vm_compute in Er;
  match type of Et with
  | ?l = _ =>
      let v := eval vm_compute in l in
      let El := fresh "El" in
      assert (El : l = v) by (vm_compute; reflexivity);
      rewrite El in Et; clear El
  end;
  inversion Er; subst resp; clear Er.

(** C1, as worded, fails: Bob's stored role is [it-support], yet his list
    call is restricted to his own requests and misses Alice's. *)
Lemma list_visible_by_role_fails : ~ list_visible_by_role bob_lists calm.
Proof.
  intros H. unfold list_visible_by_role in H.
  run bob_lists calm resp w' E Et.
  specialize (H _ _ _ E eq_refl). vm_compute in H.
  destruct (H alice_report (or_introl eq_refl)) as [item [[<- | []] Hid]].
  discriminate Hid.
Qed.


(** C5, as worded, fails: the update on Alice's report succeeds, the
    comment insertion times out, and the answer is 500. *)
Lemma comment_failure_not_reported_as_success :
  ~ update_reported_despite_comment_failure resolve_alice
      (with_faults [None; Some lock_timeout] calm).
Proof.
  intros H. unfold update_reported_despite_comment_failure in H.
  run resolve_alice (with_faults [None; Some lock_timeout] calm) resp w' E Et.
  epose proof (H _ w' _ _ E) as H'. rewrite <- Et in H'.
  specialize (H' (or_intror (or_introl eq_refl)) eq_refl).
  discriminate H'.
Qed.

(** C6, as worded, fails: Carol is an administrator whose stored
    permissions are an object; she gets the minimal permissions, not the
    administrator defaults. *)
Lemma no_fallback_by_role_for_objects : ~ falls_back_by_role carol_asks_role calm.
Proof.
  intros H. unfold falls_back_by_role in H.
  run carol_asks_role calm resp w' E Et.
  specialize (H _ _ "carol@company.net"%string carol_role [] E eq_refl eq_refl I).
  discriminate H.
Qed.

(** C7, as worded, fails: the two notes on Alice's report come back in the
    order of the comment table, the later one first. *)
Lemma comments_not_by_creation_time : ~ comments_by_creation_time anonymous_lists calm.
Proof.
  intros H. unfold comments_by_creation_time in H.
  run anonymous_lists calm resp w' E Et.
  specialize (H _ _ _ E eq_refl).
  inversion H as [| x l Hbob Hrest]; subst. inversion Hrest as [| y l' Halice _]; subst.
  vm_compute in Halice. inversion Halice as [| a l0 _ Hhd]; subst.
  inversion Hhd as [| b l1 Hle]; subst. apply Hle. reflexivity.
Qed.


(** ** The theorems at concrete calls *)

Lemma portal_primary_key : primary_key (store calm).
Proof.
  unfold primary_key. cbn. constructor.
  - intros [H | []]. discriminate H.
  - constructor; [intros [] | constructor].
Qed.

(** C1 (amended), at Bob's list call. *)
Lemma list_visibility_by_email_witness :
  dispatch bob_lists = ListRequests /\
  store_answers calm /\
  exists items w',
    handler bob_lists calm =
    (Ok (json_response 200
           [("requests", VArr items); ("count", VNum (Z.of_nat (length items)))]), w') /\
    (isITTeamMember (caller_email bob_lists) = false ->
     forall item, In item items ->
                  sql_eq (collation (store calm)) (member item "userId")
                    (str (caller_id bob_lists)) = true) /\
    (isITTeamMember (caller_email bob_lists) = true ->
     primary_key (store calm) ->
     forall r, In r (requests (store calm)) ->
               exists item, In item items /\ member item "id" = str (r_id r)).
Proof.
  split; [reflexivity|]. split; [exact I|].
  apply (list_visibility_by_email bob_lists calm); [reflexivity | exact I].
Defined.


(** C5 (amended), at the update of Alice's report whose comment
    insertion times out. *)
Lemma comment_only_after_update_witness :
  dispatch resolve_alice = UpdateRequestStatus "REQ-A1" /\
  fst (handler resolve_alice (with_faults [None; Some lock_timeout] calm))
  = Ok (json_response 500
          [ ("error", str "Internal Server Error");
            ("message", str lock_timeout);
            ("timestamp", VNum 1000) ]) /\
  exists new,
    issued (with_faults [None; Some lock_timeout] calm)
      (snd (handler resolve_alice (with_faults [None; Some lock_timeout] calm))) new /\
    forall q failure,
      In (q, failure) new -> is_insert_comment q = true ->
      exists updateData status,
        update_call resolve_alice updateData status /\
        has_notes (member updateData "notes") = Ok true /\
        firstn 2 new = [(UpdateStatus status 1000 (str "REQ-A1"), None); (q, failure)] /\
        forall m, failure = Some m ->
                  new = [(UpdateStatus status 1000 (str "REQ-A1"), None); (q, Some m)] /\
                  store (snd (handler resolve_alice (with_faults [None; Some lock_timeout] calm)))
                  = updated "REQ-A1" status 1000 portal /\
                  statusCode
                    (json_response 500
                       [ ("error", str "Internal Server Error");
                         ("message", str lock_timeout);
                         ("timestamp", VNum 1000) ]) = 500 /\
                  member
                    (response_body
                       (json_response 500
                          [ ("error", str "Internal Server Error");
                            ("message", str lock_timeout);
                            ("timestamp", VNum 1000) ])) "message" = str m.
Proof.
  split; [reflexivity|]. split; [vm_compute; reflexivity|].
  apply (comment_only_after_update "REQ-A1" resolve_alice
           (with_faults [None; Some lock_timeout] calm));
    [reflexivity | vm_compute; reflexivity].
Defined.

(** C6 (amended), at an email the role store does not know, the store
    answering or not. *)
Lemma role_resolution_witness :
  dispatch dave_asks_role = UserRole /\
  (exists resp w',
     handler dave_asks_role calm = (Ok resp, w') /\
     statusCode resp = 200 /\
     member (member (response_body resp) "user") "role" = str "user" /\
     member (member (response_body resp) "user") "permissions" = minimal_permissions) /\
  (exists w',
     handler dave_asks_role (with_faults [Some missing_table] calm)
     = (Ok (json_response 500
              [("error", str "Internal server error"); ("message", str missing_table)]),
        w') /\
     store w' = store calm).
Proof.
  split; [reflexivity|]. split.
  - destruct (proj1 (role_resolution dave_asks_role calm eq_refl)) as [resp [w' [H Hall]]].
    exists resp, w'. split; [exact H|].
    exact (proj1 (Hall "Dave@Company.net"%string eq_refl) I).
  - destruct (proj1 (role_resolution dave_asks_role
                       (with_faults [Some missing_table] calm) eq_refl))
      as [resp [w' [H Hall]]].
    destruct (proj2 (Hall "Dave@Company.net"%string eq_refl) missing_table [] eq_refl)
      as [-> Hstore].
    exists w'. split; [exact H | exact Hstore].
Defined.

(** C7 (amended), at the unrestricted list call and at the update of
    Alice's report. *)
Lemma comments_embedded_in_store_order_witness :
  primary_key (store calm) /\
  (exists rows w',
     handler anonymous_lists calm =
     (Ok (json_response 200
            [ ("requests", VArr (map (listed (store calm)) rows));
              ("count", VNum (Z.of_nat (length rows))) ]), w') /\
     Permutation rows
       (where_owner (collation (store calm)) (owner_scope anonymous_lists)
          (requests (store calm)))) /\
  (exists r,
     In r (requests (store (snd (handler resolve_alice calm)))) /\
     text_eq (collation (store calm)) (r_id r) "REQ-A1" = true /\
     response_body
       (match fst (handler resolve_alice calm) with
        | Ok resp => resp
        | Throw _ => json_response 0 []
        end)
     = VObj [ ("message", str "Request status updated successfully");
              ("request", listed (store (snd (handler resolve_alice calm))) r) ]).
Proof.
  split; [exact portal_primary_key|]. split.
  - apply (comments_embedded_in_store_order anonymous_lists calm portal_primary_key);
      [reflexivity | exact I].
  - apply (comments_embedded_in_store_order resolve_alice calm portal_primary_key);
      [reflexivity | vm_compute; reflexivity | reflexivity].
Defined.


(** C10, at a list call without query parameters and at one of a caller
    outside the IT team who gives no [userId]. *)
Lemma default_caller_sees_all_witness :
  dispatch anonymous_lists = ListRequests /\
  absent (query_parameter anonymous_lists "userEmail") /\
  same_answer anonymous_lists
    (with_parameter anonymous_lists "userEmail" "john.smith@company.net") calm /\
  same_answer anonymous_lists
    (with_parameter anonymous_lists "userId" "test-user-123") calm /\
  (exists items w',
     handler anonymous_lists calm =
     (Ok (json_response 200
            [("requests", VArr items); ("count", VNum (Z.of_nat (length items)))]), w') /\
     issued calm w' [(SelectRequests None, None)] /\
     (primary_key (store calm) ->
      forall r, In r (requests (store calm)) ->
                exists item, In item items /\ member item "id" = str (r_id r))) /\
  dispatch bob_lists_unnamed = ListRequests /\
  absent (query_parameter bob_lists_unnamed "userId") /\
  isITTeamMember (caller_email bob_lists_unnamed) = false /\
  issued calm (snd (handler bob_lists_unnamed calm))
    [(SelectRequests (Some (str "test-user-123")), None)].
Proof.
  split; [reflexivity|]. split; [reflexivity|].
  destruct (default_caller_sees_all anonymous_lists calm eq_refl) as [He [Hu [_ Hall]]].
  split; [exact (He eq_refl)|]. split; [exact (Hu eq_refl)|].
  split; [exact (Hall eq_refl I)|].
  split; [reflexivity|]. split; [reflexivity|]. split; [reflexivity|].
  exact (proj1 (proj2 (proj2 (default_caller_sees_all bob_lists_unnamed calm eq_refl)))
           eq_refl eq_refl I).
Defined.

(** * Further properties of the handler

    Invariants of the store under every call, the answers of the routes
    and what a call sends to the webhook. *)

Import Laws Cases.

(** ** What a call can do to the store *)

Section Steps.
Variable R : db -> db -> Prop.
Hypothesis R_refl : forall d, R d d.
Hypothesis R_trans : forall d1 d2 d3, R d1 d2 -> R d2 d3 -> R d1 d3.

Lemma steps_ret {A} (a : A) : steps_by R (ret a).
Proof. intros w r w' H. inversion H. apply R_refl. Qed.

Lemma steps_throw {A} m : steps_by R (@throw A m).
Proof. intros w r w' H. inversion H. apply R_refl. Qed.

Lemma steps_lift {A} (o : outcome A) : steps_by R (lift o).
Proof. intros w r w' H. inversion H. apply R_refl. Qed.

Lemma steps_console_log t : steps_by R (console_log t).
Proof. intros w r w' H. inversion H. apply R_refl. Qed.

Lemma steps_console_warn t : steps_by R (console_warn t).
Proof. intros w r w' H. inversion H. apply R_refl. Qed.

Lemma steps_console_error t : steps_by R (console_error t).
Proof. intros w r w' H. inversion H. apply R_refl. Qed.

Lemma steps_Date_now : steps_by R Date_now.
Proof. intros w r w' H. inversion H. apply R_refl. Qed.

Lemma steps_random_suffix : steps_by R random_suffix.
Proof. intros w r w' H. inversion H. apply R_refl. Qed.

Lemma steps_lowered s : steps_by R (lowered s).
Proof. intros w r w' H. inversion H. apply R_refl. Qed.

Lemma steps_fetch p : steps_by R (fetch p).
Proof.
  intros w r w' H. unfold fetch in H.
  destruct (fetch_plan w); inversion H; apply R_refl.
Qed.

Lemma steps_bind {A B} (c : M A) (f : A -> M B) :
  steps_by R c -> (forall a, steps_by R (f a)) -> steps_by R (bind c f).
Proof.
  intros Hc Hf w r w' H. unfold bind in H.
  destruct (c w) as [[a | m] w1] eqn:E.
  - eapply R_trans; [exact (Hc _ _ _ E) | exact (Hf a _ _ _ H)].
  - inversion H; subst. exact (Hc _ _ _ E).
Qed.

Lemma steps_try_catch {A} (c : M A) (h : string -> M A) :
  steps_by R c -> (forall m, steps_by R (h m)) -> steps_by R (try_catch c h).
Proof.
  intros Hc Hh w r w' H. unfold try_catch in H.
  destruct (c w) as [[a | m] w1] eqn:E.
  - inversion H; subst. exact (Hc _ _ _ E).
  - eapply R_trans; [exact (Hc _ _ _ E) | exact (Hh m _ _ _ H)].
Qed.

Lemma steps_mapM {A B} (f : A -> M B) l :
  (forall a, steps_by R (f a)) -> steps_by R (mapM f l).
Proof.
  intros Hf. induction l as [| x l IH]; cbn [mapM].
  - apply steps_ret.
  - apply steps_bind; [apply Hf | intros y].
    apply steps_bind; [exact IH | intros ys; apply steps_ret].
Qed.

(** A statement moves the store as [execute] does, or fails before
    reaching it. *)
Lemma steps_executeQuery q :
  (forall d r d', execute q d = (r, d') -> R d d') ->
  steps_by R (executeQuery q).
Proof.
  intros Hq w r w' H. destruct (executeQuery_run q w) as [c Hc]. rewrite Hc in H.
  inversion H; subst. cbn [store with_console with_query].
  unfold driver.
  repeat match goal with
         | |- context [if ?b then _ else _] => destruct b; [apply R_refl|]
         end.
  destruct (faults w) as [| [m |] rest]; cbn [snd]; try apply R_refl;
    destruct (execute q (store w)) as [r0 d0] eqn:E; cbn [snd]; eapply Hq; exact E.
Qed.
End Steps.

Ltac steps_step Hrefl Htrans tac :=
  first
    [ apply (steps_executeQuery _ Hrefl); tac
    | apply (steps_mapM _ Hrefl Htrans); intros ?
    | apply (steps_bind _ Htrans); [| intros ?]
    | apply (steps_try_catch _ Htrans); [| intros ?]
    | apply (steps_ret _ Hrefl)
    | apply (steps_throw _ Hrefl)
    | apply (steps_lift _ Hrefl)
    | apply (steps_console_log _ Hrefl)
    | apply (steps_console_warn _ Hrefl)
    | apply (steps_console_error _ Hrefl)
    | apply (steps_Date_now _ Hrefl)
    | apply (steps_random_suffix _ Hrefl)
    | apply (steps_lowered _ Hrefl)
    | apply (steps_fetch _ Hrefl)
    | match goal with
      | |- steps_by _ (if ?b then _ else _) => destruct b
      | |- steps_by _ (match ?x with _ => _ end) => destruct x
      | |- steps_by _ (let (_, _) := ?x in _) => destruct x
      end ].

Lemma steps_sendTeamsNotification R reportData :
  (forall d, R d d) -> (forall d1 d2 d3, R d1 d2 -> R d2 d3 -> R d1 d3) ->
  steps_by R (sendTeamsNotification reportData).
Proof.
  intros R_refl R_trans w r w' H. unfold sendTeamsNotification in H.
  match type of H with
  | ?c w = _ => assert (Hq : steps_by R c) by (repeat steps_step R_refl R_trans idtac)
  end.
  exact (Hq _ _ _ H).
Qed.

(** Every statement keeps the store within [R]: so does the handler. *)
Lemma steps_handler R e :
  (forall d, R d d) -> (forall d1 d2 d3, R d1 d2 -> R d2 d3 -> R d1 d3) ->
  (forall q d r d', execute q d = (r, d') -> R d d') ->
  steps_by R (handler e).
Proof.
  intros R_refl R_trans R_exec.
  unfold handler, route, test_teams, user_role, resolve_permissions, list_requests,
    transform, create_request, request_statistics, update_status, transform_updated,
    comments_of, parseJSON, generateRequestId, generateCommentId.
  repeat (steps_step R_refl R_trans ltac:(apply R_exec)
          || (apply steps_sendTeamsNotification; assumption)).
Qed.

Lemma frozen_refl r : frozen r r.
Proof. repeat split. Qed.

Lemma frozen_trans r1 r2 r3 : frozen r1 r2 -> frozen r2 r3 -> frozen r1 r3.
Proof.
  unfold frozen. intros H1 H2.
  destruct H1 as (A1 & A2 & A3 & A4 & A5 & A6 & A7 & A8 & A9).
  destruct H2 as (B1 & B2 & B3 & B4 & B5 & B6 & B7 & B8 & B9).
  repeat split; congruence.
Qed.

Lemma Forall2_frozen_refl l : Forall2 frozen l l.
Proof. induction l; constructor; [apply frozen_refl | assumption]. Qed.

Lemma Forall2_frozen_trans l1 : forall l2 l3,
  Forall2 frozen l1 l2 -> Forall2 frozen l2 l3 -> Forall2 frozen l1 l3.
Proof.
  induction l1 as [| a l1 IH]; intros l2 l3 H12 H23.
  - inversion H12; subst. inversion H23; subst. constructor.
  - inversion H12; subst. inversion H23; subst. constructor.
    + eapply frozen_trans; eassumption.
    + eapply IH; eassumption.
Qed.

Lemma evolves_refl d : evolves d d.
Proof.
  split; [reflexivity|]. split.
  - exists []. rewrite app_nil_r. reflexivity.
  - exists (requests d), []. rewrite app_nil_r. split; [reflexivity | apply Forall2_frozen_refl].
Qed.

Lemma evolves_trans d1 d2 d3 : evolves d1 d2 -> evolves d2 d3 -> evolves d1 d3.
Proof.
  intros (U1 & (c1 & C1) & (k1 & a1 & Q1 & F1)) (U2 & (c2 & C2) & (k2 & a2 & Q2 & F2)).
  split; [congruence|]. split.
  - exists (c1 ++ c2). rewrite C2, C1, app_assoc. reflexivity.
  - rewrite Q1 in F2. apply Forall2_app_inv_l in F2.
    destruct F2 as (k2a & k2b & Fa & Fb & ->).
    exists k2a, (k2b ++ a2). split.
    + rewrite Q2, app_assoc. reflexivity.
    + eapply Forall2_frozen_trans; eassumption.
Qed.

Lemma frozen_set_status status now r : frozen r (set_status status now r).
Proof. repeat split. Qed.

Lemma Forall2_frozen_map (f : request_row -> request_row) l :
  (forall r, frozen r (f r)) -> Forall2 frozen l (map f l).
Proof. intros Hf. induction l; cbn; constructor; [apply Hf | assumption]. Qed.

Ltac split_ifs H :=
  repeat match type of H with
         | (if ?b then _ else _) = _ => destruct b eqn:?
         | match ?x with _ => _ end = _ => destruct x eqn:?
         end.

Lemma execute_evolves q d r d' : execute q d = (r, d') -> evolves d d'.
Proof.
  destruct q; cbn [execute]; intros H.
  - inversion H; apply evolves_refl.
  - inversion H; apply evolves_refl.
  - inversion H; apply evolves_refl.
  - split_ifs H; inversion H; subst; try apply evolves_refl.
    split; [reflexivity|]. split.
    + exists []. cbn. rewrite app_nil_r. reflexivity.
    + eexists (requests d), _. split; [reflexivity | apply Forall2_frozen_refl].
  - split_ifs H; inversion H; subst; try apply evolves_refl.
    split; [reflexivity|]. split.
    + exists []. cbn. rewrite app_nil_r. reflexivity.
    + eexists _, []. cbn. rewrite app_nil_r. split; [reflexivity|].
      apply Forall2_frozen_map. intros r0.
      destruct (id_eq _ (r_id r0) id); [apply frozen_set_status | apply frozen_refl].
  - split_ifs H; inversion H; subst; try apply evolves_refl.
    split; [reflexivity|]. split.
    + eexists. cbn. reflexivity.
    + exists (requests d), []. cbn. rewrite app_nil_r.
      split; [reflexivity | apply Forall2_frozen_refl].
  - inversion H; apply evolves_refl.
Qed.

Lemma handler_evolves e w : evolves (store w) (store (snd (handler e w))).
Proof.
  destruct (handler e w) as [r w'] eqn:E. cbn [snd].
  exact (steps_handler evolves e evolves_refl evolves_trans execute_evolves _ _ _ E).
Qed.

(** X1.  No call changes the role records: for every event and every
    world, the [user_roles] table the handler leaves is the one it found. *)
Theorem roles_are_only_read e w :
  user_roles (store (snd (handler e w))) = user_roles (store w).
Proof. apply (handler_evolves e w). Qed.



Lemma has_request_key d a b :
  collation d a = collation d b -> has_request d a = has_request d b.
Proof. unfold has_request, text_eq. intros ->. reflexivity. Qed.

Lemma not_in_ids d id :
  has_request d id = false ->
  ~ In (collation d id) (map (fun r => collation d (r_id r)) (requests d)).
Proof.
  unfold has_request. intros H Hin. apply in_map_iff in Hin. destruct Hin as [r [E Hr]].
  assert (existsb (fun r0 => text_eq (collation d) (r_id r0) id) (requests d) = true).
  { apply existsb_exists. exists r. split; [exact Hr|].
    unfold text_eq. rewrite E. apply String.eqb_refl. }
  congruence.
Qed.

Lemma NoDup_snoc {A} (l : list A) x : NoDup l -> ~ In x l -> NoDup (l ++ [x]).
Proof.
  intros Hnd Hx. apply NoDup_app; [exact Hnd | repeat constructor; intros [] |].
  intros a Ha [<- | []]. exact (Hx Ha).
Qed.

(** *** The routes that only read *)

Lemma eq_db_trans (d1 d2 d3 : db) : d1 = d2 -> d2 = d3 -> d1 = d3.
Proof. congruence. Qed.

Ltac reads := cbn [execute]; intros ? ? ? Hx; inversion Hx; reflexivity.

(** X6.  Only the create route and the status route write: on every
    other event (preflight, health, test notification, role, list,
    statistics, unknown route) the store is left as it was, whatever
    fails. *)
Theorem reads_leave_the_store e w :
  writes (dispatch e) = false ->
  store (snd (handler e w)) = store w.
Proof.
  intros Hw. destruct (handler e w) as [r w'] eqn:E. cbn [snd]. symmetry.
  revert E. generalize w, r, w'. change (steps_by eq (handler e)).
  unfold handler, route.
  destruct (dispatch e); try discriminate Hw;
    unfold test_teams, user_role, resolve_permissions, list_requests,
      transform, request_statistics, comments_of, parseJSON;
    repeat (steps_step (@eq_refl db) eq_db_trans reads
            || apply (steps_sendTeamsNotification eq _ (@eq_refl db) eq_db_trans)).
Qed.

(** ** The answers of the handler *)

Lemma returns_ret {A} (P : A -> Prop) a : P a -> returns P (ret a).
Proof. intros Ha w a' w' H. inversion H; subst. exact Ha. Qed.

Lemma returns_bind {A B} (P : B -> Prop) (c : M A) (f : A -> M B) :
  (forall a, returns P (f a)) -> returns P (bind c f).
Proof.
  intros Hf w b w' H. unfold bind in H.
  destruct (c w) as [[a | m] w1]; [exact (Hf a _ _ _ H) | discriminate].
Qed.

Lemma returns_try_catch {A} (P : A -> Prop) (c : M A) (h : string -> M A) :
  returns P c -> (forall m, returns P (h m)) -> returns P (try_catch c h).
Proof.
  intros Hc Hh w a w' H. unfold try_catch in H.
  destruct (c w) as [[a0 | m] w1] eqn:E.
  - inversion H; subst. exact (Hc _ _ _ E).
  - exact (Hh m _ _ _ H).
Qed.

Ltac returns_step :=
  first
    [ apply returns_ret; cbn; tauto
    | apply returns_bind; intros ?
    | apply returns_try_catch; [| intros ?]
    | match goal with
      | |- returns _ (if ?b then _ else _) => destruct b
      | |- returns _ (match ?x with _ => _ end) => destruct x
      | |- returns _ (let (_, _) := ?x in _) => destruct x
      end ].

Lemma handler_status e :
  returns (fun resp => In (statusCode resp) status_codes) (handler e).
Proof.
  unfold handler, route, test_teams, user_role, list_requests, create_request,
    request_statistics, update_status, status_codes.
  repeat returns_step.
Qed.

(** X7.  The handler answers every event in every world: it never
    throws, and the status code of its response is 200, 201, 400, 404 or
    500. *)
Theorem handler_always_answers e w :
  exists resp w',
    handler e w = (Ok resp, w') /\ In (statusCode resp) status_codes.
Proof.
  destruct (handler_returns e w) as [resp [w' H]]. exists resp, w'.
  split; [exact H | exact (handler_status e _ _ _ H)].
Qed.

(** X8.  A preflight ([OPTIONS] as the method of the request context or
    of the event) is answered with 200 and an empty body before the path
    is looked at: whatever the path and the body, nothing but the log
    changes. *)
Theorem preflight_is_answered_first e w :
  opt_is (http_method e) "OPTIONS" || opt_is (httpMethod e) "OPTIONS" = true ->
  exists c,
    handler e w
    = (Ok {| statusCode := 200; response_body := str "" |}, with_console w c).
Proof.
  intros H. unfold handler, route, dispatch. rewrite H.
  unfold bind, try_catch, console_log, ret. cbn. eexists; reflexivity.
Qed.

Lemma not_found_run e w :
  dispatch e = NotFound ->
  exists c,
    handler e w
    = (Ok (json_response 404
             [ ("error", str "Not Found");
               ("message",
                str ("Route " ++ request_method e ++ " " ++ request_path e
                     ++ " not found")%string) ]),
       with_console w c).
Proof.
  intros H. unfold handler, route. rewrite H.
  unfold bind, try_catch, console_log, ret. cbn. eexists; reflexivity.
Qed.

(** X10.  An event that names no path and no method (all of them absent
    or empty) is taken as [GET /health]: it is answered with 200, the
    status [OK] and the time of the call. *)
Theorem bare_event_is_a_health_check e w :
  first_of (path e) (first_of (rawPath e) (http_path e)) = None ->
  first_of (httpMethod e) (http_method e) = None ->
  exists c,
    handler e w
    = (Ok (json_response 200
             [ ("status", str "OK");
               ("message", str "Company Security Portal API is running!");
               ("timestamp", VNum (clock w));
               ("version", str "1.0.0") ]),
       with_console w c).
Proof.
  intros Hp Hm.
  assert (Hno : opt_is (http_method e) "OPTIONS" || opt_is (httpMethod e) "OPTIONS" = false).
  { unfold first_of in Hm. unfold opt_is.
    destruct (httpMethod e) as [a |], (http_method e) as [b |]; cbn;
      try destruct (a =? "") eqn:Ea; try destruct (b =? "") eqn:Eb; try discriminate;
      try (apply String.eqb_eq in Ea; subst a); try (apply String.eqb_eq in Eb; subst b);
      reflexivity. }
  assert (Hd : dispatch e = Health).
  { unfold dispatch, request_path, request_method, or_default. rewrite Hno.
    assert (H1 : first_of (first_of (path e) (first_of (rawPath e) (http_path e))) None = None)
      by (rewrite Hp; reflexivity).
    assert (H2 : first_of (first_of (httpMethod e) (http_method e)) None = None)
      by (rewrite Hm; reflexivity).
    rewrite H1, H2. reflexivity. }
  unfold handler, route. rewrite Hd.
  unfold bind, try_catch, console_log, ret, Date_now. cbn. eexists; reflexivity.
Qed.

(** X11.  A status update whose body (any JSON value but [null]) has no
    status, or a falsy one, is answered with 400 [Status is required]; no
    statement is issued and the store is unchanged. *)
Theorem status_is_required id e w updateData :
  dispatch e = UpdateRequestStatus id ->
  JSON_parse (body e) = Ok updateData ->
  nullish updateData = false ->
  truthy (member updateData "status") = false ->
  exists w',
    handler e w = (Ok (json_response 400 [("error", str "Status is required")]), w') /\
    store w' = store w /\ sql_trace w' = sql_trace w.
Proof.
  intros Hd Hparse Hnull Hstatus.
  destruct (handler_run e w) as [c0 H0]. rewrite H0. clear H0.
  destruct (route_update e (with_console w c0) id Hd) as [c1 H1]. rewrite H1. clear H1.
  unfold update_status, bind, lift, console_log.
  rewrite Hparse, (get_not_nullish _ _ Hnull), Hstatus. cbn.
  eexists. repeat split.
Qed.

(** X12.  The role route without an [email] query parameter (absent or
    empty) is answered with 400 [Bad Request]; no statement is issued and
    the store is unchanged. *)
Theorem email_is_required e w :
  dispatch e = UserRole ->
  first_of (query_parameter e "email") None = None ->
  exists w',
    handler e w
    = (Ok (json_response 400
             [ ("error", str "Bad Request");
               ("message", str "Email is required for user role determination") ]),
       w') /\
    store w' = store w /\ sql_trace w' = sql_trace w.
Proof.
  intros Hd He.
  destruct (handler_run e w) as [c0 H0]. rewrite H0. clear H0.
  destruct (route_user_role e (with_console w c0) Hd) as [c1 H1]. rewrite H1. clear H1.
  unfold user_role, try_catch. rewrite He. cbn. eexists. repeat split.
Qed.

(** X9.  No route accepts a method other than [GET], [POST] and [PUT]
    ([OPTIONS] apart): such a call, [DELETE] included, is answered with
    404 naming the method and the path, and only the log changes. *)
Theorem other_methods_are_not_found e w :
  opt_is (http_method e) "OPTIONS" || opt_is (httpMethod e) "OPTIONS" = false ->
  request_method e <> "GET"%string ->
  request_method e <> "POST"%string ->
  request_method e <> "PUT"%string ->
  exists c,
    handler e w
    = (Ok (json_response 404
             [ ("error", str "Not Found");
               ("message",
                str ("Route " ++ request_method e ++ " " ++ request_path e
                     ++ " not found")%string) ]),
       with_console w c).
Proof.
  intros Hopt Hget Hpost Hput.
  apply String.eqb_neq in Hget, Hpost, Hput.
  assert (Hd : dispatch e = NotFound).
  { unfold dispatch. rewrite Hopt, Hget, Hpost, Hput.
    rewrite !andb_false_r. destruct (status_route_id (request_path e)); reflexivity. }
  apply not_found_run. exact Hd.
Qed.

(** ** Routing *)

Lemma strip_prefix_spec p : forall s rest,
  strip_prefix p s = Some rest <-> s = (p ++ rest)%string.
Proof.
  induction p as [| a p IH]; intros s rest; cbn.
  - split; [intros H; inversion H; reflexivity | intros ->; reflexivity].
  - destruct s as [| b s]; [split; discriminate|].
    destruct (Ascii.eqb_spec a b) as [-> | Hne].
    + rewrite IH. split; [intros ->; reflexivity | intros H; inversion H; reflexivity].
    + split; [discriminate | intros H; inversion H; congruence].
Qed.

Lemma split_slash_sound s : forall a b,
  split_slash s = Some (a, b) ->
  slash_free a = true /\ s = (a ++ b)%string /\ exists b', b = String "/"%char b'.
Proof.
  induction s as [| c s IH]; intros a b; cbn; [discriminate|].
  destruct (Ascii.eqb_spec c "/"%char) as [-> | Hne].
  - intros H; inversion H; subst. repeat split. eexists; reflexivity.
  - destruct (split_slash s) as [[a0 b0] |]; [| discriminate].
    intros H; inversion H; subst.
    destruct (IH a0 b eq_refl) as (Hfree & -> & Hb).
    cbn. apply Ascii.eqb_neq in Hne. rewrite Hne. repeat split; assumption.
Qed.

Lemma split_slash_complete a : forall b',
  slash_free a = true ->
  split_slash (a ++ String "/"%char b')%string = Some (a, String "/"%char b').
Proof.
  induction a as [| x a IH]; intros b' Hfree; cbn; [reflexivity|].
  cbn in Hfree. apply andb_true_iff in Hfree. destruct Hfree as [Hx Hfree].
  apply negb_true_iff in Hx. rewrite Hx, (IH b' Hfree). reflexivity.
Qed.

(** X13.  The status route recognises exactly the paths
    [/api/requests/<id>/status] whose identifier is not empty and has no
    slash, and the identifier it extracts is that one. *)
Theorem status_path_carries_the_identifier p id :
  status_route_id p = Some id <->
  p = ("/api/requests/" ++ id ++ "/status")%string /\
  id <> ""%string /\ slash_free id = true.
Proof.
  unfold status_route_id. split.
  - destruct (strip_prefix "/api/requests/" p) as [rest |] eqn:E; [| discriminate].
    apply strip_prefix_spec in E.
    destruct (split_slash rest) as [[a b] |] eqn:S; [| discriminate].
    apply split_slash_sound in S. destruct S as (Hfree & -> & _).
    destruct (a =? "") eqn:Ea; cbn [negb andb]; [discriminate|].
    destruct (String.eqb_spec b "/status") as [-> | Hb]; [| discriminate].
    intros H; inversion H; subst. apply String.eqb_neq in Ea. repeat split; assumption.
  - intros (-> & Hne & Hfree).
    assert (E : strip_prefix "/api/requests/" ("/api/requests/" ++ id ++ "/status")%string
                = Some (id ++ "/status")%string) by (apply strip_prefix_spec; reflexivity).
    rewrite E.
    rewrite (split_slash_complete id "status" Hfree). apply String.eqb_neq in Hne. rewrite Hne. reflexivity.
Qed.

Lemma lower_upper_char c : lower_char (upper_char c) = lower_char c.
Proof. destruct c as [[] [] [] [] [] [] [] []]; reflexivity. Qed.

Lemma lower_lower_char c : lower_char (lower_char c) = lower_char c.
Proof. destruct c as [[] [] [] [] [] [] [] []]; reflexivity. Qed.

(** X14.  Membership of the IT team does not depend on the case of the
    ASCII letters of the email. *)
Theorem it_team_membership_ignores_case email :
  isITTeamMember (toUpperCase email) = isITTeamMember email /\
  isITTeamMember (toLowerCase email) = isITTeamMember email.
Proof.
  unfold isITTeamMember, toLowerCase, toUpperCase. split; f_equal.
  - induction email as [| c s IH]; cbn; [reflexivity|].
    rewrite lower_upper_char, IH. reflexivity.
  - induction email as [| c s IH]; cbn; [reflexivity|].
    rewrite lower_lower_char, IH. reflexivity.
Qed.

(** X15.  When the store answers, the list operation returns its items
    by creation time, newest first. *)
Theorem list_is_newest_first e w :
  dispatch e = ListRequests ->
  store_answers w ->
  exists items w',
    handler e w =
    (Ok (json_response 200
           [("requests", VArr items); ("count", VNum (Z.of_nat (length items)))]), w') /\
    StronglySorted (fun a b => b <= a) (map created_at_of items).
Proof.
  intros Hd Hf. destruct (handler_list_run e w Hd Hf) as [c H].
  eexists; eexists. split; [rewrite H, length_map; reflexivity|].
  rewrite map_map. unfold select_requests.
  pose proof (order_by_created_desc_sorted
                (aggregate (collation (store w))
                   (where_owner (collation (store w)) (owner_scope e) (requests (store w)))
                   (request_comments (store w)))) as Hs.
  induction Hs as [| row rows Hs IH Hall]; cbn [map]; constructor.
  - exact IH.
  - rewrite Forall_forall in *. intros t Ht. apply in_map_iff in Ht.
    destruct Ht as [row' [<- Hin]]. exact (Hall row' Hin).
Qed.

(** ** The notification *)

Lemma notification_skipped_run reportData w :
  truthy (POWER_AUTOMATE_WEBHOOK_URL w) = false ->
  exists c, sendTeamsNotification reportData w = (Ok tt, with_console w c).
Proof.
  intros H. unfold sendTeamsNotification, bind, console_log.
  cbn [with_console POWER_AUTOMATE_WEBHOOK_URL console]. rewrite H. cbn [negb].
  eexists. reflexivity.
Qed.

Lemma payload_fields reportData p :
  notification_payload reportData = Ok p ->
  member p "reportId" = member reportData "requestId" /\
  member p "severity" = member reportData "severity".
Proof.
  unfold notification_payload, obind. intros H.
  repeat match type of H with
         | match ?o with Ok _ => _ | Throw _ => _ end = _ =>
             destruct o; [| discriminate]
         end.
  inversion H. split; reflexivity.
Qed.

Lemma notification_posts_once_run reportData w p :
  truthy (POWER_AUTOMATE_WEBHOOK_URL w) = true ->
  notification_payload reportData = Ok p ->
  exists w',
    sendTeamsNotification reportData w = (Ok tt, w') /\
    posted w' = posted w ++ [p] /\
    store w' = store w /\
    member p "reportId" = member reportData "requestId" /\
    member p "severity" = member reportData "severity".
Proof.
  intros Hurl Hp. destruct (payload_fields _ _ Hp) as [Hid Hsev].
  unfold sendTeamsNotification, bind, try_catch, lift, fetch, console_log, console_error.
  cbn [with_console with_posted POWER_AUTOMATE_WEBHOOK_URL console posted fetch_plan store].
  rewrite Hurl, Hp. cbn [negb].
  cbn [with_console with_posted POWER_AUTOMATE_WEBHOOK_URL console posted fetch_plan store].
  destruct (fetch_plan w) as [m | status ok [text | m]];
    [| destruct ok | destruct ok];
    cbn [with_console with_posted POWER_AUTOMATE_WEBHOOK_URL console posted fetch_plan store];
    eexists; (split; [reflexivity|]); cbn; auto.
Qed.

(** X16.  Without a webhook address, [sendTeamsNotification] returns
    without posting anything and without building the card (only the log
    changes).  With an address and a card that builds, it posts exactly
    that one card, carrying the report's identifier and severity, and
    returns normally whatever the delivery does; the store is untouched. *)
Theorem notification_is_sent_when_configured reportData w :
  (truthy (POWER_AUTOMATE_WEBHOOK_URL w) = false ->
   exists c, sendTeamsNotification reportData w = (Ok tt, with_console w c)) /\
  (forall p,
     truthy (POWER_AUTOMATE_WEBHOOK_URL w) = true ->
     notification_payload reportData = Ok p ->
     exists w',
       sendTeamsNotification reportData w = (Ok tt, w') /\
       posted w' = posted w ++ [p] /\
       store w' = store w /\
       member p "reportId" = member reportData "requestId" /\
       member p "severity" = member reportData "severity").
Proof.
  split.
  - apply notification_skipped_run.
  - intros p. apply notification_posts_once_run.
Qed.

(** ** Creating a report *)

Lemma execute_insert_request_ok rid userId userInfo formData type details reason
  status priority createdAt updatedAt d rows d' :
  execute (InsertRequest (str rid) userId userInfo formData type details reason
             status priority createdAt updatedAt) d = (Ok rows, d') ->
  has_request d rid = false /\
  d' = set_requests d
         (requests d ++
          [ {| r_id := rid;
               r_user_id := to_column userId;
               r_user_info := userInfo;
               r_form_data := formData;
               r_request_type := to_column type;
               r_details := details;
               r_reason := to_column reason;
               r_request_status := to_column status;
               r_priority_level := to_column priority;
               r_created_at := createdAt;
               r_updated_at := updatedAt |} ]).
Proof.
  cbn [execute sql_text str]. intros H.
  destruct (has_request d rid) eqn:Hfresh; [discriminate|].
  repeat match type of H with
         | (if ?b then _ else _) = _ => destruct b; [discriminate|]
         end.
  inversion H. split; reflexivity.
Qed.

Lemma notification_keeps_store reportData w r w' :
  sendTeamsNotification reportData w = (r, w') -> store w' = store w.
Proof.
  intros H.
  pose proof (steps_sendTeamsNotification (fun d d' => d' = d) reportData
                (fun d => eq_refl)
                (fun d1 d2 d3 H12 H23 => eq_trans H23 H12)) as Hs.
  exact (Hs _ _ _ H).
Qed.

Lemma create_request_created e w r w1 :
  create_request e w = (Ok r, w1) ->
  statusCode r = 201 ->
  exists requestData priority,
    JSON_parse (body e) = Ok requestData /\
    derive_priority requestData = Ok priority /\
    has_request (store w) (next_request_id w) = false /\
    store w1 =
    set_requests (store w)
      (requests (store w) ++ [new_request_row w requestData priority]) /\
    member (member (response_body r) "request") "id" = str (next_request_id w).
Proof.
  intros H Hcode.
  unfold create_request, generateRequestId, random_suffix, bind, lift, Date_now, ret in H.
  destruct (JSON_parse (body e)) as [requestData | m0] eqn:Hparse; [| discriminate].
  destruct (get requestData "userId") as [givenId | m1] eqn:Hget; [| discriminate].
  assert (Hid : givenId = member requestData "userId").
  { destruct requestData; cbn in Hget; inversion Hget; reflexivity. }
  subst givenId.
  match type of H with
  | (if ?b then _ else _) _ = _ => destruct b
  end; simp H.
  { inversion H; subst. discriminate. }
  destruct (derive_priority requestData) as [priority | m2] eqn:Hprio; [| discriminate].
  match type of H with
  | context [executeQuery ?q ?W] =>
      destruct (executeQuery_run q W) as [c Hc]; rewrite Hc in H; clear Hc
  end.
  match type of H with
  | context [driver ?q ?W] => destruct (driver q W) as [[rows | m] d1] eqn:Hdrv
  end; simp H; [| discriminate].
  apply execute_of_driver in Hdrv. apply execute_insert_request_ok in Hdrv.
  destruct Hdrv as [Hfresh ->].
  match type of H with
  | context [sendTeamsNotification ?rd ?W] =>
      destruct (sendTeamsNotification rd W) as [[[] | m] w2] eqn:Hsend
  end; [| discriminate].
  apply notification_keeps_store in Hsend. cbn [store with_console with_query] in Hsend.
  inversion H; subst. exists requestData, priority.
  repeat split; try assumption.
Qed.

Lemma handler_create_run e w resp w' :
  dispatch e = CreateRequest ->
  handler e w = (Ok resp, w') ->
  statusCode resp = 201 ->
  exists c, create_request e (with_console w c) = (Ok resp, w').
Proof.
  intros Hd H Hcode.
  destruct (handler_run e w) as [c0 H0]. rewrite H0 in H. clear H0.
  destruct (route_create e (with_console w c0) Hd) as [c1 H1]. rewrite H1 in H. clear H1.
  exists (c1).
  destruct (create_request e (with_console (with_console w c0) c1)) as [[r | m] w1] eqn:Hrun.
  - inversion H; subst. exact Hrun.
  - inversion H; subst. discriminate.
Qed.

Lemma listed_comments_none d r :
  (forall c, In c (request_comments d) ->
             collation d (c_request_id c) <> collation d (r_id r)) ->
  member (listed d r) "comments" = VArr [].
Proof.
  intros H. change (member (listed d r) "comments")
    with (VArr (map json_object (comments_for d r))).
  unfold comments_for.
  match goal with
  | |- VArr (map _ (filter ?f _)) = _ =>
      replace (filter f (request_comments d)) with (@nil comment_row); [reflexivity|]
  end.
  symmetry. induction (request_comments d) as [| c cs IH]; [reflexivity|].
  cbn [filter]. unfold text_eq at 1.
  destruct (String.eqb_spec (collation d (c_request_id c)) (collation d (r_id r))) as [E | _].
  - exfalso. apply (H c); [left; reflexivity | exact E].
  - apply IH. intros c' Hin. apply H. right. exact Hin.
Qed.

(** X18.  Create then list: after a create answered 201 on a store that
    satisfies the keys of the schema, an unrestricted list call (IT team)
    that the store answers returns one item more than there were requests,
    among them one with the identifier of the create response, status
    [open] and an empty comment list. *)
Theorem created_report_is_listed e w resp w' e' :
  sound (store w) ->
  dispatch e = CreateRequest ->
  handler e w = (Ok resp, w') ->
  statusCode resp = 201 ->
  dispatch e' = ListRequests ->
  owner_scope e' = None ->
  store_answers w' ->
  exists items w'' item,
    handler e' w' =
    (Ok (json_response 200
           [("requests", VArr items); ("count", VNum (Z.of_nat (length items)))]), w'') /\
    length items = S (length (requests (store w))) /\
    In item items /\
    member item "id" = member (member (response_body resp) "request") "id" /\
    member item "status" = str "open" /\
    member item "comments" = VArr [].
Proof.
  intros [Hids [_ Hrefs]] Hd H Hcode Hd' Hscope Hf.
  destruct (handler_create_run e w resp w' Hd H Hcode) as [cc Hrun0].
  destruct (create_request_created _ _ _ _ Hrun0 Hcode)
    as (requestData & priority & _ & _ & Hfresh & Hstore & Hid).
  cbn [store with_console] in Hfresh, Hstore.
  change (next_request_id (with_console w cc)) with (next_request_id w) in *.
  change (new_request_row (with_console w cc)) with (new_request_row w) in *.
  assert (Hnd : primary_key (store w')).
  { unfold primary_key. rewrite Hstore. cbn [requests set_requests collation].
    rewrite map_app. cbn [map].
    apply NoDup_snoc; [exact Hids | apply not_in_ids; exact Hfresh]. }
  destruct (handler_list_run e' w' Hd' Hf) as [c Hrun].
  destruct (select_requests_exact (owner_scope e') (store w') Hnd) as [rows [Hperm Hmap]].
  rewrite Hscope in Hperm. cbn [where_owner] in Hperm.
  exists (map (listed (store w')) rows). eexists.
  exists (listed (store w') (new_request_row w requestData priority)).
  split; [| split; [| split; [| split; [| split]]]].
  - rewrite Hrun, Hmap. do 4 f_equal.
    rewrite <- (length_map transformed), Hmap. reflexivity.
  - rewrite length_map, (Permutation_length Hperm), Hstore. cbn [requests set_requests].
    rewrite length_app. cbn [length]. lia.
  - apply in_map. apply (Permutation_in _ (Permutation_sym Hperm)).
    rewrite Hstore. cbn [requests set_requests]. apply in_or_app. right. left. reflexivity.
  - rewrite Hid. reflexivity.
  - reflexivity.
  - apply listed_comments_none. intros c0 Hin E.
    rewrite Hstore in Hin. cbn [request_comments set_requests] in Hin.
    specialize (Hrefs c0 Hin). rewrite Hstore in E.
    cbn [collation set_requests r_id new_request_row] in E.
    rewrite (has_request_key _ _ _ E), Hfresh in Hrefs. discriminate.
Qed.



Lemma select_by_id_none id d :
  select_request_by_id (str id) d = [] -> has_request d id = false.
Proof.
  unfold select_request_by_id, has_request. intros H.
  destruct (existsb (fun r => text_eq (collation d) (r_id r) id) (requests d)) eqn:E;
    [| reflexivity].
  apply existsb_exists in E. destruct E as [r [Hin Hid]].
  destruct (aggregate_covers (collation d)
              (filter (fun r => id_eq (collation d) (r_id r) (str id)) (requests d))
              (request_comments d) r) as [row [Hrow _]].
  { apply filter_In. split; [exact Hin | exact Hid]. }
  rewrite H in Hrow. destruct Hrow.
Qed.


Lemma updated_missing id status now d :
  has_request d id = false -> updated id status now d = d.
Proof.
  unfold has_request, updated, set_requests. intros H. destruct d as [key view rs cs us].
  cbn [requests request_comments user_roles collation stats_view] in *. f_equal.
  induction rs as [| r rs IH]; [reflexivity|].
  cbn [existsb map] in *. apply orb_false_iff in H. destruct H as [Hr Hrs].
  change (id_eq key (r_id r) (str id)) with (text_eq key (r_id r) id). rewrite Hr.
  f_equal. apply IH. exact Hrs.
Qed.


(** ** The status update, by its answer *)












(** X20.  When the status route answers 404, the store had no request
    whose identifier it holds equal to the one of the path (under the
    collation), the body had no notes (or blank ones) and the store is
    unchanged. *)
Theorem status_update_not_found id e w resp w' :
  dispatch e = UpdateRequestStatus id ->
  handler e w = (Ok resp, w') ->
  statusCode resp = 404 ->
  has_request (store w) id = false /\
  store w' = store w /\
  exists updateData status,
    update_call e updateData status /\
    has_notes (member updateData "notes") = Ok false.
Proof.
  intros Hd H Hcode.
  destruct (handler_update_run id e w resp w' Hd H) as [new [r [_ [Hrun Hr]]]].
  destruct Hr as [-> | [m [-> [Hfail _]]]]; [| rewrite Hfail in Hcode; discriminate].
  inversion Hrun; subst; try discriminate.
  match goal with
  | Hs : comment_step _ _ _ ?ud ?st _ _, Hsel : select_request_by_id _ _ = [],
    Hc : update_call _ _ _ |- _ =>
      pose proof (select_by_id_none _ _ Hsel) as Hnone;
      destruct Hs as [[Hn [_ Hst]] | [_ [I [rows [HI [Hreq [_ Hex]]]]]]]
  end.
  - rewrite Hst, has_request_updated in Hnone.
    split; [exact Hnone|]. split; [rewrite Hst; apply updated_missing; exact Hnone|].
    eauto.
  - exfalso.
    pose proof (insert_comment_needs_request _ _ _ _ id HI Hreq Hex) as Hhas.
    unfold has_request in Hhas, Hnone.
    rewrite (execute_insert_comment_requests _ _ _ _ HI Hex),
      (execute_insert_comment_collation _ _ _ _ HI Hex) in Hnone.
    rewrite Hnone in Hhas. discriminate.
Qed.

(** ** The test route *)

Lemma route_test_teams e w :
  dispatch e = TestTeams ->
  exists c, route e w = test_teams (with_console w c).
Proof.
  intros H. unfold route. rewrite H. unfold bind, console_log. eexists; reflexivity.
Qed.

Lemma test_payload_builds now :
  exists p,
    notification_payload
      (VObj [ ("requestId", str ("TEST-" ++ decimal now)%string);
              ("severity", str "high");
              ("formData",
               VObj [ ("subject", str "Test notification from Lambda");
                      ("description", str "This is a test notification");
                      ("incidentType", str "phishing-email") ]);
              ("userInfo",
               VObj [ ("name", str "Test User");
                      ("email", str "test@test.com");
                      ("department", str "IT") ]);
              ("type", str "phishing-email");
              ("reason", str "Testing Teams integration") ]) = Ok p.
Proof. eexists. reflexivity. Qed.

(** X21.  The test route always answers 200 with the same message: its
    fixed report builds a card at any time of the call, so one card is
    posted when a webhook is configured and none otherwise, and a failed
    delivery is not reported.  The store is untouched. *)
Theorem test_route_always_answers e w :
  dispatch e = TestTeams ->
  exists w',
    handler e w =
    (Ok (json_response 200 [("message", str "Test notification sent, check logs")]), w') /\
    store w' = store w /\
    length (posted w') =
    (if truthy (POWER_AUTOMATE_WEBHOOK_URL w) then S (length (posted w))
     else length (posted w)).
Proof.
  intros Hd.
  destruct (handler_run e w) as [c0 H0]. rewrite H0. clear H0.
  destruct (route_test_teams e (with_console w c0) Hd) as [c1 H1]. rewrite H1. clear H1.
  unfold test_teams, bind, console_log, Date_now, ret.
  cbn [clock with_console console].
  destruct (test_payload_builds (clock w)) as [p Hp].
  destruct (truthy (POWER_AUTOMATE_WEBHOOK_URL w)) eqn:Hurl.
  - match goal with
    | |- context [sendTeamsNotification ?rd ?W] =>
        destruct (notification_posts_once_run rd W p Hurl Hp)
          as (w2 & Hrun & Hposted & Hstore & _)
    end.
    rewrite Hrun. eexists. split; [reflexivity|]. split; [exact Hstore|].
    rewrite Hposted, length_app. cbn. lia.
  - match goal with
    | |- context [sendTeamsNotification ?rd ?W] =>
        destruct (notification_skipped_run rd W Hurl) as [c2 Hrun]
    end.
    rewrite Hrun. eexists. split; [reflexivity|]. split; reflexivity.
Qed.

(** ** Generated identifiers *)

Lemma slash_free_app a b : slash_free (a ++ b)%string = slash_free a && slash_free b.
Proof.
  induction a as [| c a IH]; cbn; [reflexivity|]. rewrite IH, andb_assoc. reflexivity.
Qed.

Lemma upper_char_slash c : (upper_char c =? "/")%char = (c =? "/")%char.
Proof. destruct c as [[] [] [] [] [] [] [] []]; reflexivity. Qed.

Lemma slash_free_upper s : slash_free (toUpperCase s) = slash_free s.
Proof.
  unfold toUpperCase. induction s as [| c s IH]; cbn; [reflexivity|].
  rewrite upper_char_slash, IH. reflexivity.
Qed.

Lemma slash_free_substring s : forall n m,
  slash_free s = true -> slash_free (substring n m s) = true.
Proof.
  induction s as [| c s IH]; intros n m H.
  - destruct n, m; reflexivity.
  - cbn in H. apply andb_true_iff in H. destruct H as [Hc Hs].
    destruct n as [| n]; cbn.
    + destruct m as [| m]; [reflexivity|]. cbn. rewrite Hc. apply IH. exact Hs.
    + apply IH. exact Hs.
Qed.

Lemma digit36_slash d : (d < 36)%N -> (digit36 d =? "/")%char = false.
Proof.
  intros Hd. apply Ascii.eqb_neq. intros E. apply (f_equal N_of_ascii) in E.
  change (N_of_ascii "/") with 47%N in E.
  unfold digit36 in E. destruct (d <? 10)%N eqn:Hlt.
  - rewrite N_ascii_embedding in E by (apply N.ltb_lt in Hlt; lia). lia.
  - rewrite N_ascii_embedding in E by lia. lia.
Qed.

Lemma slash_free_base36 fuel : forall n acc,
  slash_free acc = true -> slash_free (base36_digits fuel n acc) = true.
Proof.
  induction fuel as [| fuel IH]; intros n acc H; cbn [base36_digits]; [exact H|].
  assert (Hacc : slash_free (String (digit36 (n mod 36)) acc) = true).
  { cbn [slash_free]. rewrite digit36_slash by (apply N.mod_lt; discriminate). exact H. }
  destruct (n / 36 =? 0)%N; [exact Hacc | apply IH; exact Hacc].
Qed.

Lemma slash_free_next_request_id w :
  slash_free (random36 w) = true -> slash_free (next_request_id w) = true.
Proof.
  intros H. unfold next_request_id. rewrite slash_free_upper.
  change ("REQ-" ++ toString36 (clock w) ++ "-" ++ substring 0 6 (random36 w))%string
    with ("REQ-" ++ (toString36 (clock w) ++ ("-" ++ substring 0 6 (random36 w))))%string.
  rewrite !slash_free_app. unfold toString36.
  rewrite slash_free_base36 by reflexivity.
  rewrite slash_free_substring by exact H. reflexivity.
Qed.

(** X22.  The identifier the create route generates can be used on the
    status route: when the random digits hold no slash, a [PUT] on
    [/api/requests/<generated id>/status] is dispatched to the status
    update of that identifier. *)
Theorem created_identifier_is_routable w e :
  slash_free (random36 w) = true ->
  opt_is (http_method e) "OPTIONS" || opt_is (httpMethod e) "OPTIONS" = false ->
  request_method e = "PUT"%string ->
  request_path e = ("/api/requests/" ++ next_request_id w ++ "/status")%string ->
  dispatch e = UpdateRequestStatus (next_request_id w).
Proof.
  intros Hrnd Hopt Hm Hp. unfold dispatch. rewrite Hopt, Hm, Hp.
  change ("PUT" =? "GET")%string with false. change ("PUT" =? "POST")%string with false.
  change ("PUT" =? "PUT")%string with true.
  rewrite !andb_false_r.
  assert (E : status_route_id ("/api/requests/" ++ next_request_id w ++ "/status")%string
              = Some (next_request_id w)).
  { unfold status_route_id.
    assert (Ep : strip_prefix "/api/requests/"
                   ("/api/requests/" ++ next_request_id w ++ "/status")%string
                 = Some (next_request_id w ++ "/status")%string)
      by (apply strip_prefix_spec; reflexivity).
    rewrite Ep.
    rewrite (split_slash_complete _ "status" (slash_free_next_request_id w Hrnd)).
    unfold next_request_id. reflexivity. }
  rewrite E. reflexivity.
Qed.

(** ** What a call posts to the webhook *)

Lemma silent_ret {A} (a : A) : silent (ret a).
Proof. intros w r w' H. inversion H. reflexivity. Qed.

Lemma silent_throw {A} m : silent (@throw A m).
Proof. intros w r w' H. inversion H. reflexivity. Qed.

Lemma silent_lift {A} (o : outcome A) : silent (lift o).
Proof. intros w r w' H. inversion H. reflexivity. Qed.

Lemma silent_console_log t : silent (console_log t).
Proof. intros w r w' H. inversion H. reflexivity. Qed.

Lemma silent_console_warn t : silent (console_warn t).
Proof. intros w r w' H. inversion H. reflexivity. Qed.

Lemma silent_console_error t : silent (console_error t).
Proof. intros w r w' H. inversion H. reflexivity. Qed.

Lemma silent_Date_now : silent Date_now.
Proof. intros w r w' H. inversion H. reflexivity. Qed.

Lemma silent_random_suffix : silent random_suffix.
Proof. intros w r w' H. inversion H. reflexivity. Qed.

Lemma silent_lowered s : silent (lowered s).
Proof. intros w r w' H. inversion H. reflexivity. Qed.

Lemma silent_bind {A B} (c : M A) (f : A -> M B) :
  silent c -> (forall a, silent (f a)) -> silent (bind c f).
Proof.
  intros Hc Hf w r w' H. unfold bind in H.
  destruct (c w) as [[a | m] w1] eqn:E.
  - rewrite (Hf a _ _ _ H). exact (Hc _ _ _ E).
  - inversion H; subst. exact (Hc _ _ _ E).
Qed.

Lemma silent_try_catch {A} (c : M A) (h : string -> M A) :
  silent c -> (forall m, silent (h m)) -> silent (try_catch c h).
Proof.
  intros Hc Hh w r w' H. unfold try_catch in H.
  destruct (c w) as [[a | m] w1] eqn:E.
  - inversion H; subst. exact (Hc _ _ _ E).
  - rewrite (Hh m _ _ _ H). exact (Hc _ _ _ E).
Qed.

Lemma silent_executeQuery q : silent (executeQuery q).
Proof.
  intros w r w' H. destruct (executeQuery_run q w) as [c Hc]. rewrite Hc in H.
  inversion H. reflexivity.
Qed.

Lemma silent_mapM {A B} (f : A -> M B) l : (forall a, silent (f a)) -> silent (mapM f l).
Proof.
  intros Hf. induction l as [| x l IH]; cbn [mapM].
  - apply silent_ret.
  - apply silent_bind; [apply Hf | intros y].
    apply silent_bind; [exact IH | intros ys; apply silent_ret].
Qed.

Ltac silent_step :=
  first
    [ apply silent_executeQuery
    | apply silent_mapM; intros ?
    | apply silent_bind; [| intros ?]
    | apply silent_try_catch; [| intros ?]
    | apply silent_ret
    | apply silent_throw
    | apply silent_lift
    | apply silent_console_log
    | apply silent_console_warn
    | apply silent_console_error
    | apply silent_Date_now
    | apply silent_random_suffix
    | apply silent_lowered
    | match goal with
      | |- silent (if ?b then _ else _) => destruct b
      | |- silent (match ?x with _ => _ end) => destruct x
      | |- silent (let (_, _) := ?x in _) => destruct x
      end ].

Lemma once_of_silent {A} (c : M A) : silent c -> posts_once c.
Proof. intros Hc w r w' H. left. exact (Hc _ _ _ H). Qed.

Lemma once_fetch p : posts_once (fetch p).
Proof.
  intros w r w' H. right. exists p. unfold fetch in H.
  destruct (fetch_plan w); inversion H; reflexivity.
Qed.

Lemma once_after {A B} (c : M A) (f : A -> M B) :
  silent c -> (forall a, posts_once (f a)) -> posts_once (bind c f).
Proof.
  intros Hc Hf w r w' H. unfold bind in H.
  destruct (c w) as [[a | m] w1] eqn:E.
  - rewrite <- (Hc _ _ _ E). exact (Hf a _ _ _ H).
  - inversion H; subst. left. exact (Hc _ _ _ E).
Qed.

Lemma once_before {A B} (c : M A) (f : A -> M B) :
  posts_once c -> (forall a, silent (f a)) -> posts_once (bind c f).
Proof.
  intros Hc Hf w r w' H. unfold bind in H.
  destruct (c w) as [[a | m] w1] eqn:E.
  - rewrite (Hf a _ _ _ H). exact (Hc _ _ _ E).
  - inversion H; subst. exact (Hc _ _ _ E).
Qed.

Lemma once_caught {A} (c : M A) (h : string -> M A) :
  posts_once c -> (forall m, silent (h m)) -> posts_once (try_catch c h).
Proof.
  intros Hc Hh w r w' H. unfold try_catch in H.
  destruct (c w) as [[a | m] w1] eqn:E.
  - inversion H; subst. exact (Hc _ _ _ E).
  - rewrite (Hh m _ _ _ H). exact (Hc _ _ _ E).
Qed.

Ltac once_step :=
  first
    [ apply once_fetch
    | apply once_of_silent; solve [repeat silent_step]
    | apply once_after; [solve [repeat silent_step] | intros ?]
    | apply once_before; [| intros ?; solve [repeat silent_step]]
    | apply once_caught; [| intros ?; solve [repeat silent_step]]
    | match goal with
      | |- posts_once (if ?b then _ else _) => destruct b
      | |- posts_once (match ?x with _ => _ end) => destruct x
      | |- posts_once (let (_, _) := ?x in _) => destruct x
      end ].

Lemma once_sendTeamsNotification reportData : posts_once (sendTeamsNotification reportData).
Proof.
  intros w r w' H. unfold sendTeamsNotification in H.
  match type of H with
  | ?c w = _ => assert (Hq : posts_once c) by (repeat once_step)
  end.
  exact (Hq _ _ _ H).
Qed.

Lemma once_handler e : posts_once (handler e).
Proof.
  unfold handler, route, test_teams, user_role, resolve_permissions, list_requests,
    transform, create_request, request_statistics, update_status, transform_updated,
    comments_of, parseJSON, generateRequestId, generateCommentId.
  repeat (apply once_sendTeamsNotification || once_step).
Qed.

Lemma silent_handler e :
  dispatch e <> CreateRequest -> dispatch e <> TestTeams -> silent (handler e).
Proof.
  intros Hc Ht.
  unfold handler, route.
  destruct (dispatch e); try contradiction;
    unfold user_role, resolve_permissions, list_requests,
      transform, request_statistics, update_status, transform_updated,
      comments_of, parseJSON, generateRequestId, generateCommentId;
    repeat silent_step.
Qed.

(** X23.  A call posts at most one card to the webhook, and none unless
    it is a create or a test call. *)
Theorem at_most_one_notification e w :
  (posted (snd (handler e w)) = posted w \/
   exists p, posted (snd (handler e w)) = posted w ++ [p]) /\
  (dispatch e <> CreateRequest -> dispatch e <> TestTeams ->
   posted (snd (handler e w)) = posted w).
Proof.
  destruct (handler e w) as [r w'] eqn:E. cbn [snd]. split.
  - exact (once_handler e _ _ _ E).
  - intros Hc Ht. exact (silent_handler e Hc Ht _ _ _ E).
Qed.

Lemma create_request_posts e w r w1 :
  create_request e w = (r, w1) ->
  posted w1 = posted w \/
  exists requestData priority,
    JSON_parse (body e) = Ok requestData /\
    derive_priority requestData = Ok priority /\
    store w1 =
    set_requests (store w)
      (requests (store w) ++ [new_request_row w requestData priority]).
Proof.
  intros H.
  unfold create_request, generateRequestId, random_suffix, bind, lift, Date_now, ret in H.
  destruct (JSON_parse (body e)) as [requestData | m0] eqn:Hparse;
    [| inversion H; left; reflexivity].
  destruct (get requestData "userId") as [givenId | m1] eqn:Hget;
    [| inversion H; left; reflexivity].
  assert (Hid : givenId = member requestData "userId").
  { destruct requestData; cbn in Hget; inversion Hget; reflexivity. }
  subst givenId.
  match type of H with
  | (if ?b then _ else _) _ = _ => destruct b
  end; simp H; [inversion H; left; reflexivity|].
  destruct (derive_priority requestData) as [priority | m2] eqn:Hprio;
    [| inversion H; left; reflexivity].
  match type of H with
  | context [executeQuery ?q ?W] =>
      destruct (executeQuery_run q W) as [c Hc]; rewrite Hc in H; clear Hc
  end.
  match type of H with
  | context [driver ?q ?W] => destruct (driver q W) as [[rows | m] d1] eqn:Hdrv
  end; simp H; [| inversion H; left; reflexivity].
  apply execute_of_driver in Hdrv. apply execute_insert_request_ok in Hdrv.
  destruct Hdrv as [Hfresh ->]. right. exists requestData, priority.
  split; [reflexivity|]. split; [exact Hprio|].
  match type of H with
  | context [sendTeamsNotification ?rd ?W] =>
      destruct (sendTeamsNotification rd W) as [[[] | m] w2] eqn:Hsend
  end; apply notification_keeps_store in Hsend; cbn [store with_console with_query] in Hsend;
    inversion H; subst; exact Hsend.
Qed.

(** X24.  The create route notifies only after the row is stored:
    whenever a create call posted a card, the new row is in the store
    (whatever the response turns out to be). *)
Theorem notification_follows_the_insert e w :
  dispatch e = CreateRequest ->
  posted (snd (handler e w)) <> posted w ->
  exists requestData priority,
    JSON_parse (body e) = Ok requestData /\
    derive_priority requestData = Ok priority /\
    store (snd (handler e w)) =
    set_requests (store w)
      (requests (store w) ++ [new_request_row w requestData priority]).
Proof.
  intros Hd Hposted.
  destruct (handler_run e w) as [c0 H0]. rewrite H0 in *. clear H0.
  destruct (route_create e (with_console w c0) Hd) as [c1 H1]. rewrite H1 in *. clear H1.
  destruct (create_request e (with_console (with_console w c0) c1)) as [r w1] eqn:Hrun.
  apply create_request_posts in Hrun. cbn [store posted with_console] in Hrun.
  destruct Hrun as [Hsame | Hrow].
  - exfalso. apply Hposted. destruct r; exact Hsame.
  - destruct r; exact Hrow.
Qed.

(** ** Statistics *)

Lemma route_statistics e w :
  dispatch e = Statistics ->
  exists c, route e w = request_statistics (with_console w c).
Proof.
  intros H. unfold route. rewrite H. unfold bind, console_log. eexists; reflexivity.
Qed.

Lemma driver_select_stats w :
  store_answers w -> driver SelectStats w = (Ok (StatRows [request_stats (store w)]), store w).
Proof.
  unfold store_answers, driver. cbn [params existsb execute].
  destruct (faults w) as [| [m |] rest]; intros H; [reflexivity | destruct H | reflexivity].
Qed.

(** X28.  When the store answers, the statistics route returns 200 with
    the single row of the [request_stats] view, whatever its columns hold:
    the zero-valued object the code keeps as a fallback is never used.  One statement is issued and
    the store is unchanged. *)
Theorem statistics_come_from_the_view e w :
  dispatch e = Statistics ->
  store_answers w ->
  exists w',
    handler e w =
    (Ok (json_response 200 [("statistics", request_stats (store w))]), w') /\
    store w' = store w /\
    issued w w' [(SelectStats, None)].
Proof.
  intros Hd Hf.
  destruct (handler_run e w) as [c0 H0]. rewrite H0. clear H0.
  destruct (route_statistics e (with_console w c0) Hd) as [c1 H1]. rewrite H1. clear H1.
  unfold request_statistics, bind.
  destruct (executeQuery_run SelectStats (with_console (with_console w c0) c1)) as [c2 H2].
  rewrite H2. clear H2. rewrite !driver_with_console, (driver_select_stats w Hf).
  cbn. eexists. repeat split.
Qed.

(** ** The further properties at concrete calls *)

Lemma portal_sound : sound (store calm).
Proof.
  split; [exact portal_primary_key|]. split.
  - cbn. constructor.
    + intros [H | []]. discriminate H.
    + constructor; [intros [] | constructor].
  - intros c [<- | [<- | []]]; reflexivity.
Qed.

(** X6, at the unrestricted list call. *)
Lemma reads_leave_the_store_witness :
  writes (dispatch anonymous_lists) = false /\
  store (snd (handler anonymous_lists calm)) = store calm.
Proof.
  split; [reflexivity | apply (reads_leave_the_store anonymous_lists calm); reflexivity].
Defined.

(** X8, at a preflight for the request collection. *)
Lemma preflight_is_answered_first_witness :
  opt_is (http_method preflight) "OPTIONS" || opt_is (httpMethod preflight) "OPTIONS" = true /\
  exists c,
    handler preflight calm
    = (Ok {| statusCode := 200; response_body := str "" |}, with_console calm c).
Proof.
  split; [reflexivity | apply (preflight_is_answered_first preflight calm); reflexivity].
Defined.

(** X9, at a [DELETE] of Alice's report. *)
Lemma other_methods_are_not_found_witness :
  request_method delete_alice = "DELETE"%string /\
  exists c,
    handler delete_alice calm
    = (Ok (json_response 404
             [ ("error", str "Not Found");
               ("message", str "Route DELETE /api/requests/REQ-A1 not found") ]),
       with_console calm c).
Proof.
  split; [reflexivity|].
  apply (other_methods_are_not_found delete_alice calm);
    [reflexivity | vm_compute; discriminate | vm_compute; discriminate
     | vm_compute; discriminate].
Defined.

(** X10, at the event without path and method. *)
Lemma bare_event_is_a_health_check_witness :
  exists c,
    handler bare calm
    = (Ok (json_response 200
             [ ("status", str "OK");
               ("message", str "Company Security Portal API is running!");
               ("timestamp", VNum 1000);
               ("version", str "1.0.0") ]),
       with_console calm c).
Proof. apply (bare_event_is_a_health_check bare calm); reflexivity. Defined.

(** X11, at an update that only has notes. *)
Lemma status_is_required_witness :
  dispatch update_without_status = UpdateRequestStatus "REQ-A1" /\
  JSON_parse (body update_without_status) = Ok notes_only /\
  exists w',
    handler update_without_status calm
    = (Ok (json_response 400 [("error", str "Status is required")]), w') /\
    store w' = store calm /\ sql_trace w' = sql_trace calm.
Proof.
  split; [reflexivity|]. split; [reflexivity|].
  apply (status_is_required "REQ-A1" update_without_status calm notes_only); reflexivity.
Defined.

(** X12, at a role call without parameters. *)
Lemma email_is_required_witness :
  dispatch role_without_email = UserRole /\
  exists w',
    handler role_without_email calm
    = (Ok (json_response 400
             [ ("error", str "Bad Request");
               ("message", str "Email is required for user role determination") ]),
       w') /\
    store w' = store calm /\ sql_trace w' = sql_trace calm.
Proof.
  split; [reflexivity | apply (email_is_required role_without_email calm); reflexivity].
Defined.

(** X15, at the unrestricted list call. *)
Lemma list_is_newest_first_witness :
  exists items w',
    handler anonymous_lists calm =
    (Ok (json_response 200
           [("requests", VArr items); ("count", VNum (Z.of_nat (length items)))]), w') /\
    StronglySorted (fun a b => b <= a)%Z (map created_at_of items).
Proof. apply (list_is_newest_first anonymous_lists calm); [reflexivity | exact I]. Defined.

(** X16, at Erin's card with the webhook configured and the delivery failing. *)
Lemma notification_is_sent_when_configured_witness :
  truthy (POWER_AUTOMATE_WEBHOOK_URL hooked) = true /\
  exists p w',
    notification_payload erin_card = Ok p /\
    sendTeamsNotification erin_card hooked = (Ok tt, w') /\
    posted w' = posted hooked ++ [p] /\
    store w' = store hooked /\
    member p "reportId" = member erin_card "requestId" /\
    member p "severity" = member erin_card "severity".
Proof.
  split; [reflexivity|].
  destruct (notification_payload erin_card) as [p | m] eqn:E; [| vm_compute in E; discriminate E].
  exists p.
  destruct (proj2 (notification_is_sent_when_configured erin_card hooked) p eq_refl E)
    as [w' H].
  exists w'. split; [reflexivity | exact H].
Defined.


(** X18, at Erin's report followed by the unrestricted list call. *)
Lemma created_report_is_listed_witness :
  statusCode (answer report_low calm) = 201 /\
  owner_scope anonymous_lists = None /\
  exists items w'' item,
    handler anonymous_lists (after report_low calm) =
    (Ok (json_response 200
           [("requests", VArr items); ("count", VNum (Z.of_nat (length items)))]), w'') /\
    length items = S (length (requests (store calm))) /\
    In item items /\
    member item "id" = member (member (response_body (answer report_low calm)) "request") "id" /\
    member item "status" = str "open" /\
    member item "comments" = VArr [].
Proof.
  split; [reflexivity|]. split; [reflexivity|].
  apply (created_report_is_listed report_low calm (answer report_low calm)
           (after report_low calm) anonymous_lists);
    [ exact portal_sound | reflexivity | vm_compute; reflexivity | reflexivity
    | reflexivity | reflexivity | vm_compute; exact I ].
Defined.


(** X20, at the update without notes of a request the store does not have. *)
Lemma status_update_not_found_witness :
  dispatch resolve_missing_without_notes = UpdateRequestStatus "REQ-GONE" /\
  statusCode (answer resolve_missing_without_notes calm) = 404 /\
  has_request (store calm) "REQ-GONE" = false /\
  store (after resolve_missing_without_notes calm) = store calm /\
  exists updateData status,
    update_call resolve_missing_without_notes updateData status /\
    has_notes (member updateData "notes") = Ok false.
Proof.
  split; [reflexivity|]. split; [reflexivity|].
  apply (status_update_not_found "REQ-GONE" resolve_missing_without_notes calm
           (answer resolve_missing_without_notes calm));
    [reflexivity | vm_compute; reflexivity | reflexivity].
Defined.

(** X21, with the webhook configured and the delivery failing. *)
Lemma test_route_always_answers_witness :
  dispatch test_call = TestTeams /\
  exists w',
    handler test_call hooked =
    (Ok (json_response 200 [("message", str "Test notification sent, check logs")]), w') /\
    store w' = store hooked /\
    length (posted w') =
    (if truthy (POWER_AUTOMATE_WEBHOOK_URL hooked) then S (length (posted hooked))
     else length (posted hooked)).
Proof.
  split; [reflexivity | apply (test_route_always_answers test_call hooked); reflexivity].
Defined.

(** X22, at the identifier the small portal generates next. *)
Lemma created_identifier_is_routable_witness :
  next_request_id calm = "REQ-RS-K3V9X2"%string /\
  dispatch resolve_created = UpdateRequestStatus (next_request_id calm).
Proof.
  split; [reflexivity|].
  apply (created_identifier_is_routable calm resolve_created); reflexivity.
Defined.

(** X23, at the unrestricted list call. *)
Lemma at_most_one_notification_witness :
  dispatch anonymous_lists = ListRequests /\
  posted (snd (handler anonymous_lists hooked)) = posted hooked.
Proof.
  split; [reflexivity|].
  apply (proj2 (at_most_one_notification anonymous_lists hooked));
    vm_compute; discriminate.
Defined.

(** X24, at Erin's report with the webhook configured. *)
Lemma notification_follows_the_insert_witness :
  dispatch report_low = CreateRequest /\
  length (posted (snd (handler report_low hooked))) = 1%nat /\
  exists requestData priority,
    JSON_parse (body report_low) = Ok requestData /\
    derive_priority requestData = Ok priority /\
    store (snd (handler report_low hooked)) =
    set_requests (store hooked)
      (requests (store hooked) ++ [new_request_row hooked requestData priority]).
Proof.
  split; [reflexivity|]. split; [reflexivity|].
  apply (notification_follows_the_insert report_low hooked);
    [reflexivity | vm_compute; discriminate].
Defined.

(** X25, at a severity that is no priority. *)
Lemma priority_derivation_on_strings_witness :
  opt_get (member urgent_report "formData") "severity" = str "urgent" /\
  derive_priority urgent_report = Ok (str "medium").
Proof.
  split; [reflexivity|].
  apply (proj2 (proj2 (priority_derivation_on_strings urgent_report)) "urgent" None);
    reflexivity.
Defined.

(** X26, at Erin's report with a failing and with an accepted delivery. *)
Lemma delivery_never_changes_the_answer_witness :
  agree hooked delivered /\
  fst (handler report_low hooked) = fst (handler report_low delivered) /\
  store (snd (handler report_low hooked)) = store (snd (handler report_low delivered)).
Proof.
  assert (H : agree hooked delivered) by (repeat split).
  split; [exact H | apply (delivery_never_changes_the_answer report_low hooked delivered H)].
Defined.

(** X27, at the update with notes of a request the store does not have. *)
Lemma unknown_request_with_notes_is_a_failure_witness :
  dispatch resolve_missing = UpdateRequestStatus "REQ-GONE" /\
  has_request (store calm) "REQ-GONE" = false /\
  statusCode (answer resolve_missing calm) = 500 /\
  request_comments (store (after resolve_missing calm)) = request_comments (store calm).
Proof.
  split; [reflexivity|]. split; [reflexivity|].
  apply (unknown_request_with_notes_is_a_failure "REQ-GONE" resolve_missing calm
           (answer resolve_missing calm) (after resolve_missing calm)
           (VObj [("status", str "resolved"); ("notes", str "Investigated further")])
           (str "resolved"));
    [ reflexivity | reflexivity | repeat split | reflexivity | vm_compute; reflexivity ].
Defined.

(** X28, at the statistics call on the small portal. *)
Lemma statistics_come_from_the_view_witness :
  dispatch stats_call = Statistics /\
  exists w',
    handler stats_call calm =
    (Ok (json_response 200 [("statistics", request_stats (store calm))]), w') /\
    store w' = store calm /\
    issued calm w' [(SelectStats, None)].
Proof.
  split; [reflexivity|].
  apply (statistics_come_from_the_view stats_call calm); [reflexivity | exact I].
Defined.
